(** * makeboard.py: export of a copper layer as a filled-polygon SVG

    A shallow embedding of [src/esp32_breakout/makeboard.py] and the
    properties of its pipeline: layer resolution, the item-on-layer test,
    the per-item conversion and union loops, loop iteration, bounds,
    SVG path serialisation and the final write.

    Modelling conventions.
    - The script runs inside KiCad and talks to [pcbnew] objects.  A host
      object is a record of the methods the script calls on it.  A method
      the script probes with [hasattr] is an [option]; a call the script
      guards with [try] returns a [result]; a call the script makes
      unguarded everywhere is a total function, as the script assumes.
    - A [SHAPE_POLY_SET] is mutated in place by the host; its state is a
      value of an abstract type [polyset], threaded explicitly.  A call that
      raises still returns the state it left behind.
    - A Python float is modelled by the rational it stands for ([Q]).  A
      float operation rounds its exact result: the rounding is the parameter
      [fl], applied wherever the script adds or subtracts floats; what the
      proofs need of it is stated in [float_rounding].  Comparison and
      negation are exact.  pcbnew's unit conversions [ToMM] / [FromMM] are
      parameters.
    - The file system is a finite map from paths to contents; opening a
      file with mode "w" and writing it is one insertion. *)

From Stdlib Require Import ZArith QArith Qabs Qround Lqa Lia List Ascii String.
From stdpp Require Import base option list strings gmap.

Local Open Scope Z_scope.

(** ** Exceptions and results *)

Inductive exn : Type :=
| RuntimeError (msg : string)   (* raised by the script itself *)
| HostError (msg : string).     (* any exception raised inside a host call *)

Inductive result (A : Type) : Type :=
| Ok (a : A)
| Raise (e : exn).
Arguments Ok {A} a.
Arguments Raise {A} e.

(** ** Host objects *)

(** [pcbnew.VECTOR2I]: a point in internal units. *)
Record VECTOR2I : Type := { vx : Z; vy : Z }.

(** An object handed out as a loop.  [PointCount] / [CPoint] are probed with
    [hasattr] and then called unguarded; iteration is guarded by [try]:
    [None] is an object that is not iterable, [Some (ps, raised)] one that
    yields [ps] and then either stops ([false]) or raises ([true]). *)
Record Chain : Type := {
  PointCount : option Z;
  CPoint : option (Z -> VECTOR2I);
  chain_iter : option (list VECTOR2I * bool)
}.

(** The class [pcbnew.SHAPE_POLY_SET] over its object state [polyset]. *)
Record PolyAPI (polyset : Type) : Type := {
  SHAPE_POLY_SET : polyset;
  PolygonCount : option (polyset -> result Z);
  Outline : option (polyset -> Z -> result Chain);
  HoleCount : option (polyset -> Z -> result Z);
  Hole : option (polyset -> Z -> Z -> result Chain);
  OutlineCount : option (polyset -> result Z);
  BooleanAdd : option (polyset -> polyset -> polyset * result unit);
  BooleanAddTo : option (polyset -> polyset -> polyset * result unit);
  Add : option (polyset -> polyset -> polyset * result unit);
  Append : option (polyset -> polyset -> polyset * result unit)
}.
Arguments SHAPE_POLY_SET {polyset} _.
Arguments PolygonCount {polyset} _.
Arguments Outline {polyset} _.
Arguments HoleCount {polyset} _.
Arguments Hole {polyset} _.
Arguments OutlineCount {polyset} _.
Arguments BooleanAdd {polyset} _.
Arguments BooleanAddTo {polyset} _.
Arguments Add {polyset} _.
Arguments Append {polyset} _.

(** A board primitive: track, via, drawing, pad or zone.  The conversion
    methods take the target polygon set, the clearance, the maximum error and
    (for one signature) a trailing flag; they return the state they left the
    target in and whether they raised.  A method that is absent where the
    script calls it without [hasattr] raises [AttributeError], which is a
    [Raise] that leaves the target as it was. *)
Record Item (polyset : Type) : Type := {
  IsOnLayer : option (Z -> result bool);
  GetLayer : option (result Z);
  GetClass : result string;
  GetLayerSet_Contains : Z -> result bool;
  TransformShapeToPolygon :
    polyset -> Z -> Z -> option bool -> polyset * result unit;
  TransformSolidAreasToPolygon :
    option (polyset -> Z -> Z -> polyset * result unit);
  TransformSolidAreasShapesToPolygon :
    option (polyset -> Z -> Z -> polyset * result unit)
}.
Arguments IsOnLayer {polyset} _.
Arguments GetLayer {polyset} _.
Arguments GetClass {polyset} _.
Arguments GetLayerSet_Contains {polyset} _.
Arguments TransformShapeToPolygon {polyset} _.
Arguments TransformSolidAreasToPolygon {polyset} _.
Arguments TransformSolidAreasShapesToPolygon {polyset} _.

(** A footprint, seen through [fp.Pads()]. *)
Record Footprint (polyset : Type) : Type := { Pads : list (Item polyset) }.
Arguments Pads {polyset} _.

Record Board (polyset : Type) : Type := {
  GetLayerID : string -> result Z;
  GetLayerName : Z -> string;
  GetTracks : result (list (Item polyset));
  GetDrawings : result (list (Item polyset));
  GetFootprints : list (Footprint polyset);
  Zones : result (list (Item polyset));
  GetFileName : string
}.
Arguments GetLayerID {polyset} _.
Arguments GetLayerName {polyset} _.
Arguments GetTracks {polyset} _.
Arguments GetDrawings {polyset} _.
Arguments GetFootprints {polyset} _.
Arguments Zones {polyset} _.
Arguments GetFileName {polyset} _.

(** ** User settings *)

Record Settings : Type := {
  LAYER_NAME : string;
  INCLUDE_ZONES : bool;
  MAX_ERROR_MM : Q;
  MARGIN_MM : Q;
  FILL_COLOR : string;
  OUT_SUFFIX : string
}.

(** The values the script ships with. *)
Definition user_settings : Settings := {|
  LAYER_NAME := "F.Cu";
  INCLUDE_ZONES := false;
  MAX_ERROR_MM := 2 # 100;
  MARGIN_MM := 1;
  FILL_COLOR := "#000000";
  OUT_SUFFIX := "_laser.svg"
|}.

(** ** The world outside the script: files and the console *)

Record World : Type := {
  files : gmap string string;
  console : list string
}.

(** ** Small pieces of Python *)

(** [range(n)] for an integer [n]: empty when [n <= 0]. *)
Definition range (n : Z) : list Z := map Z.of_nat (seq 0 (Z.to_nat n)).

(** [str.upper] on ASCII letters. *)
Definition upper_ascii (c : ascii) : ascii :=
  let n := nat_of_ascii c in
  if ((97 <=? n) && (n <=? 122))%nat then ascii_of_nat (n - 32) else c.

Fixpoint upper (s : string) : string :=
  match s with
  | EmptyString => EmptyString
  | String c s' => String (upper_ascii c) (upper s')
  end.

(** [needle in hay] on strings. *)
Fixpoint contains (needle hay : string) : bool :=
  String.prefix needle hay ||
  match hay with
  | EmptyString => false
  | String _ hay' => contains needle hay'
  end.

(** [s.replace(a, b)] for single characters. *)
Fixpoint replace_char (a b : ascii) (s : string) : string :=
  match s with
  | EmptyString => EmptyString
  | String c s' =>
      String (if Ascii.eqb c a then b else c) (replace_char a b s')
  end.

(** Comparison of floats, as a boolean. *)
Definition Qltb (x y : Q) : bool :=
  match (x ?= y)%Q with Lt => true | _ => false end.

(** Rounding to the nearest integer, ties to even. *)
Definition round_half_even (q : Q) : Z :=
  let f := Qfloor q in
  match (q - inject_Z f ?= 1 # 2)%Q with
  | Lt => f
  | Gt => f + 1
  | Eq => if Z.even f then f else f + 1
  end.

Definition digit (d : Z) : ascii := ascii_of_nat (48 + Z.to_nat d).

Fixpoint dec_digits (fuel : nat) (n : Z) (acc : string) : string :=
  match fuel with
  | O => acc
  | S fuel' =>
      let acc' := String (digit (n mod 10)) acc in
      if n <? 10 then acc' else dec_digits fuel' (n / 10) acc'
  end.

(** The decimal numeral of a natural number. *)
Definition dec (n : Z) : string :=
  dec_digits (S (Z.to_nat (Z.log2 n))) n EmptyString.

Definition frac4 (m : Z) : string :=
  String (digit (m / 1000 mod 10))
    (String (digit (m / 100 mod 10))
       (String (digit (m / 10 mod 10))
          (String (digit (m mod 10)) EmptyString))).

(** The format specification [:.4f]. *)
Definition fmt4 (q : Q) : string :=
  let n := round_half_even (Qabs q * 10000) in
  (if Qltb q 0 then "-" else "") +:+ dec (n / 10000) +:+ "." +:+
  frac4 (n mod 10000).

Definition dq : string := String "034"%char EmptyString.
Definition newline : string := String "010"%char EmptyString.

(** [str(b)] for a boolean. *)
Definition str_bool (b : bool) : string := if b then "True" else "False".

(** Decimal digits, for statements about formatted numbers. *)
Definition is_digit (c : ascii) : bool :=
  let n := nat_of_ascii c in ((48 <=? n) && (n <=? 57))%nat.

Fixpoint all_digits (s : string) : bool :=
  match s with
  | EmptyString => true
  | String c s' => is_digit c && all_digits s'
  end.

(** The number a run of decimal digits denotes. *)
Fixpoint digits_value (s : string) : Z :=
  match s with
  | EmptyString => 0
  | String c s' =>
      (Z.of_nat (nat_of_ascii c) - 48) * 10 ^ Z.of_nat (String.length s') +
      digits_value s'
  end.

(** ** Boards that differ in one collection *)

Definition with_tracks {polyset} (board : Board polyset)
    (tracks : result (list (Item polyset))) : Board polyset :=
  {| GetLayerID := GetLayerID board; GetLayerName := GetLayerName board;
     GetTracks := tracks; GetDrawings := GetDrawings board;
     GetFootprints := GetFootprints board; Zones := Zones board;
     GetFileName := GetFileName board |}.

Definition with_drawings {polyset} (board : Board polyset)
    (drawings : result (list (Item polyset))) : Board polyset :=
  {| GetLayerID := GetLayerID board; GetLayerName := GetLayerName board;
     GetTracks := GetTracks board; GetDrawings := drawings;
     GetFootprints := GetFootprints board; Zones := Zones board;
     GetFileName := GetFileName board |}.

Definition with_footprints {polyset} (board : Board polyset)
    (fps : list (Footprint polyset)) : Board polyset :=
  {| GetLayerID := GetLayerID board; GetLayerName := GetLayerName board;
     GetTracks := GetTracks board; GetDrawings := GetDrawings board;
     GetFootprints := fps; Zones := Zones board;
     GetFileName := GetFileName board |}.

Definition with_zones {polyset} (board : Board polyset)
    (zones : result (list (Item polyset))) : Board polyset :=
  {| GetLayerID := GetLayerID board; GetLayerName := GetLayerName board;
     GetTracks := GetTracks board; GetDrawings := GetDrawings board;
     GetFootprints := GetFootprints board; Zones := zones;
     GetFileName := GetFileName board |}.

(** ** A small host, for running the script on concrete boards

    A polygon set is a list of polygons, each an outline with its holes;
    the union appends.  Lengths are in nanometres. *)

Module Demo.

Definition polyset : Type := list (Chain * list Chain).

(** A [SHAPE_LINE_CHAIN] with the given points. *)
Definition line_chain (pts : list VECTOR2I) : Chain :=
  {| PointCount := Some (Z.of_nat (length pts));
     CPoint := Some (fun i => nth (Z.to_nat i) pts {| vx := 0; vy := 0 |});
     chain_iter := Some (pts, false) |}.

(** An object that is no chain at all. *)
Definition opaque_chain : Chain :=
  {| PointCount := None; CPoint := None; chain_iter := None |}.

Definition index_error {A} : result A := Raise (HostError "IndexError").

Definition append_polys (dst src : polyset) : polyset * result unit :=
  (dst ++ src, Ok tt).

Definition api : PolyAPI polyset :=
  {| SHAPE_POLY_SET := [];
     PolygonCount := Some (fun ps => Ok (Z.of_nat (length ps)));
     Outline := Some (fun ps p =>
       match ps !! Z.to_nat p with
       | Some (o, _) => Ok o
       | None => index_error
       end);
     HoleCount := Some (fun ps p =>
       match ps !! Z.to_nat p with
       | Some (_, hs) => Ok (Z.of_nat (length hs))
       | None => index_error
       end);
     Hole := Some (fun ps p h =>
       match ps !! Z.to_nat p with
       | Some (_, hs) =>
           match hs !! Z.to_nat h with
           | Some c => Ok c
           | None => index_error
           end
       | None => index_error
       end);
     OutlineCount := Some (fun ps => Ok (Z.of_nat (length ps)));
     BooleanAdd := Some append_polys;
     BooleanAddTo := None; Add := None; Append := None |}.

(** A build of the host whose polygon sets have none of the four union
    methods. *)
Definition api_no_union : PolyAPI polyset :=
  {| SHAPE_POLY_SET := SHAPE_POLY_SET api;
     PolygonCount := PolygonCount api; Outline := Outline api;
     HoleCount := HoleCount api; Hole := Hole api;
     OutlineCount := OutlineCount api;
     BooleanAdd := None; BooleanAddTo := None; Add := None; Append := None |}.

(** A build whose union refuses an empty operand. *)
Definition api_picky : PolyAPI polyset :=
  {| SHAPE_POLY_SET := SHAPE_POLY_SET api;
     PolygonCount := PolygonCount api; Outline := Outline api;
     HoleCount := HoleCount api; Hole := Hole api;
     OutlineCount := OutlineCount api;
     BooleanAdd := Some (fun dst src =>
       match src with
       | [] => (dst, Raise (HostError "empty operand"))
       | _ => append_polys dst src
       end);
     BooleanAddTo := None; Add := None; Append := None |}.

(** A build whose polygon sets have no [Outline] accessor. *)
Definition api_no_outline : PolyAPI polyset :=
  {| SHAPE_POLY_SET := SHAPE_POLY_SET api;
     PolygonCount := PolygonCount api; Outline := None;
     HoleCount := HoleCount api; Hole := Hole api;
     OutlineCount := OutlineCount api;
     BooleanAdd := BooleanAdd api;
     BooleanAddTo := None; Add := None; Append := None |}.

(** A build whose [HoleCount] raises for every polygon. *)
Definition api_broken_holes : PolyAPI polyset :=
  {| SHAPE_POLY_SET := SHAPE_POLY_SET api;
     PolygonCount := PolygonCount api; Outline := Outline api;
     HoleCount := Some (fun _ _ => index_error); Hole := Hole api;
     OutlineCount := OutlineCount api;
     BooleanAdd := BooleanAdd api;
     BooleanAddTo := None; Add := None; Append := None |}.

(** An older build: no [PolygonCount], only the outline accessors. *)
Definition api_outlines_only : PolyAPI polyset :=
  {| SHAPE_POLY_SET := SHAPE_POLY_SET api;
     PolygonCount := None; Outline := Outline api;
     HoleCount := None; Hole := None;
     OutlineCount := OutlineCount api;
     BooleanAdd := BooleanAdd api;
     BooleanAddTo := None; Add := None; Append := None |}.

Definition pt (x y : Z) : VECTOR2I := {| vx := x; vy := y |}.

(** A rectangle from [(x0, y0)] to [(x1, y1)]. *)
Definition rect (x0 y0 x1 y1 : Z) : Chain :=
  line_chain [pt x0 y0; pt x1 y0; pt x1 y1; pt x0 y1].

(** An item on layer 0 whose conversion adds the given polygons. *)
Definition shape (cls : string) (polys : polyset) : Item polyset :=
  {| IsOnLayer := Some (fun lid => Ok (lid =? 0));
     GetLayer := Some (Ok 0);
     GetClass := Ok cls;
     GetLayerSet_Contains := fun lid => Ok (lid =? 0);
     TransformShapeToPolygon := fun ps _ _ _ => append_polys ps polys;
     TransformSolidAreasToPolygon := None;
     TransformSolidAreasShapesToPolygon := None |}.

(** An item on layer 0 that no call signature converts. *)
Definition malformed : Item polyset :=
  {| IsOnLayer := Some (fun lid => Ok (lid =? 0));
     GetLayer := Some (Ok 0);
     GetClass := Ok "PCB_SHAPE";
     GetLayerSet_Contains := fun lid => Ok (lid =? 0);
     TransformShapeToPolygon := fun ps _ _ _ => (ps, Raise (HostError "TypeError"));
     TransformSolidAreasToPolygon := None;
     TransformSolidAreasShapesToPolygon := None |}.

Definition track : Item polyset :=
  shape "PCB_TRACK" [(rect 1000000 2000000 11000000 2500000, [])].

Definition pad : Item polyset :=
  shape "PAD"
    [(rect 0 0 4000000 4000000,
      [rect 1000000 1000000 3000000 3000000])].

(** An item whose conversion succeeds and adds nothing. *)
Definition blank : Item polyset := shape "PCB_SHAPE" [].

(** An item that only answers [GetClass]. *)
Definition bare (cls : string) : Item polyset :=
  {| IsOnLayer := None; GetLayer := None; GetClass := Ok cls;
     GetLayerSet_Contains := fun _ => Raise (HostError "AttributeError");
     TransformShapeToPolygon := fun ps _ _ _ => (ps, Raise (HostError "AttributeError"));
     TransformSolidAreasToPolygon := None;
     TransformSolidAreasShapesToPolygon := None |}.

Definition board (tracks : list (Item polyset))
    (pads : list (Item polyset)) : Board polyset :=
  {| GetLayerID := fun name =>
       if String.eqb name "F.Cu" then Ok 0
       else Raise (HostError "KeyError");
     GetLayerName := fun lid =>
       if lid =? 0 then "F.Cu" else if lid =? 2 then "B.Cu" else "";
     GetTracks := Ok tracks;
     GetDrawings := Ok [];
     GetFootprints := [{| Pads := pads |}];
     Zones := Ok [];
     GetFileName := "esp32.kicad_pcb" |}.

(** A board whose direct lookup always raises. *)
Definition board_scan_only : Board polyset :=
  {| GetLayerID := fun _ => Raise (HostError "KeyError");
     GetLayerName := GetLayerName (board [] []);
     GetTracks := Ok [track];
     GetDrawings := Ok [];
     GetFootprints := [];
     Zones := Ok [];
     GetFileName := "esp32.kicad_pcb" |}.

Definition PCB_LAYER_ID_COUNT : Z := 64.

Definition FromMM (mm : Q) : Z := Qfloor (mm * 1000000).

(** Rounding to the nearest multiple of 2^-40, ties to even: a rounding
    onto a grid, as float rounding is within one binade. *)
Definition fl (q : Q) : Q :=
  round_half_even (q * inject_Z (2 ^ 40)) # 1099511627776.

(** Nanometres to millimetres, as a float. *)
Definition ToMM (iu : Z) : Q := fl (iu # 1000000).

(** [p.rfind(c)], counting from [i]: the last index of [c], or -1. *)
Fixpoint rfind_from (c : ascii) (p : string) (i : Z) : Z :=
  match p with
  | EmptyString => -1
  | String a p' =>
      let j := rfind_from c p' (i + 1) in
      if 0 <=? j then j else if Ascii.eqb a c then i else -1
  end.

(** [os.path.splitext(p)[0]] of [posixpath]: the extension starts at the
    last dot, if that dot is after the last slash and is not one of the
    leading dots of the file name. *)
Definition splitext_root (p : string) : string :=
  let sepIndex := rfind_from "/" p 0 in
  let dotIndex := rfind_from "." p 0 in
  if sepIndex <? dotIndex then
    if existsb
         (fun k =>
            negb (bool_decide
                    (String.get (Z.to_nat (sepIndex + 1 + k)) p = Some "."%char)))
         (range (dotIndex - (sepIndex + 1)))
    then String.substring 0 (Z.to_nat dotIndex) p
    else p
  else p.

(** A via: it has no layer of its own and converts to a square. *)
Definition via : Item polyset :=
  {| IsOnLayer := None; GetLayer := None; GetClass := Ok "PCB_VIA";
     GetLayerSet_Contains := fun _ => Raise (HostError "AttributeError");
     TransformShapeToPolygon := fun ps _ _ _ =>
       append_polys ps [(rect 0 0 1000000 1000000, [])];
     TransformSolidAreasToPolygon := None;
     TransformSolidAreasShapesToPolygon := None |}.

(** A board whose direct lookup answers -1 for a name it does not know,
    instead of raising. *)
Definition board_sentinel : Board polyset :=
  {| GetLayerID := fun name =>
       if String.eqb name "F.Cu" then Ok 0
       else if String.eqb name "B.Cu" then Ok 2
       else Ok (-1);
     GetLayerName := GetLayerName (board [] []);
     GetTracks := Ok [via];
     GetDrawings := Ok [];
     GetFootprints := [];
     Zones := Ok [];
     GetFileName := "esp32.kicad_pcb" |}.

(** The shipped settings, for another layer name. *)
Definition settings_for (name : string) : Settings :=
  {| LAYER_NAME := name;
     INCLUDE_ZONES := INCLUDE_ZONES user_settings;
     MAX_ERROR_MM := MAX_ERROR_MM user_settings;
     MARGIN_MM := MARGIN_MM user_settings;
     FILL_COLOR := FILL_COLOR user_settings;
     OUT_SUFFIX := OUT_SUFFIX user_settings |}.

(** A sliver 10 nm wide and 4 mm high. *)
Definition sliver : Item polyset :=
  shape "PCB_SHAPE" [(rect 0 0 10 4000000, [])].

(** A zone with both solid-area methods: the first raises after putting a
    polygon into its target, the second succeeds. *)
Definition zone_second_method : Item polyset :=
  {| IsOnLayer := None; GetLayer := Some (Ok 0); GetClass := Ok "ZONE";
     GetLayerSet_Contains := fun _ => Raise (HostError "AttributeError");
     TransformShapeToPolygon := fun ps _ _ _ =>
       (ps, Raise (HostError "TypeError"));
     TransformSolidAreasToPolygon := Some (fun ps _ _ =>
       (ps ++ [(rect 0 0 1000000 1000000, [])], Raise (HostError "TypeError")));
     TransformSolidAreasShapesToPolygon := Some (fun ps _ _ =>
       append_polys ps [(rect 0 0 2000000 2000000, [])]) |}.

Definition world0 : World := {| files := ∅; console := [] |}.

End Demo.

(** ** The script *)

Section Script.

Context {polyset : Type}.
Variable api : PolyAPI polyset.            (* pcbnew.SHAPE_POLY_SET *)
Variable PCB_LAYER_ID_COUNT : Z.           (* pcbnew.PCB_LAYER_ID_COUNT *)
Variable FromMM : Q -> Z.                  (* pcbnew.FromMM *)
Variable ToMM : Z -> Q.                    (* pcbnew.ToMM *)
Variable fl : Q -> Q.                      (* rounding of a float result *)
Variable splitext_root : string -> string. (* os.path.splitext(p)[0] *)

Definition iu_from_mm (mm : Q) : Z := FromMM mm.

Definition mm_from_iu (iu : Z) : Q := ToMM iu.

Definition layer_not_found (name : string) : exn :=
  RuntimeError ("Could not find layer '" +:+ name +:+ "'").

Definition get_layer_id (board : Board polyset) (name : string) : result Z :=
  match GetLayerID board name with
  | Ok lid => Ok lid
  | Raise _ =>
      match find (fun lid => String.eqb (GetLayerName board lid) name)
                 (range PCB_LAYER_ID_COUNT) with
      | Some lid => Ok lid
      | None => Raise (layer_not_found name)
      end
  end.

Definition api_mismatch_add : exn :=
  RuntimeError "Could not boolean-add polygon sets (KiCad API mismatch).".

(** The first of the four method names that [dst] has is called. *)
Definition poly_boolean_add (dst src : polyset) : polyset * result unit :=
  match BooleanAdd api, BooleanAddTo api, Add api, Append api with
  | Some f, _, _, _ => f dst src
  | None, Some f, _, _ => f dst src
  | None, None, Some f, _ => f dst src
  | None, None, None, Some f => f dst src
  | None, None, None, None => (dst, Raise api_mismatch_add)
  end.

(** Each [try] block either returns or falls through to the next one. *)
Definition item_on_layer (item : Item polyset) (lid : Z) : bool :=
  match
    match IsOnLayer item with
    | Some f => match f lid with Ok b => Some b | Raise _ => None end
    | None => None
    end
  with
  | Some b => b
  | None =>
      match
        match GetLayer item with
        | Some (Ok l) => Some (l =? lid)
        | Some (Raise _) => None
        | None => None
        end
      with
      | Some b => b
      | None =>
          match GetClass item with
          | Ok cls => if contains "VIA" (upper cls) then true else false
          | Raise _ => false
          end
      end
  end.

(** The three call signatures are tried in order on the same [ps]. *)
Fixpoint try_signatures (item : Item polyset) (max_error_iu : Z)
    (sigs : list (option bool)) (ps : polyset) : option polyset :=
  match sigs with
  | [] => None
  | flag :: sigs' =>
      match TransformShapeToPolygon item ps 0 max_error_iu flag with
      | (ps', Ok _) => Some ps'
      | (ps', Raise _) => try_signatures item max_error_iu sigs' ps'
      end
  end.

Definition transform_to_polyset (item : Item polyset) (max_error_iu : Z)
    : option polyset :=
  try_signatures item max_error_iu [None; Some true; Some false]
    (SHAPE_POLY_SET api).

Fixpoint try_solid_areas
    (fns : list (option (polyset -> Z -> Z -> polyset * result unit)))
    (max_error_iu : Z) (ps : polyset) : option polyset :=
  match fns with
  | [] => None
  | None :: fns' => try_solid_areas fns' max_error_iu ps
  | Some f :: fns' =>
      match f ps 0 max_error_iu with
      | (ps', Ok _) => Some ps'
      | (ps', Raise _) => try_solid_areas fns' max_error_iu ps'
      end
  end.

Definition zone_to_polyset (zone : Item polyset) (max_error_iu : Z)
    : option polyset :=
  match try_solid_areas
          [TransformSolidAreasToPolygon zone;
           TransformSolidAreasShapesToPolygon zone]
          max_error_iu (SHAPE_POLY_SET api) with
  | Some ps => Some ps
  | None => transform_to_polyset zone max_error_iu
  end.

(** *** Loop iteration

    A generator is the list of loops it yields together with the way it
    ends: [None] when it returns, [Some e] when it raises [e]. *)

Definition api_mismatch_iter : exn :=
  RuntimeError "Could not iterate polygon loops (KiCad API mismatch).".

(** The holes of polygon [p]; the flag is [false] when a host call raised. *)
Fixpoint yield_hole_range (fh : polyset -> Z -> Z -> result Chain)
    (ps : polyset) (p : Z) (hs : list Z) : list Chain * bool :=
  match hs with
  | [] => ([], true)
  | h :: hs' =>
      match fh ps p h with
      | Raise _ => ([], false)
      | Ok hole =>
          let '(ys, ok) := yield_hole_range fh ps p hs' in (hole :: ys, ok)
      end
  end.

Definition yield_holes (ps : polyset) (p : Z) : list Chain * bool :=
  match HoleCount api, Hole api with
  | Some fhc, Some fh =>
      match fhc ps p with
      | Raise _ => ([], false)
      | Ok hc => yield_hole_range fh ps p (range hc)
      end
  | _, _ => ([], true)
  end.

Fixpoint yield_polygons (fo : polyset -> Z -> result Chain)
    (ps : polyset) (polys : list Z) : list Chain * bool :=
  match polys with
  | [] => ([], true)
  | p :: polys' =>
      match fo ps p with
      | Raise _ => ([], false)
      | Ok outer =>
          let '(hs, ok) := yield_holes ps p in
          if ok then
            let '(ys, ok') := yield_polygons fo ps polys' in
            (outer :: hs ++ ys, ok')
          else (outer :: hs, false)
      end
  end.

Fixpoint yield_outlines (fo : polyset -> Z -> result Chain)
    (ps : polyset) (idx : list Z) : list Chain * option exn :=
  match idx with
  | [] => ([], None)
  | i :: idx' =>
      match fo ps i with
      | Raise e => ([], Some e)
      | Ok c => let '(ys, r) := yield_outlines fo ps idx' in (c :: ys, r)
      end
  end.

(** The outlines-only fallback, and the final [raise]. *)
Definition iter_fallback (ps : polyset) : list Chain * option exn :=
  match OutlineCount api, Outline api with
  | Some foc, Some fo =>
      match foc ps with
      | Raise e => ([], Some e)
      | Ok oc => yield_outlines fo ps (range oc)
      end
  | _, _ => ([], Some api_mismatch_iter)
  end.

(** What the [try] block yields before it returns ([true]) or a host call
    raises inside it ([false]); an exception there is swallowed and the
    generator goes on with the fallback, after the loops already yielded. *)
Definition iter_primary (ps : polyset) : option (list Chain * bool) :=
  match PolygonCount api, Outline api with
  | Some fpc, Some fo =>
      match fpc ps with
      | Raise _ => Some ([], false)
      | Ok pc => Some (yield_polygons fo ps (range pc))
      end
  | _, _ => None
  end.

Definition iter_polyset_loops (ps : polyset) : list Chain * option exn :=
  match iter_primary ps with
  | Some (ys, true) => (ys, None)
  | Some (ys, false) =>
      let '(zs, r) := iter_fallback ps in (ys ++ zs, r)
  | None => iter_fallback ps
  end.

Definition chain_to_points_mm (chain : Chain) (dx_mm dy_mm : Q)
    : list (Q * Q) :=
  let pt (p : VECTOR2I) :=
    (fl (mm_from_iu (vx p) + dx_mm), fl (mm_from_iu (vy p) + dy_mm))%Q in
  match PointCount chain, CPoint chain with
  | Some n, Some cp => map (fun i => pt (cp i)) (range n)
  | _, _ =>
      match chain_iter chain with
      | Some (ps, _) => map pt ps
      | None => []
      end
  end.

Definition bounds_empty : exn :=
  RuntimeError "Bounds failed: polyset appears empty.".

(** The four updates made for one point. *)
Definition bounds_point (b : Q * Q * Q * Q) (pt : Q * Q) : Q * Q * Q * Q :=
  let '(minx, miny, maxx, maxy) := b in
  let '(x, y) := pt in
  (if Qltb x minx then x else minx,
   if Qltb y miny then y else miny,
   if Qltb maxx x then x else maxx,
   if Qltb maxy y then y else maxy).

Definition bounds_chain (b : Q * Q * Q * Q) (chain : Chain) : Q * Q * Q * Q :=
  fold_left bounds_point (chain_to_points_mm chain 0 0) b.

Definition polyset_bounds_mm (ps : polyset) : result (Q * Q * Q * Q) :=
  match iter_polyset_loops ps with
  | (_, Some e) => Raise e
  | (chains, None) =>
      let '(minx, miny, maxx, maxy) :=
        fold_left bounds_chain chains
          (inject_Z (10 ^ 18), inject_Z (10 ^ 18),
           - inject_Z (10 ^ 18), - inject_Z (10 ^ 18))%Q in
      if Qltb (inject_Z (10 ^ 17)) minx then Raise bounds_empty
      else Ok (minx, miny, maxx, maxy)
  end.

(** The path data of a loop whose first point is [p0]. *)
Definition path_d (p0 : Q * Q) (tl : list (Q * Q)) : string :=
  let d :=
    ["M " +:+ fmt4 (fst p0) +:+ "," +:+ fmt4 (snd p0)] ++
    map (fun '(x, y) => "L " +:+ fmt4 x +:+ "," +:+ fmt4 y) tl ++
    ["Z"] in
  String.concat " " d.

Fixpoint svg_paths_loop (chains : list Chain) (dx_mm dy_mm : Q)
    (paths : list string) : list string :=
  match chains with
  | [] => paths
  | chain :: chains' =>
      let pts := chain_to_points_mm chain dx_mm dy_mm in
      if (length pts <? 3)%nat then svg_paths_loop chains' dx_mm dy_mm paths
      else
        match pts with
        | [] => svg_paths_loop chains' dx_mm dy_mm paths
        | p0 :: tl =>
            svg_paths_loop chains' dx_mm dy_mm (paths ++ [path_d p0 tl])
        end
  end.

Definition polyset_to_svg_paths (ps : polyset) (dx_mm dy_mm : Q)
    : result (list string) :=
  match iter_polyset_loops ps with
  | (_, Some e) => Raise e
  | (chains, None) => Ok (svg_paths_loop chains dx_mm dy_mm [])
  end.

(** *** main *)

(** The body of the tracks loop and of the drawings loop, on the pair
    [(combined, added)].  The result tells whether the loop ran to its end
    or stopped at an exception, which only the union can raise here. *)
Fixpoint add_layer_items (lid max_error_iu : Z) (items : list (Item polyset))
    (st : polyset * Z) : (polyset * Z) * result unit :=
  match items with
  | [] => (st, Ok tt)
  | t :: items' =>
      if negb (item_on_layer t lid) then
        add_layer_items lid max_error_iu items' st
      else
        match transform_to_polyset t max_error_iu with
        | None => add_layer_items lid max_error_iu items' st
        | Some ps =>
            match poly_boolean_add (fst st) ps with
            | (combined', Ok _) =>
                add_layer_items lid max_error_iu items' (combined', snd st + 1)
            | (combined', Raise e) => ((combined', snd st), Raise e)
            end
        end
  end.

(** [try: for t in list(board.GetTracks()): ... except Exception: pass] *)
Definition main_tracks (board : Board polyset) (lid max_error_iu : Z)
    (st : polyset * Z) : polyset * Z :=
  match GetTracks board with
  | Raise _ => st
  | Ok items => fst (add_layer_items lid max_error_iu items st)
  end.

Definition main_drawings (board : Board polyset) (lid max_error_iu : Z)
    (st : polyset * Z) : polyset * Z :=
  match GetDrawings board with
  | Raise _ => st
  | Ok items => fst (add_layer_items lid max_error_iu items st)
  end.

Definition pad_on_layer (pad : Item polyset) (lid : Z) : bool :=
  match
    match IsOnLayer pad with
    | Some f => f lid
    | None => Raise (HostError "AttributeError")
    end
  with
  | Ok b => b
  | Raise _ =>
      match GetLayerSet_Contains pad lid with
      | Ok b => b
      | Raise _ => false
      end
  end.

Fixpoint add_pads (lid max_error_iu : Z) (pads : list (Item polyset))
    (st : polyset * Z) : (polyset * Z) * result unit :=
  match pads with
  | [] => (st, Ok tt)
  | pad :: pads' =>
      if negb (pad_on_layer pad lid) then add_pads lid max_error_iu pads' st
      else
        match transform_to_polyset pad max_error_iu with
        | None => add_pads lid max_error_iu pads' st
        | Some ps =>
            match poly_boolean_add (fst st) ps with
            | (combined', Ok _) =>
                add_pads lid max_error_iu pads' (combined', snd st + 1)
            | (combined', Raise e) => ((combined', snd st), Raise e)
            end
        end
  end.

(** The pads loops are not inside a [try]: an exception leaves [main]. *)
Fixpoint main_pads (lid max_error_iu : Z) (fps : list (Footprint polyset))
    (st : polyset * Z) : (polyset * Z) * result unit :=
  match fps with
  | [] => (st, Ok tt)
  | fp :: fps' =>
      match add_pads lid max_error_iu (Pads fp) st with
      | (st', Ok _) => main_pads lid max_error_iu fps' st'
      | (st', Raise e) => (st', Raise e)
      end
  end.

Fixpoint add_zones (lid max_error_iu : Z) (zones : list (Item polyset))
    (st : polyset * Z) : (polyset * Z) * result unit :=
  match zones with
  | [] => (st, Ok tt)
  | z :: zones' =>
      match GetLayer z with
      | Some (Ok l) =>
          if negb (l =? lid) then add_zones lid max_error_iu zones' st
          else
            match zone_to_polyset z max_error_iu with
            | None => add_zones lid max_error_iu zones' st
            | Some zps =>
                match poly_boolean_add (fst st) zps with
                | (combined', Ok _) =>
                    add_zones lid max_error_iu zones' (combined', snd st + 1)
                | (combined', Raise e) => ((combined', snd st), Raise e)
                end
            end
      | _ => add_zones lid max_error_iu zones' st
      end
  end.

Definition main_zones (board : Board polyset) (lid max_error_iu : Z)
    (st : polyset * Z) : polyset * Z :=
  match Zones board with
  | Raise _ => st
  | Ok zones => fst (add_zones lid max_error_iu zones st)
  end.

Definition no_board : exn :=
  RuntimeError "No board loaded. Open a .kicad_pcb in PCB Editor first.".

Definition nothing_exported (s : Settings) : exn :=
  RuntimeError ("Nothing exported on " +:+ LAYER_NAME s +:+ ". " +:+
    "Double-check LAYER_NAME and that copper exists on that layer.").

Definition no_filename : exn :=
  RuntimeError "Board has no filename. Save the PCB first.".

(** The lines of the document, for the given extent and path data. *)
Definition svg_lines (s : Settings) (width height : Q) (paths : list string)
    : list string :=
  ["<?xml version=" +:+ dq +:+ "1.0" +:+ dq +:+ " encoding=" +:+ dq +:+
     "UTF-8" +:+ dq +:+ " standalone=" +:+ dq +:+ "no" +:+ dq +:+ "?>"] ++
  ["<svg xmlns=" +:+ dq +:+ "http://www.w3.org/2000/svg" +:+ dq +:+ " " +:+
     "width=" +:+ dq +:+ fmt4 width +:+ "mm" +:+ dq +:+
     " height=" +:+ dq +:+ fmt4 height +:+ "mm" +:+ dq +:+ " " +:+
     "viewBox=" +:+ dq +:+ "0 0 " +:+ fmt4 width +:+ " " +:+ fmt4 height +:+
     dq +:+ ">"] ++
  ["<g fill=" +:+ dq +:+ FILL_COLOR s +:+ dq +:+ " stroke=" +:+ dq +:+
     "none" +:+ dq +:+ " fill-rule=" +:+ dq +:+ "evenodd" +:+ dq +:+ ">"] ++
  map (fun d => "  <path d=" +:+ dq +:+ d +:+ dq +:+ "/>") paths ++
  ["</g></svg>"].

Definition out_path_of (s : Settings) (pcb_path : string) : string :=
  splitext_root pcb_path +:+
  ("_" +:+ replace_char "." "_" (LAYER_NAME s)) +:+ OUT_SUFFIX s.

(** The three [print] calls that end a successful run. *)
Definition status_lines (s : Settings) (out_path : string) : list string :=
  ["[OK] Wrote: " +:+ out_path;
   "Layer: " +:+ LAYER_NAME s +:+ " | Zones included: " +:+
     str_bool (INCLUDE_ZONES s);
   "Import into LightBurn: geometry should be FILLED shapes (not hairlines)."].

(** Steps 1 to 4: everything that feeds [combined] and [added]. *)
Definition main_collect (s : Settings) (board : Board polyset) (lid : Z)
    : (polyset * Z) * result unit :=
  let max_error_iu := iu_from_mm (MAX_ERROR_MM s) in
  let st0 := (SHAPE_POLY_SET api, 0) in
  let st1 := main_tracks board lid max_error_iu st0 in
  let st2 := main_drawings board lid max_error_iu st1 in
  match main_pads lid max_error_iu (GetFootprints board) st2 with
  | (st3, Raise e) => (st3, Raise e)
  | (st3, Ok _) =>
      if INCLUDE_ZONES s then (main_zones board lid max_error_iu st3, Ok tt)
      else (st3, Ok tt)
  end.

(** Bounds, margin, shift and the text of the document. *)
Definition main_svg (s : Settings) (combined : polyset) : result string :=
  match polyset_bounds_mm combined with
  | Raise e => Raise e
  | Ok (minx, miny, maxx, maxy) =>
      let minx := fl (minx - MARGIN_MM s) in
      let miny := fl (miny - MARGIN_MM s) in
      let maxx := fl (maxx + MARGIN_MM s) in
      let maxy := fl (maxy + MARGIN_MM s) in
      let width := fl (maxx - minx) in
      let height := fl (maxy - miny) in
      let dx := (- minx)%Q in
      let dy := (- miny)%Q in
      match polyset_to_svg_paths combined dx dy with
      | Raise e => Raise e
      | Ok paths => Ok (String.concat newline (svg_lines s width height paths))
      end
  end.

Definition main (s : Settings) (GetBoard : option (Board polyset))
    (w : World) : result unit * World :=
  match GetBoard with
  | None => (Raise no_board, w)
  | Some board =>
      match get_layer_id board (LAYER_NAME s) with
      | Raise e => (Raise e, w)
      | Ok lid =>
          match main_collect s board lid with
          | (_, Raise e) => (Raise e, w)
          | ((combined, added), Ok _) =>
              if added =? 0 then (Raise (nothing_exported s), w)
              else
                match main_svg s combined with
                | Raise e => (Raise e, w)
                | Ok svg =>
                    let pcb_path := GetFileName board in
                    if String.eqb pcb_path "" then (Raise no_filename, w)
                    else
                      let out_path := out_path_of s pcb_path in
                      (Ok tt,
                       {| files := <[out_path := svg]> (files w);
                          console := console w ++ status_lines s out_path |})
                end
          end
      end
  end.

(** *** Vocabulary of the statements *)

(** The item cannot be asked directly: it has no [IsOnLayer], or the call
    raises. *)
Definition no_direct_answer (item : Item polyset) (lid : Z) : Prop :=
  IsOnLayer item = None ∨
  ∃ f e, IsOnLayer item = Some f ∧ f lid = Raise e.

(** The item has no usable single-layer attribute: no [GetLayer], or the
    call raises. *)
Definition no_layer_attribute (item : Item polyset) : Prop :=
  GetLayer item = None ∨ ∃ e, GetLayer item = Some (Raise e).

(** The class name contains "VIA", whatever the case of its letters. *)
Definition via_like (item : Item polyset) : Prop :=
  ∃ cls, GetClass item = Ok cls ∧ contains "VIA" (upper cls) = true.

(** No track, drawing, pad or zone of the board passes the layer filter. *)
Definition nothing_on_layer (board : Board polyset) (lid : Z) : Prop :=
  (∀ items, GetTracks board = Ok items →
     ∀ t, t ∈ items → item_on_layer t lid = false) ∧
  (∀ items, GetDrawings board = Ok items →
     ∀ d, d ∈ items → item_on_layer d lid = false) ∧
  (∀ fp pad, fp ∈ GetFootprints board → pad ∈ Pads fp →
     pad_on_layer pad lid = false) ∧
  (∀ zones, Zones board = Ok zones →
     ∀ z, z ∈ zones → GetLayer z ≠ Some (Ok lid)).

(** The points of a loop, before conversion to millimetres. *)
Definition chain_points (chain : Chain) : list VECTOR2I :=
  match PointCount chain, CPoint chain with
  | Some n, Some cp => map cp (range n)
  | _, _ =>
      match chain_iter chain with
      | Some (ps, _) => ps
      | None => []
      end
  end.

(** A loop is kept by the serialiser when it has at least three points. *)
Definition retained (pts : list (Q * Q)) : bool := (3 <=? length pts)%nat.

(** The path data of a loop as the specification words it: ["M x,y"], then
    [" L x,y"] for each further point, then [" Z"]. *)
Definition svg_path_spec (pts : list (Q * Q)) : string :=
  match pts with
  | [] => ""
  | (x0, y0) :: tl =>
      "M " +:+ fmt4 x0 +:+ "," +:+ fmt4 y0 +:+
      String.concat ""
        (map (fun '(x, y) => " L " +:+ fmt4 x +:+ "," +:+ fmt4 y) tl) +:+
      " Z"
  end.

(** One path per retained loop, in the order of the loops. *)
Definition svg_paths_spec (chains : list Chain) (dx_mm dy_mm : Q)
    : list string :=
  map svg_path_spec
    (List.filter retained
       (map (fun chain => chain_to_points_mm chain dx_mm dy_mm) chains)).

(** [hs] are the holes of polygon [p] as the host hands them out, by
    increasing hole index; none when the host has no hole accessors. *)
Definition holes_answer (ps : polyset) (p : Z) (hs : list Chain) : Prop :=
  match HoleCount api, Hole api with
  | Some fhc, Some fh =>
      ∃ hc, fhc ps p = Ok hc ∧ length hs = Z.to_nat hc ∧
        ∀ h, 0 <= h < hc → ∃ c, fh ps p h = Ok c ∧ hs !! Z.to_nat h = Some c
  | _, _ => hs = []
  end.

(** What a track or a drawing contributes to the combined set, if anything:
    it must pass the layer filter and convert. *)
Definition track_polyset (lid me : Z) (t : Item polyset) : option polyset :=
  if item_on_layer t lid then transform_to_polyset t me else None.

Definition pad_polyset (lid me : Z) (pad : Item polyset) : option polyset :=
  if pad_on_layer pad lid then transform_to_polyset pad me else None.

Definition zone_polyset (lid me : Z) (z : Item polyset) : option polyset :=
  match GetLayer z with
  | Some (Ok l) => if l =? lid then zone_to_polyset z me else None
  | _ => None
  end.

(** The items of a collection whose accessor may raise. *)
Definition items_of (r : result (list (Item polyset))) : list (Item polyset) :=
  match r with
  | Ok items => items
  | Raise _ => []
  end.

(** The polygon sets of the board's items, in the order [main] visits them:
    tracks, drawings, pads footprint by footprint, then zones if included. *)
Definition contributions (s : Settings) (board : Board polyset) (lid : Z)
    : list polyset :=
  let me := iu_from_mm (MAX_ERROR_MM s) in
  omap (track_polyset lid me) (items_of (GetTracks board)) ++
  omap (track_polyset lid me) (items_of (GetDrawings board)) ++
  omap (pad_polyset lid me) (flat_map Pads (GetFootprints board)) ++
  (if INCLUDE_ZONES s then omap (zone_polyset lid me) (items_of (Zones board))
   else []).

(** The unions of [pss] into [combined], one after the other. *)
Definition union_all (combined : polyset) (pss : list polyset) : polyset :=
  fold_left (fun c ps => fst (poly_boolean_add c ps)) pss combined.

(** The host's union never raises. *)
Definition union_never_raises : Prop :=
  ∀ dst src, snd (poly_boolean_add dst src) = Ok tt.

(** The host's union always raises, or there is none. *)
Definition union_always_raises : Prop :=
  ∀ dst src, ∃ e, snd (poly_boolean_add dst src) = Raise e.

(** Every point the bounds see, loop after loop. *)
Definition all_points (chains : list Chain) : list (Q * Q) :=
  flat_map (fun chain => chain_to_points_mm chain 0 0) chains.

(** The coordinates stay clear of the sentinels the bounds start from. *)
Definition within_sentinels (pt : Q * Q) : Prop :=
  (- inject_Z (10 ^ 18) < fst pt ∧ fst pt < inject_Z (10 ^ 18) ∧
   - inject_Z (10 ^ 18) < snd pt ∧ snd pt < inject_Z (10 ^ 18))%Q.

(** What the proofs use of float rounding: it is monotone, it leaves a
    float as it is, zero is a float, and [ToMM] answers a float.  Rounding
    to nearest has these properties as long as nothing overflows. *)
Definition float_rounding : Prop :=
  (∀ p q : Q, (p <= q)%Q → (fl p <= fl q)%Q) ∧
  (∀ q : Q, (fl (fl q) == fl q)%Q) ∧
  (fl 0 == 0)%Q ∧
  (∀ iu : Z, (fl (ToMM iu) == ToMM iu)%Q).

(** [text] is the numeral, with four decimals, of the multiple of 0.0001
    nearest to [q], the even one of the two when [q] is half-way: a minus
    sign exactly when [q] is negative, the integer part in decimal without
    leading zeros, a point, and four digits.  [n] counts the ten-thousandths
    of the absolute value. *)
Definition prints_rounded (q : Q) (text : string) : Prop :=
  ∃ (sign : string) (n : Z) (int frac : string),
    text = sign +:+ int +:+ "." +:+ frac ∧
    ((sign = "-" ∧ (q < 0)%Q) ∨ (sign = "" ∧ (0 <= q)%Q)) ∧
    0 <= n ∧
    ((Qabs (Qabs q * 10000 - inject_Z n) < 1 # 2)%Q ∨
     ((Qabs (Qabs q * 10000 - inject_Z n) == 1 # 2)%Q ∧ Z.even n = true)) ∧
    all_digits int = true ∧
    (int = "0" ∨ ∃ c rest, int = String c rest ∧ c ≠ "0"%char) ∧
    digits_value int = n / 10000 ∧
    all_digits frac = true ∧ String.length frac = 4%nat ∧
    digits_value frac = n mod 10000.

(** Both coordinates of a point are printed rounded. *)
Definition point_printed (pt : Q * Q) (text : string * string) : Prop :=
  prints_rounded (fst pt) (fst text) ∧ prints_rounded (snd pt) (snd text).

(** The path data made of the printed coordinates of a loop: ["M x,y"],
    then [" L x,y"] for each further point, then [" Z"]. *)
Definition path_of_texts (texts : list (string * string)) : string :=
  match texts with
  | [] => ""
  | (x0, y0) :: tl =>
      "M " +:+ x0 +:+ "," +:+ y0 +:+
      String.concat "" (map (fun '(x, y) => " L " +:+ x +:+ "," +:+ y) tl) +:+
      " Z"
  end.

(** An XML attribute, [name="value"]. *)
Definition attr (name value : string) : string :=
  name +:+ "=" +:+ dq +:+ value +:+ dq.

(** The document as the specification describes it: the XML declaration;
    the [svg] root with width and height in millimetres and a view box of
    the same extent; one group, filled, without stroke, with the even-odd
    rule; in it one [path] per path data; each of these on a line of its
    own. *)
Definition svg_document_spec (fill wtext htext : string)
    (paths : list string) : string :=
  "<?xml " +:+ attr "version" "1.0" +:+ " " +:+ attr "encoding" "UTF-8" +:+
    " " +:+ attr "standalone" "no" +:+ "?>" +:+ newline +:+
  "<svg " +:+ attr "xmlns" "http://www.w3.org/2000/svg" +:+ " " +:+
    attr "width" (wtext +:+ "mm") +:+ " " +:+
    attr "height" (htext +:+ "mm") +:+ " " +:+
    attr "viewBox" ("0 0 " +:+ wtext +:+ " " +:+ htext) +:+ ">" +:+ newline +:+
  "<g " +:+ attr "fill" fill +:+ " " +:+ attr "stroke" "none" +:+ " " +:+
    attr "fill-rule" "evenodd" +:+ ">" +:+ newline +:+
  String.concat ""
    (map (fun d => "  <path " +:+ attr "d" d +:+ "/>" +:+ newline) paths) +:+
  "</g></svg>".

(** ** Properties *)

(** *** Python's [range] *)

Lemma elem_of_range (n i : Z) : i ∈ range n ↔ 0 <= i < n.
Proof.
  unfold range. rewrite list_elem_of_In, in_map_iff. split.
  - intros (k & <- & Hk). apply in_seq in Hk. lia.
  - intros Hi. exists (Z.to_nat i). split; [lia|]. apply in_seq. lia.
Qed.

Lemma range_split (n i : Z) :
  0 <= i < n →
  range n = range i ++ i :: map Z.of_nat (seq (S (Z.to_nat i)) (Z.to_nat (n - i - 1))).
Proof.
  intros Hi. unfold range.
  replace (Z.to_nat n) with (Z.to_nat i + S (Z.to_nat (n - i - 1)))%nat by lia.
  rewrite seq_app, map_app. cbn [seq map Nat.add].
  rewrite Z2Nat.id by lia. reflexivity.
Qed.

Lemma find_first {A} (f : A → bool) (l1 l2 : list A) (x : A) :
  (∀ y, y ∈ l1 → f y = false) → f x = true →
  find f (l1 ++ x :: l2) = Some x.
Proof.
  intros Hl1 Hx. induction l1 as [|y l1 IH]; cbn.
  - by rewrite Hx.
  - rewrite (Hl1 y) by constructor. apply IH. intros z Hz. apply Hl1.
    by constructor.
Qed.

Lemma find_none_iff {A} (f : A → bool) (l : list A) :
  (∀ y, y ∈ l → f y = false) → find f l = None.
Proof.
  induction l as [|y l IH]; intros Hl; cbn; [done|].
  rewrite (Hl y) by constructor. apply IH. intros z Hz. apply Hl.
  by constructor.
Qed.

(** *** The layer resolver *)

(** C2, as corrected.  The layer resolver returns the answer of the direct
    lookup, whatever it is, when that lookup returns; when it raises, the
    layer slots are scanned in increasing order and the first slot whose
    name matches is returned; and when the lookup raises and no slot
    matches, the resolver raises "layer not found" and the whole run ends
    with that exception, the files and the console being left as they
    were. *)
Theorem get_layer_id_resolution (s : Settings) (board : Board polyset)
    (name : string) (w : World) :
  (∀ lid, GetLayerID board name = Ok lid → get_layer_id board name = Ok lid) ∧
  (∀ e lid, GetLayerID board name = Raise e →
     0 <= lid < PCB_LAYER_ID_COUNT →
     GetLayerName board lid = name →
     (∀ j, 0 <= j < lid → GetLayerName board j ≠ name) →
     get_layer_id board name = Ok lid) ∧
  (∀ e, GetLayerID board name = Raise e →
     (∀ lid, 0 <= lid < PCB_LAYER_ID_COUNT → GetLayerName board lid ≠ name) →
     get_layer_id board name = Raise (layer_not_found name)) ∧
  (∀ e, GetLayerID board (LAYER_NAME s) = Raise e →
     (∀ lid, 0 <= lid < PCB_LAYER_ID_COUNT →
        GetLayerName board lid ≠ LAYER_NAME s) →
     main s (Some board) w = (Raise (layer_not_found (LAYER_NAME s)), w)).
Proof.
  assert (Hnone : ∀ nm e, GetLayerID board nm = Raise e →
     (∀ lid, 0 <= lid < PCB_LAYER_ID_COUNT → GetLayerName board lid ≠ nm) →
     get_layer_id board nm = Raise (layer_not_found nm)).
  { intros nm e He Hno. unfold get_layer_id. rewrite He.
    rewrite find_none_iff; [done|]. intros lid Hlid%elem_of_range.
    apply String.eqb_neq. by apply Hno. }
  split; [|split; [|split]].
  - intros lid H. unfold get_layer_id. by rewrite H.
  - intros e lid He Hlid Hname Hfirst. unfold get_layer_id. rewrite He.
    rewrite (range_split _ lid Hlid), find_first; [done| |].
    + intros j Hj%elem_of_range. apply String.eqb_neq. by apply Hfirst.
    + by apply String.eqb_eq.
  - intros e. apply Hnone.
  - intros e He Hno. unfold main. by rewrite (Hnone _ e He Hno).
Qed.

(** *** The item-on-layer predicate *)

(** C7.  The item-on-layer predicate applies its tests in priority order:
    the item's own answer when it can be asked directly; otherwise the
    comparison of its single-layer attribute with the target layer;
    otherwise true for a via-like item; and false in every remaining case. *)
Theorem item_on_layer_priority (item : Item polyset) (lid : Z) :
  (∀ f b, IsOnLayer item = Some f → f lid = Ok b →
     item_on_layer item lid = b) ∧
  (no_direct_answer item lid →
   ∀ l, GetLayer item = Some (Ok l) →
     item_on_layer item lid = (l =? lid)) ∧
  (no_direct_answer item lid → no_layer_attribute item → via_like item →
     item_on_layer item lid = true) ∧
  (no_direct_answer item lid → no_layer_attribute item → ¬ via_like item →
     item_on_layer item lid = false).
Proof.
  unfold item_on_layer, no_direct_answer, no_layer_attribute, via_like.
  repeat split.
  - intros f b -> ->. reflexivity.
  - intros [->|(f & e & -> & ->)] l ->; reflexivity.
  - intros [->|(f & e & -> & ->)] [->|(e' & ->)] (cls & -> & ->); reflexivity.
  - intros [->|(f & e & -> & ->)] [->|(e' & ->)] Hvia;
      (destruct (GetClass item) as [cls|e''] eqn:Hc; [|reflexivity]);
      (destruct (contains "VIA" (upper cls)) eqn:Hv; [|reflexivity]);
      exfalso; apply Hvia; eauto.
Qed.

(** *** The run as a whole *)

(** Every run of [main] either writes the document built from the combined
    set, or raises and leaves the world as it was. *)
Lemma main_inv (s : Settings) (gb : option (Board polyset)) (w : World) :
  (∃ board lid combined added svg,
     gb = Some board ∧
     get_layer_id board (LAYER_NAME s) = Ok lid ∧
     main_collect s board lid = ((combined, added), Ok tt) ∧
     added ≠ 0 ∧
     main_svg s combined = Ok svg ∧
     GetFileName board ≠ "" ∧
     main s gb w =
       (Ok tt,
        {| files := <[out_path_of s (GetFileName board) := svg]> (files w);
           console := console w ++
             status_lines s (out_path_of s (GetFileName board)) |})) ∨
  (∃ e, main s gb w = (Raise e, w)).
Proof.
  unfold main. destruct gb as [board|]; [|right; eauto].
  destruct (get_layer_id board (LAYER_NAME s)) as [lid|e] eqn:Hlid;
    [|right; eauto].
  destruct (main_collect s board lid) as [[combined added] [[]|e]] eqn:Hc;
    [|right; eauto].
  destruct (added =? 0) eqn:Hadded; [right; eauto|].
  destruct (main_svg s combined) as [svg|e] eqn:Hsvg; [|right; eauto].
  destruct (String.eqb (GetFileName board) "") eqn:Hfn; [right; eauto|].
  left. exists board, lid, combined, added, svg.
  apply Z.eqb_neq in Hadded. apply String.eqb_neq in Hfn.
  repeat split; try done.
Qed.

Lemma add_layer_items_none (lid me : Z) (items : list (Item polyset))
    (st : polyset * Z) :
  (∀ t, t ∈ items → item_on_layer t lid = false) →
  add_layer_items lid me items st = (st, Ok tt).
Proof.
  induction items as [|t items IH]; intros H; cbn; [done|].
  rewrite (H t) by constructor. cbn. apply IH. intros t' Ht'. apply H.
  by constructor.
Qed.

Lemma add_pads_none (lid me : Z) (pads : list (Item polyset))
    (st : polyset * Z) :
  (∀ pad, pad ∈ pads → pad_on_layer pad lid = false) →
  add_pads lid me pads st = (st, Ok tt).
Proof.
  induction pads as [|t pads IH]; intros H; cbn; [done|].
  rewrite (H t) by constructor. cbn. apply IH. intros t' Ht'. apply H.
  by constructor.
Qed.

Lemma main_pads_none (lid me : Z) (fps : list (Footprint polyset))
    (st : polyset * Z) :
  (∀ fp pad, fp ∈ fps → pad ∈ Pads fp → pad_on_layer pad lid = false) →
  main_pads lid me fps st = (st, Ok tt).
Proof.
  induction fps as [|fp fps IH]; intros H; cbn; [done|].
  rewrite add_pads_none.
  - apply IH. intros fp' pad Hfp. apply H. by constructor.
  - intros pad. apply H. constructor.
Qed.

Lemma add_zones_none (lid me : Z) (zones : list (Item polyset))
    (st : polyset * Z) :
  (∀ z, z ∈ zones → GetLayer z ≠ Some (Ok lid)) →
  add_zones lid me zones st = (st, Ok tt).
Proof.
  induction zones as [|z zones IH]; intros H; cbn; [done|].
  assert (IH' : add_zones lid me zones st = (st, Ok tt)).
  { apply IH. intros z' Hz'. apply H. by constructor. }
  destruct (GetLayer z) as [[l|e]|] eqn:Hz; try done.
  destruct (l =? lid) eqn:Hl; cbn; [|done].
  apply Z.eqb_eq in Hl. subst l. exfalso. by apply (H z); [constructor|].
Qed.

Lemma main_collect_nothing (s : Settings) (board : Board polyset) (lid : Z) :
  nothing_on_layer board lid →
  main_collect s board lid = ((SHAPE_POLY_SET api, 0), Ok tt).
Proof.
  intros (Ht & Hd & Hp & Hz). unfold main_collect.
  assert (E1 : ∀ st, main_tracks board lid (iu_from_mm (MAX_ERROR_MM s)) st = st).
  { intros st. unfold main_tracks. destruct (GetTracks board) as [items|e];
      [|done]. rewrite add_layer_items_none; [done|]. by apply Ht. }
  assert (E2 : ∀ st, main_drawings board lid (iu_from_mm (MAX_ERROR_MM s)) st = st).
  { intros st. unfold main_drawings. destruct (GetDrawings board) as [items|e];
      [|done]. rewrite add_layer_items_none; [done|]. by apply Hd. }
  assert (E4 : ∀ st, main_zones board lid (iu_from_mm (MAX_ERROR_MM s)) st = st).
  { intros st. unfold main_zones. destruct (Zones board) as [zones|e];
      [|done]. rewrite add_zones_none; [done|]. by apply Hz. }
  rewrite E1, E2, main_pads_none by done. rewrite E4.
  by destruct (INCLUDE_ZONES s).
Qed.

(** C3.  The export is all-or-nothing: a run either writes the complete
    document and nothing else, or raises and leaves every file as it was.
    When no item contributed to the combined set the run raises "nothing
    exported"; this is the case in particular when nothing of the board is
    on the layer.  A layer that is not found, empty bounds and a board
    without a file name each end the run before a file is written. *)
Theorem export_all_or_nothing (s : Settings) (gb : option (Board polyset))
    (w : World) :
  ((∃ board lid combined added svg,
      gb = Some board ∧
      main_collect s board lid = ((combined, added), Ok tt) ∧
      main_svg s combined = Ok svg ∧
      fst (main s gb w) = Ok tt ∧
      files (snd (main s gb w)) =
        <[out_path_of s (GetFileName board) := svg]> (files w)) ∨
   (∃ e, main s gb w = (Raise e, w))) ∧
  (∀ board lid combined,
     gb = Some board → get_layer_id board (LAYER_NAME s) = Ok lid →
     main_collect s board lid = ((combined, 0), Ok tt) →
     main s gb w = (Raise (nothing_exported s), w)) ∧
  (∀ board lid,
     gb = Some board → get_layer_id board (LAYER_NAME s) = Ok lid →
     nothing_on_layer board lid →
     main s gb w = (Raise (nothing_exported s), w)) ∧
  (∀ board e,
     gb = Some board → get_layer_id board (LAYER_NAME s) = Raise e →
     main s gb w = (Raise e, w)) ∧
  (∀ board lid combined added e,
     gb = Some board → get_layer_id board (LAYER_NAME s) = Ok lid →
     main_collect s board lid = ((combined, added), Ok tt) → added ≠ 0 →
     polyset_bounds_mm combined = Raise e →
     main s gb w = (Raise e, w)) ∧
  (∀ board lid combined added svg,
     gb = Some board → get_layer_id board (LAYER_NAME s) = Ok lid →
     main_collect s board lid = ((combined, added), Ok tt) → added ≠ 0 →
     main_svg s combined = Ok svg → GetFileName board = "" →
     main s gb w = (Raise no_filename, w)).
Proof.
  assert (Hzero : ∀ board lid combined,
     gb = Some board → get_layer_id board (LAYER_NAME s) = Ok lid →
     main_collect s board lid = ((combined, 0), Ok tt) →
     main s gb w = (Raise (nothing_exported s), w)).
  { intros board lid combined -> Hlid Hc. unfold main.
    by rewrite Hlid, Hc. }
  split; [|split; [|split; [|split; [|split]]]].
  - destruct (main_inv s gb w)
      as [(board & lid & combined & added & svg & ? & ? & ? & ? & ? & ? & Hm)|?];
      [left|by right].
    exists board, lid, combined, added, svg. rewrite Hm. by repeat split.
  - exact Hzero.
  - intros board lid Hgb Hlid Hno.
    eapply Hzero; [done..|]. by apply main_collect_nothing.
  - intros board e -> Hlid. unfold main. by rewrite Hlid.
  - intros board lid combined added e -> Hlid Hc Hadded Hb. unfold main.
    rewrite Hlid, Hc. apply Z.eqb_neq in Hadded. rewrite Hadded.
    unfold main_svg. by rewrite Hb.
  - intros board lid combined added svg -> Hlid Hc Hadded Hsvg Hfn.
    unfold main. rewrite Hlid, Hc. apply Z.eqb_neq in Hadded.
    rewrite Hadded, Hsvg, Hfn. reflexivity.
Qed.

(** *** Items whose conversion fails *)

Lemma add_layer_items_skip (lid me : Z) (it : Item polyset)
    (l1 l2 : list (Item polyset)) (st : polyset * Z) :
  transform_to_polyset it me = None →
  add_layer_items lid me (l1 ++ it :: l2) st =
  add_layer_items lid me (l1 ++ l2) st.
Proof.
  intros Hit. revert st.
  induction l1 as [|t l1 IH]; intros st; cbn [app add_layer_items].
  - rewrite Hit. by destruct (item_on_layer it lid).
  - destruct (item_on_layer t lid); cbn [negb]; [|apply IH].
    destruct (transform_to_polyset t me) as [ps|]; [|apply IH].
    destruct (poly_boolean_add (fst st) ps) as [combined' [[]|e]]; [apply IH|done].
Qed.

Lemma add_pads_skip (lid me : Z) (it : Item polyset)
    (l1 l2 : list (Item polyset)) (st : polyset * Z) :
  transform_to_polyset it me = None →
  add_pads lid me (l1 ++ it :: l2) st = add_pads lid me (l1 ++ l2) st.
Proof.
  intros Hit. revert st.
  induction l1 as [|t l1 IH]; intros st; cbn [app add_pads].
  - rewrite Hit. by destruct (pad_on_layer it lid).
  - destruct (pad_on_layer t lid); cbn [negb]; [|apply IH].
    destruct (transform_to_polyset t me) as [ps|]; [|apply IH].
    destruct (poly_boolean_add (fst st) ps) as [combined' [[]|e]]; [apply IH|done].
Qed.

Lemma main_pads_skip (lid me : Z) (it : Item polyset)
    (l1 l2 : list (Item polyset)) (fps1 fps2 : list (Footprint polyset))
    (st : polyset * Z) :
  transform_to_polyset it me = None →
  main_pads lid me (fps1 ++ {| Pads := l1 ++ it :: l2 |} :: fps2) st =
  main_pads lid me (fps1 ++ {| Pads := l1 ++ l2 |} :: fps2) st.
Proof.
  intros Hit. revert st.
  induction fps1 as [|fp fps1 IH]; intros st; cbn [app main_pads Pads].
  - by rewrite add_pads_skip.
  - destruct (add_pads lid me (Pads fp) st) as [st' [[]|e]]; [apply IH|done].
Qed.

Lemma add_zones_skip (lid me : Z) (it : Item polyset)
    (l1 l2 : list (Item polyset)) (st : polyset * Z) :
  zone_to_polyset it me = None →
  add_zones lid me (l1 ++ it :: l2) st = add_zones lid me (l1 ++ l2) st.
Proof.
  intros Hit. revert st.
  induction l1 as [|z l1 IH]; intros st; cbn [app add_zones].
  - rewrite Hit. destruct (GetLayer it) as [[l|e]|]; try done.
    by destruct (l =? lid).
  - destruct (GetLayer z) as [[l|e]|]; try apply IH.
    destruct (l =? lid); cbn [negb]; [|apply IH].
    destruct (zone_to_polyset z me) as [ps|]; [|apply IH].
    destruct (poly_boolean_add (fst st) ps) as [combined' [[]|e]]; [apply IH|done].
Qed.

(** Two boards that resolve layers alike, collect alike and have the same
    file name run alike. *)
Lemma main_ext (s : Settings) (b b' : Board polyset) (w : World) :
  GetLayerID b = GetLayerID b' →
  GetLayerName b = GetLayerName b' →
  GetFileName b = GetFileName b' →
  (∀ lid, main_collect s b lid = main_collect s b' lid) →
  main s (Some b) w = main s (Some b') w.
Proof.
  intros H1 H2 H3 Hc. unfold main, get_layer_id. rewrite H1, H2, H3.
  destruct (GetLayerID b' (LAYER_NAME s)) as [lid|e].
  - by rewrite Hc.
  - destruct (find _ _) as [lid|]; [|done]. by rewrite Hc.
Qed.

(** C1, as the script has it.  An item whose geometry conversion fails, no
    call signature of the host conversion succeeding, is skipped silently:
    each of the four loops treats the collection as if the item were not in
    it, so the items before and after it are processed and added as usual,
    and the whole run ends exactly as it does on the board without the
    item. *)
Theorem conversion_failure_is_skipped (s : Settings) (board : Board polyset)
    (w : World) (lid : Z) (it : Item polyset) (l1 l2 : list (Item polyset))
    (fps1 fps2 : list (Footprint polyset)) (st : polyset * Z) :
  transform_to_polyset it (iu_from_mm (MAX_ERROR_MM s)) = None →
  add_layer_items lid (iu_from_mm (MAX_ERROR_MM s)) (l1 ++ it :: l2) st =
    add_layer_items lid (iu_from_mm (MAX_ERROR_MM s)) (l1 ++ l2) st ∧
  main_pads lid (iu_from_mm (MAX_ERROR_MM s))
      (fps1 ++ {| Pads := l1 ++ it :: l2 |} :: fps2) st =
    main_pads lid (iu_from_mm (MAX_ERROR_MM s))
      (fps1 ++ {| Pads := l1 ++ l2 |} :: fps2) st ∧
  (zone_to_polyset it (iu_from_mm (MAX_ERROR_MM s)) = None →
   add_zones lid (iu_from_mm (MAX_ERROR_MM s)) (l1 ++ it :: l2) st =
     add_zones lid (iu_from_mm (MAX_ERROR_MM s)) (l1 ++ l2) st) ∧
  main s (Some (with_tracks board (Ok (l1 ++ it :: l2)))) w =
    main s (Some (with_tracks board (Ok (l1 ++ l2)))) w ∧
  main s (Some (with_drawings board (Ok (l1 ++ it :: l2)))) w =
    main s (Some (with_drawings board (Ok (l1 ++ l2)))) w ∧
  main s (Some (with_footprints board
                  (fps1 ++ {| Pads := l1 ++ it :: l2 |} :: fps2))) w =
    main s (Some (with_footprints board
                    (fps1 ++ {| Pads := l1 ++ l2 |} :: fps2))) w ∧
  (zone_to_polyset it (iu_from_mm (MAX_ERROR_MM s)) = None →
   main s (Some (with_zones board (Ok (l1 ++ it :: l2)))) w =
     main s (Some (with_zones board (Ok (l1 ++ l2)))) w).
Proof.
  intros Hit. repeat split.
  - by apply add_layer_items_skip.
  - by apply main_pads_skip.
  - apply add_zones_skip.
  - apply main_ext; try done. intros lid'.
    unfold main_collect, main_tracks. cbn. by rewrite add_layer_items_skip.
  - apply main_ext; try done. intros lid'.
    unfold main_collect, main_drawings. cbn. by rewrite add_layer_items_skip.
  - apply main_ext; try done. intros lid'.
    unfold main_collect. cbn. by rewrite main_pads_skip.
  - intros Hz. apply main_ext; try done. intros lid'.
    unfold main_collect, main_tracks, main_drawings.
    cbn [with_zones GetFootprints GetTracks GetDrawings].
    destruct (main_pads _ _ _ _) as [st3 [[]|e]]; [|done].
    destruct (INCLUDE_ZONES s); [|done].
    unfold main_zones. cbn [with_zones Zones]. by rewrite add_zones_skip.
Qed.

(** *** The SVG path serialiser *)

Lemma append_assoc (s1 s2 s3 : string) :
  (s1 +:+ s2) +:+ s3 = s1 +:+ s2 +:+ s3.
Proof.
  induction s1 as [|c s1 IH]; [reflexivity|].
  change (String c ((s1 +:+ s2) +:+ s3) = String c (s1 +:+ s2 +:+ s3)).
  by rewrite IH.
Qed.

Lemma append_nil_r (s1 : string) : s1 +:+ "" = s1.
Proof.
  induction s1 as [|c s1 IH]; [reflexivity|].
  change (String c (s1 +:+ "") = String c s1). by rewrite IH.
Qed.

Lemma concat_cons_cons (sep x y : string) (l : list string) :
  String.concat sep (x :: y :: l) = x +:+ sep +:+ String.concat sep (y :: l).
Proof. reflexivity. Qed.

Lemma concat_empty_cons (x : string) (l : list string) :
  String.concat "" (x :: l) = x +:+ String.concat "" l.
Proof.
  destruct l as [|y l]; [cbn; by rewrite append_nil_r|].
  by rewrite concat_cons_cons.
Qed.

Lemma concat_cons_snoc (sep x y : string) (l : list string) :
  String.concat sep (x :: l ++ [y]) =
  x +:+ sep +:+ String.concat sep (l ++ [y]).
Proof. by destruct l. Qed.

Lemma concat_segments (l : list (Q * Q)) :
  " " +:+
  String.concat " "
    (map (fun '(x, y) => "L " +:+ fmt4 x +:+ "," +:+ fmt4 y) l ++ ["Z"]) =
  String.concat ""
    (map (fun '(x, y) => " L " +:+ fmt4 x +:+ "," +:+ fmt4 y) l) +:+ " Z".
Proof.
  induction l as [|[x y] l IH]; [reflexivity|].
  cbn [map app]. rewrite concat_cons_snoc, concat_empty_cons, IH.
  rewrite (append_assoc (" L " +:+ fmt4 x +:+ "," +:+ fmt4 y)).
  reflexivity.
Qed.

Lemma path_d_spec (p0 : Q * Q) (tl : list (Q * Q)) :
  path_d p0 tl = svg_path_spec (p0 :: tl).
Proof.
  destruct p0 as [x0 y0]. unfold path_d, svg_path_spec. cbn [fst snd app].
  rewrite concat_cons_snoc, concat_segments.
  by rewrite !append_assoc.
Qed.

Lemma svg_paths_loop_spec (chains : list Chain) (dx dy : Q)
    (paths : list string) :
  svg_paths_loop chains dx dy paths = paths ++ svg_paths_spec chains dx dy.
Proof.
  unfold svg_paths_spec. revert paths.
  induction chains as [|chain chains IH]; intros paths;
    cbn [svg_paths_loop map List.filter].
  - by rewrite app_nil_r.
  - unfold retained at 1.
    destruct (chain_to_points_mm chain dx dy) as [|p0 tl] eqn:Hpts.
    + cbn. apply IH.
    + destruct (Nat.ltb_spec (length (p0 :: tl)) 3) as [Hlt|Hge].
      * replace (3 <=? length (p0 :: tl))%nat with false
          by (symmetry; apply Nat.leb_gt; lia).
        apply IH.
      * replace (3 <=? length (p0 :: tl))%nat with true
          by (symmetry; apply Nat.leb_le; lia).
        cbn [map]. rewrite IH, path_d_spec, <- app_assoc. reflexivity.
Qed.

(** *** Formatted numbers *)

Lemma digit_is_digit (d : Z) : 0 <= d < 10 → is_digit (digit d) = true.
Proof.
  intros Hd.
  assert (d = 0 ∨ d = 1 ∨ d = 2 ∨ d = 3 ∨ d = 4 ∨ d = 5 ∨ d = 6 ∨ d = 7 ∨
          d = 8 ∨ d = 9) as H by lia.
  repeat (destruct H as [->|H]; [reflexivity|]). by subst.
Qed.

Lemma mod_10_digit (n : Z) : is_digit (digit (n mod 10)) = true.
Proof. apply digit_is_digit. apply Z.mod_pos_bound. lia. Qed.

Lemma dec_digits_all_digits (fuel : nat) (n : Z) (acc : string) :
  all_digits acc = true → all_digits (dec_digits fuel n acc) = true.
Proof.
  revert n acc. induction fuel as [|fuel IH]; intros n acc Hacc; cbn; [done|].
  assert (all_digits (String (digit (n mod 10)) acc) = true) as H.
  { cbn [all_digits]. by rewrite mod_10_digit. }
  destruct (n <? 10); [done|]. by apply IH.
Qed.

Lemma dec_digits_nonempty (fuel : nat) (n : Z) (acc : string) :
  acc ≠ "" → dec_digits fuel n acc ≠ "".
Proof.
  revert n acc. induction fuel as [|fuel IH]; intros n acc Hacc; cbn; [done|].
  destruct (n <? 10); [done|]. by apply IH.
Qed.

Lemma dec_shape (n : Z) : all_digits (dec n) = true ∧ dec n ≠ "".
Proof.
  unfold dec. cbn [dec_digits]. split.
  - destruct (n <? 10); [cbn [all_digits]; by rewrite mod_10_digit|].
    apply dec_digits_all_digits. cbn [all_digits]. by rewrite mod_10_digit.
  - destruct (n <? 10); [done|]. by apply dec_digits_nonempty.
Qed.

Lemma frac4_shape (m : Z) :
  all_digits (frac4 m) = true ∧ String.length (frac4 m) = 4%nat.
Proof.
  unfold frac4. cbn [all_digits String.length].
  by rewrite !mod_10_digit.
Qed.

(** A number formatted with [:.4f] is an optional minus sign, a non-empty
    run of digits, a point, and exactly four digits. *)
Lemma fmt4_shape (q : Q) :
  ∃ sign int frac,
    fmt4 q = sign +:+ int +:+ "." +:+ frac ∧
    (sign = "" ∨ sign = "-") ∧
    all_digits int = true ∧ int ≠ "" ∧
    all_digits frac = true ∧ String.length frac = 4%nat.
Proof.
  unfold fmt4.
  set (n := round_half_even (Qabs q * 10000)).
  exists (if Qltb q 0 then "-" else ""), (dec (n / 10000)), (frac4 (n mod 10000)).
  destruct (dec_shape (n / 10000)), (frac4_shape (n mod 10000)).
  repeat split; try done. destruct (Qltb q 0); auto.
Qed.

Lemma Qltb_true (x y : Q) : Qltb x y = true → (x < y)%Q.
Proof.
  unfold Qltb. destruct (Qcompare_spec x y); try done.
Qed.

Lemma Qltb_false (x y : Q) : Qltb x y = false → (y <= x)%Q.
Proof.
  unfold Qltb. destruct (Qcompare_spec x y) as [E|L|G]; try done; intros _.
  - rewrite E. apply Qle_refl.
  - by apply Qlt_le_weak.
Qed.

(** One point moves each bound outwards at most, and ends up inside. *)

Lemma Qltb_iff (x y : Q) : Qltb x y = true ↔ (x < y)%Q.
Proof.
  split; [apply Qltb_true|]. intros H. destruct (Qltb x y) eqn:E; [done|].
  apply Qltb_false in E. lra.
Qed.

(** What a formatted number denotes. *)

Lemma digit_value (d : Z) :
  0 <= d < 10 → Z.of_nat (nat_of_ascii (digit d)) - 48 = d.
Proof.
  intros Hd.
  assert (d = 0 ∨ d = 1 ∨ d = 2 ∨ d = 3 ∨ d = 4 ∨ d = 5 ∨ d = 6 ∨ d = 7 ∨
          d = 8 ∨ d = 9) as H by lia.
  repeat (destruct H as [->|H]; [reflexivity|]). by subst.
Qed.

Lemma digits_value_cons (d : Z) (s : string) :
  0 <= d < 10 →
  digits_value (String (digit d) s) =
  d * 10 ^ Z.of_nat (String.length s) + digits_value s.
Proof. intros Hd. cbn [digits_value]. by rewrite digit_value. Qed.

Lemma dec_digits_value (fuel : nat) (n : Z) (acc : string) :
  0 <= n < 10 ^ Z.of_nat fuel →
  digits_value (dec_digits fuel n acc) =
  n * 10 ^ Z.of_nat (String.length acc) + digits_value acc.
Proof.
  revert n acc. induction fuel as [|fuel IH]; intros n acc Hn.
  - cbn in *. assert (n = 0) as -> by lia. lia.
  - cbn [dec_digits].
    assert (0 <= n mod 10 < 10) as Hm by (apply Z.mod_pos_bound; lia).
    destruct (Z.ltb_spec n 10) as [Hlt|Hge].
    + rewrite digits_value_cons by done. rewrite Z.mod_small by lia. done.
    + rewrite IH.
      * rewrite digits_value_cons by done. cbn [String.length].
        rewrite Nat2Z.inj_succ, Z.pow_succ_r by lia.
        pose proof (Z.div_mod n 10 ltac:(lia)). nia.
      * rewrite Nat2Z.inj_succ, Z.pow_succ_r in Hn by lia.
        split; [apply Z.div_pos; lia|].
        apply Z.div_lt_upper_bound; lia.
Qed.

Lemma dec_value (n : Z) : 0 <= n → digits_value (dec n) = n.
Proof.
  intros Hn. unfold dec. rewrite dec_digits_value; [cbn; lia|].
  split; [done|]. rewrite Nat2Z.inj_succ, Z2Nat.id by apply Z.log2_nonneg.
  destruct (Z.eq_dec n 0) as [->|Hne]; [done|].
  pose proof (Z.log2_spec n ltac:(lia)) as [_ Hlt].
  eapply Z.lt_le_trans; [exact Hlt|].
  apply Z.pow_le_mono_l. lia.
Qed.

Lemma frac4_value (m : Z) : 0 <= m < 10000 → digits_value (frac4 m) = m.
Proof.
  intros Hm. unfold frac4.
  assert (∀ k, 0 <= k mod 10 < 10) as Hd
    by (intros k; apply Z.mod_pos_bound; lia).
  rewrite !digits_value_cons by apply Hd. cbn [String.length digits_value].
  change (10 ^ Z.of_nat 3) with 1000. change (10 ^ Z.of_nat 2) with 100.
  change (10 ^ Z.of_nat 1) with 10. change (10 ^ Z.of_nat 0) with 1.
  assert (m / 10 / 10 = m / 100) as H1 by (by rewrite Z.div_div by lia).
  assert (m / 100 / 10 = m / 1000) as H2 by (by rewrite Z.div_div by lia).
  assert (m / 1000 / 10 = 0) as H3.
  { rewrite Z.div_div by lia. apply Z.div_small. lia. }
  pose proof (Z.div_mod m 10 ltac:(lia)) as E0.
  pose proof (Z.div_mod (m / 10) 10 ltac:(lia)) as E1.
  pose proof (Z.div_mod (m / 100) 10 ltac:(lia)) as E2.
  pose proof (Z.div_mod (m / 1000) 10 ltac:(lia)) as E3.
  rewrite H1 in E1. rewrite H2 in E2. rewrite H3 in E3. lia.
Qed.

Lemma round_half_even_near (q : Q) :
  (Qabs (q - inject_Z (round_half_even q)) <= 1 # 2)%Q.
Proof.
  unfold round_half_even.
  pose proof (Qfloor_le q) as Hlo. pose proof (Qlt_floor q) as Hhi.
  rewrite inject_Z_plus in Hhi. change (inject_Z 1) with 1%Q in Hhi.
  assert (Hup : inject_Z (Qfloor q + 1) = (inject_Z (Qfloor q) + 1)%Q)
    by apply inject_Z_plus.
  apply Qabs_Qle_condition.
  destruct (Qcompare_spec (q - inject_Z (Qfloor q)) (1 # 2)) as [E|L|G].
  - destruct (Z.even (Qfloor q)); [|rewrite Hup]; split; lra.
  - split; lra.
  - rewrite Hup. split; lra.
Qed.

Lemma round_half_even_nonneg (q : Q) : (0 <= q)%Q → 0 <= round_half_even q.
Proof.
  intros Hq. unfold round_half_even.
  assert (0 <= Qfloor q) as Hf.
  { change 0 with (Qfloor 0). by apply Qfloor_resp_le. }
  destruct (_ ?= _)%Q; [destruct (Z.even _)|..]; lia.
Qed.

Lemma round_half_even_ties (q : Q) :
  (Qabs (q - inject_Z (round_half_even q)) < 1 # 2)%Q ∨
  ((Qabs (q - inject_Z (round_half_even q)) == 1 # 2)%Q ∧
   Z.even (round_half_even q) = true).
Proof.
  unfold round_half_even.
  pose proof (Qfloor_le q) as Hlo. pose proof (Qlt_floor q) as Hhi.
  rewrite inject_Z_plus in Hhi. change (inject_Z 1) with 1%Q in Hhi.
  assert (Hup : inject_Z (Qfloor q + 1) = (inject_Z (Qfloor q) + 1)%Q)
    by apply inject_Z_plus.
  destruct (Qcompare_spec (q - inject_Z (Qfloor q)) (1 # 2)) as [E|L|G].
  - right. destruct (Z.even (Qfloor q)) eqn:Hev.
    + split; [|done]. rewrite Qabs_pos by lra. lra.
    + split.
      * rewrite Hup, Qabs_neg by lra. lra.
      * rewrite Z.even_add, Hev. reflexivity.
  - left. rewrite Qabs_pos by lra. lra.
  - left. rewrite Hup, Qabs_neg by lra. lra.
Qed.

Lemma dec_digits_head (fuel : nat) (n : Z) (acc : string) :
  0 < n < 10 ^ Z.of_nat fuel →
  ∃ c rest, dec_digits fuel n acc = String c rest ∧ c ≠ "0"%char.
Proof.
  revert n acc. induction fuel as [|fuel IH]; intros n acc Hn.
  - cbn in Hn. lia.
  - cbn [dec_digits]. destruct (Z.ltb_spec n 10) as [Hlt|Hge].
    + exists (digit (n mod 10)), acc. split; [done|].
      rewrite Z.mod_small by lia. intros E.
      assert (Z.of_nat (nat_of_ascii (digit n)) - 48 = n) as Hv
        by (apply digit_value; lia).
      rewrite E in Hv. change (0 = n) in Hv. lia.
    + apply IH. rewrite Nat2Z.inj_succ, Z.pow_succ_r in Hn by lia.
      split; [apply Z.div_str_pos; lia|].
      apply Z.div_lt_upper_bound; lia.
Qed.

(** The numeral of a natural number has no leading zero. *)
Lemma dec_canonical (n : Z) :
  0 <= n → dec n = "0" ∨ ∃ c rest, dec n = String c rest ∧ c ≠ "0"%char.
Proof.
  intros Hn. destruct (Z.eq_dec n 0) as [->|Hne]; [by left|]. right.
  unfold dec. apply dec_digits_head. split; [lia|].
  rewrite Nat2Z.inj_succ, Z2Nat.id by apply Z.log2_nonneg.
  pose proof (Z.log2_spec n ltac:(lia)) as [_ Hlt].
  eapply Z.lt_le_trans; [exact Hlt|].
  apply Z.pow_le_mono_l. lia.
Qed.

(** What [:.4f] prints is the value rounded to four decimals. *)
Lemma fmt4_prints_rounded (q : Q) : prints_rounded q (fmt4 q).
Proof.
  unfold fmt4. set (n := round_half_even (Qabs q * 10000)).
  assert (0 <= n) as Hn.
  { apply round_half_even_nonneg. pose proof (Qabs_nonneg q). nra. }
  assert (0 <= n / 10000) as Hi by (apply Z.div_pos; lia).
  assert (0 <= n mod 10000 < 10000) as Hf by (apply Z.mod_pos_bound; lia).
  exists (if Qltb q 0 then "-" else ""), n, (dec (n / 10000)),
    (frac4 (n mod 10000)).
  destruct (dec_shape (n / 10000)), (frac4_shape (n mod 10000)).
  split; [done|]. split.
  { destruct (Qltb q 0) eqn:Hs.
    - left. split; [done|]. by apply Qltb_true.
    - right. split; [done|]. by apply Qltb_false. }
  split; [done|]. split; [apply round_half_even_ties|].
  split; [done|]. split; [by apply dec_canonical|].
  split; [by apply dec_value|]. split; [done|]. split; [done|].
  by apply frac4_value.
Qed.

(** A non-negative number is printed without a sign, so its text starts
    with a digit. *)
Lemma prints_rounded_nonneg (q : Q) (text : string) :
  (0 <= q)%Q → prints_rounded q text →
  ∃ c rest, text = String c rest ∧ is_digit c = true.
Proof.
  intros Hq (sign & n & int & frac & -> & Hs & _ & _ & Hd & Hc & _).
  destruct Hs as [[_ Hneg]|[-> _]]; [lra|].
  destruct Hc as [->|(c & rest & -> & _)].
  - by exists "0"%char, ("." +:+ frac).
  - exists c, (rest +:+ "." +:+ frac). split; [done|].
    cbn [all_digits] in Hd. by apply andb_true_iff in Hd as [? _].
Qed.

(** The path of a loop is made of the printed coordinates of its points. *)
Lemma svg_path_spec_fmt4 (pts : list (Q * Q)) :
  svg_path_spec pts =
  path_of_texts (map (fun pt => (fmt4 (fst pt), fmt4 (snd pt))) pts).
Proof.
  destruct pts as [|[x0 y0] tl]; [done|].
  unfold svg_path_spec, path_of_texts. cbn [map fst snd].
  rewrite map_map.
  rewrite (List.map_ext
             (fun pt : Q * Q =>
                let '(x, y) := (fmt4 (fst pt), fmt4 (snd pt)) in
                " L " +:+ x +:+ "," +:+ y)
             (fun '(x, y) => " L " +:+ fmt4 x +:+ "," +:+ fmt4 y));
    [done|].
  by intros [x y].
Qed.

Lemma svg_path_spec_texts (pts : list (Q * Q)) :
  ∃ texts,
    Forall2 point_printed pts texts ∧ svg_path_spec pts = path_of_texts texts.
Proof.
  exists (map (fun pt => (fmt4 (fst pt), fmt4 (snd pt))) pts).
  split; [|apply svg_path_spec_fmt4].
  induction pts as [|[x y] pts IH]; constructor; [|done].
  split; apply fmt4_prints_rounded.
Qed.

(** C6.  The serialiser emits exactly one path per loop that has at least
    three points, in the order of the loops, and none for a loop with fewer.
    The path of a retained loop is "M x,y" for its first point, " L x,y" for
    each further point and a closing " Z", where each x and each y is the
    coordinate printed rounded to four decimals: the multiple of 0.0001
    nearest to it, with its sign, its integer part, a point and exactly four
    digits. *)
Theorem svg_paths_one_per_retained_loop (ps : polyset) (dx dy : Q)
    (chains : list Chain) :
  iter_polyset_loops ps = (chains, None) →
  polyset_to_svg_paths ps dx dy = Ok (svg_paths_spec chains dx dy) ∧
  length (svg_paths_spec chains dx dy) =
    length (List.filter
              (fun chain => retained (chain_to_points_mm chain dx dy))
              chains) ∧
  (∀ chain, chain ∈ chains →
     retained (chain_to_points_mm chain dx dy) = true →
     svg_path_spec (chain_to_points_mm chain dx dy) ∈
       svg_paths_spec chains dx dy) ∧
  (∀ d, d ∈ svg_paths_spec chains dx dy →
     ∃ chain, chain ∈ chains ∧
       (3 <= length (chain_to_points_mm chain dx dy))%nat ∧
       d = svg_path_spec (chain_to_points_mm chain dx dy)) ∧
  (∃ paths,
     polyset_to_svg_paths ps dx dy = Ok paths ∧
     Forall2
       (fun pts d =>
          (3 <= length pts)%nat ∧
          ∃ texts, Forall2 point_printed pts texts ∧ d = path_of_texts texts)
       (List.filter (fun pts => (3 <=? length pts)%nat)
          (map (fun chain => chain_to_points_mm chain dx dy) chains))
       paths).
Proof.
  intros Hloops.
  assert (Hcode :
    polyset_to_svg_paths ps dx dy = Ok (svg_paths_spec chains dx dy)).
  { unfold polyset_to_svg_paths. rewrite Hloops.
    by rewrite svg_paths_loop_spec. }
  split; [done|]. split; [|split; [|split]].
  - unfold svg_paths_spec. rewrite length_map. clear Hloops Hcode.
    induction chains as [|c cs IH]; cbn [map List.filter]; [done|].
    destruct (retained (chain_to_points_mm c dx dy)); cbn [length];
      by rewrite IH.
  - intros chain Hin Hret. unfold svg_paths_spec.
    apply list_elem_of_In, in_map, filter_In. split; [|done].
    apply in_map_iff. exists chain. split; [done|]. by apply list_elem_of_In.
  - intros d Hd. unfold svg_paths_spec in Hd.
    apply list_elem_of_In, in_map_iff in Hd as (pts & <- & Hpts).
    apply filter_In in Hpts as [Hpts Hret].
    apply in_map_iff in Hpts as (chain & <- & Hchain).
    exists chain. split; [by apply list_elem_of_In|]. split; [|done].
    by apply Nat.leb_le.
  - exists (svg_paths_spec chains dx dy). split; [done|].
    unfold svg_paths_spec.
    change retained with (fun pts : list (Q * Q) => (3 <=? length pts)%nat).
    generalize (map (fun chain => chain_to_points_mm chain dx dy) chains).
    intros l. induction l as [|pts l IH]; cbn [List.filter map]; [constructor|].
    destruct (Nat.leb_spec 3 (length pts)) as [Hge|Hlt]; [|done].
    cbn [map]. constructor; [|done]. split; [done|].
    apply svg_path_spec_texts.
Qed.

(** *** The order of the loops *)

Lemma yield_hole_range_list (fh : polyset → Z → Z → result Chain)
    (ps : polyset) (p : Z) (hs : list Chain) (k : nat) :
  (∀ i c, hs !! i = Some c → fh ps p (Z.of_nat (k + i)) = Ok c) →
  yield_hole_range fh ps p (map Z.of_nat (seq k (length hs))) = (hs, true).
Proof.
  revert k. induction hs as [|c hs IH]; intros k H; [reflexivity|].
  cbn [length seq map yield_hole_range].
  rewrite <- (Nat.add_0_r k) at 1. rewrite (H 0%nat c) by reflexivity.
  rewrite (IH (S k)); [reflexivity|].
  intros i c' Hi. rewrite <- (H (S i) c' Hi). f_equal. lia.
Qed.

Lemma yield_holes_answer (ps : polyset) (p : Z) (hs : list Chain) :
  holes_answer ps p hs → yield_holes ps p = (hs, true).
Proof.
  unfold holes_answer, yield_holes.
  destruct (HoleCount api) as [fhc|]; [|by intros ->].
  destruct (Hole api) as [fh|]; [|by intros ->].
  intros (hc & -> & Hlen & Hh). unfold range. rewrite <- Hlen.
  apply yield_hole_range_list. intros i c Hi.
  assert (i < length hs)%nat as Hlt by (by eapply lookup_lt_Some).
  destruct (Hh (Z.of_nat i)) as (c' & Hc' & Hi'); [lia|].
  rewrite Nat2Z.id, Hi in Hi'. by injection Hi' as ->.
Qed.

Lemma yield_polygons_complete (fo : polyset → Z → result Chain)
    (ps : polyset) (outer : Z → Chain) (holes : Z → list Chain)
    (polys : list Z) :
  (∀ p, p ∈ polys → fo ps p = Ok (outer p) ∧ holes_answer ps p (holes p)) →
  yield_polygons fo ps polys =
    (flat_map (fun p => outer p :: holes p) polys, true).
Proof.
  induction polys as [|p polys IH]; intros H; [reflexivity|].
  cbn [yield_polygons flat_map].
  destruct (H p) as [-> Hholes]; [constructor|].
  rewrite (yield_holes_answer _ _ _ Hholes), IH; [reflexivity|].
  intros q Hq. apply H. by constructor.
Qed.

Lemma svg_paths_spec_app (l1 l2 : list Chain) (dx dy : Q) :
  svg_paths_spec (l1 ++ l2) dx dy =
  svg_paths_spec l1 dx dy ++ svg_paths_spec l2 dx dy.
Proof. unfold svg_paths_spec. by rewrite map_app, List.filter_app, map_app. Qed.



(** *** Objects that are no loops *)

(** C10.  Converting a loop to points returns a list for every object.  An
    object with neither indexed point access nor iteration gives the empty
    list; the serialiser then emits no path for it and the bounds ignore it,
    so a polygon set that yields it exports like one that does not. *)
Theorem chain_without_points_is_dropped (chain : Chain) (dx dy : Q) :
  (PointCount chain = None ∨ CPoint chain = None) →
  chain_iter chain = None →
  chain_to_points_mm chain dx dy = [] ∧
  (∀ l1 l2 paths,
     svg_paths_loop (l1 ++ chain :: l2) dx dy paths =
     svg_paths_loop (l1 ++ l2) dx dy paths) ∧
  (∀ l1 l2 b,
     fold_left bounds_chain (l1 ++ chain :: l2) b =
     fold_left bounds_chain (l1 ++ l2) b) ∧
  (∀ ps ps' l1 l2,
     iter_polyset_loops ps = (l1 ++ chain :: l2, None) →
     iter_polyset_loops ps' = (l1 ++ l2, None) →
     polyset_to_svg_paths ps dx dy = polyset_to_svg_paths ps' dx dy ∧
     polyset_bounds_mm ps = polyset_bounds_mm ps').
Proof.
  intros Hidx Hiter.
  assert (Hempty : ∀ dx' dy', chain_to_points_mm chain dx' dy' = []).
  { intros dx' dy'. unfold chain_to_points_mm. rewrite Hiter.
    destruct Hidx as [-> | ->]; [done|]. by destruct (PointCount chain). }
  assert (Hpaths : ∀ l1 l2 paths,
     svg_paths_loop (l1 ++ chain :: l2) dx dy paths =
     svg_paths_loop (l1 ++ l2) dx dy paths).
  { intros l1 l2 paths. rewrite !svg_paths_loop_spec, !svg_paths_spec_app.
    unfold svg_paths_spec at 2. cbn [map List.filter]. by rewrite Hempty. }
  assert (Hbounds : ∀ l1 l2 b,
     fold_left bounds_chain (l1 ++ chain :: l2) b =
     fold_left bounds_chain (l1 ++ l2) b).
  { intros l1 l2 b. rewrite !fold_left_app. cbn [fold_left].
    unfold bounds_chain at 2. by rewrite Hempty. }
  split; [apply Hempty|]. split; [exact Hpaths|]. split; [exact Hbounds|].
  intros ps ps' l1 l2 Hps Hps'. split.
  - unfold polyset_to_svg_paths. by rewrite Hps, Hps', Hpaths.
  - unfold polyset_bounds_mm. by rewrite Hps, Hps', Hbounds.
Qed.

(** *** Bounds, margin and shift *)

Lemma bounds_point_spec (a b c d x y a' b' c' d' : Q) :
  bounds_point (a, b, c, d) (x, y) = (a', b', c', d') →
  (a' <= a ∧ b' <= b ∧ c <= c' ∧ d <= d')%Q ∧
  (a' <= x <= c' ∧ b' <= y <= d')%Q.
Proof.
  unfold bounds_point. intros [= <- <- <- <-].
  destruct (Qltb x a) eqn:Ha, (Qltb y b) eqn:Hb,
           (Qltb c x) eqn:Hc, (Qltb d y) eqn:Hd;
    repeat match goal with
           | H : Qltb _ _ = true |- _ => apply Qltb_true in H
           | H : Qltb _ _ = false |- _ => apply Qltb_false in H
           end;
    repeat split; lra.
Qed.

Lemma bounds_points_spec (pts : list (Q * Q)) (a b c d a' b' c' d' : Q) :
  fold_left bounds_point pts (a, b, c, d) = (a', b', c', d') →
  (a' <= a ∧ b' <= b ∧ c <= c' ∧ d <= d')%Q ∧
  (∀ x y, (x, y) ∈ pts → (a' <= x <= c' ∧ b' <= y <= d')%Q).
Proof.
  revert a b c d. induction pts as [|[x y] pts IH]; intros a b c d.
  - cbn. intros [= <- <- <- <-]. split; [repeat split; lra|].
    intros x y Hin. by apply elem_of_nil in Hin.
  - cbn [fold_left].
    destruct (bounds_point (a, b, c, d) (x, y)) as [[[a1 b1] c1] d1] eqn:E.
    apply bounds_point_spec in E as [Hg Hi]. intros Hf.
    apply IH in Hf as [Hg' Hi']. split; [repeat split; lra|].
    intros x' y' [[= -> ->]|Hin]%elem_of_cons.
    + repeat split; lra.
    + by apply Hi'.
Qed.

Lemma bounds_chains_spec (chains : list Chain) (a b c d a' b' c' d' : Q) :
  fold_left bounds_chain chains (a, b, c, d) = (a', b', c', d') →
  (a' <= a ∧ b' <= b ∧ c <= c' ∧ d <= d')%Q ∧
  (∀ chain x y, chain ∈ chains → (x, y) ∈ chain_to_points_mm chain 0 0 →
     (a' <= x <= c' ∧ b' <= y <= d')%Q).
Proof.
  revert a b c d. induction chains as [|ch chains IH]; intros a b c d.
  - cbn. intros [= <- <- <- <-]. split; [repeat split; lra|].
    intros chain x y Hin. by apply elem_of_nil in Hin.
  - cbn [fold_left].
    destruct (bounds_chain (a, b, c, d) ch) as [[[a1 b1] c1] d1] eqn:E.
    unfold bounds_chain in E. apply bounds_points_spec in E as [Hg Hi].
    intros Hf. apply IH in Hf as [Hg' Hi']. split; [repeat split; lra|].
    intros chain x y [->|Hin]%elem_of_cons Hpt.
    + specialize (Hi x y Hpt). repeat split; lra.
    + by eapply Hi'.
Qed.

(** The bounds returned for a polygon set contain every point of every
    loop it yields. *)
Lemma polyset_bounds_contain (ps : polyset) (minx miny maxx maxy : Q) :
  polyset_bounds_mm ps = Ok (minx, miny, maxx, maxy) →
  ∀ chain x y,
    chain ∈ fst (iter_polyset_loops ps) →
    (x, y) ∈ chain_to_points_mm chain 0 0 →
    (minx <= x <= maxx ∧ miny <= y <= maxy)%Q.
Proof.
  unfold polyset_bounds_mm.
  destruct (iter_polyset_loops ps) as [chains [e|]]; [done|].
  destruct (fold_left bounds_chain chains _) as [[[a b] c] d] eqn:E.
  destruct (Qltb _ a); [done|]. intros [= <- <- <- <-].
  apply bounds_chains_spec in E as [_ Hi]. exact Hi.
Qed.

Lemma chain_to_points_mm_map (chain : Chain) (dx dy : Q) :
  chain_to_points_mm chain dx dy =
  map (fun p => (fl (mm_from_iu (vx p) + dx), fl (mm_from_iu (vy p) + dy))%Q)
      (chain_points chain).
Proof.
  unfold chain_to_points_mm, chain_points.
  destruct (PointCount chain) as [n|], (CPoint chain) as [cp|];
    try (destruct (chain_iter chain) as [[pts raised]|]; reflexivity).
  by rewrite map_map.
Qed.

(** Rounding does not tell apart two fractions of the same value. *)
Lemma fl_proper (p q : Q) : float_rounding → (p == q)%Q → (fl p == fl q)%Q.
Proof.
  intros (Hmono & _) E. apply Qle_antisym; apply Hmono; lra.
Qed.

(** Adding [0.0] to a coordinate changes nothing. *)
Lemma fl_of_float (iu : Z) :
  float_rounding → (fl (mm_from_iu iu + 0) == mm_from_iu iu)%Q.
Proof.
  intros Hfl. unfold mm_from_iu.
  rewrite (fl_proper (ToMM iu + 0) (ToMM iu) Hfl) by lra.
  apply Hfl.
Qed.

(** A float inside the box is inside the box widened by the margin, as the
    script computes it. *)
Lemma margin_box (m a c x : Q) :
  float_rounding → (0 <= m)%Q → (a <= fl x <= c)%Q →
  (fl (a - m) <= fl x <= fl (c + m))%Q.
Proof.
  intros (Hmono & Hidem & _) Hm [Ha Hc].
  rewrite <- (Hidem x). split; apply Hmono; lra.
Qed.

(** The lines of the document, joined, are the document of the
    specification. *)
Lemma concat_path_lines (paths : list string) (z : string) :
  String.concat newline
    (map (fun d => "  <path d=" +:+ dq +:+ d +:+ dq +:+ "/>") paths ++ [z]) =
  String.concat ""
    (map (fun d => "  <path " +:+ attr "d" d +:+ "/>" +:+ newline) paths) +:+
  z.
Proof.
  induction paths as [|d paths IH]; [reflexivity|].
  cbn [map app]. rewrite concat_cons_snoc, concat_empty_cons, IH.
  unfold attr. rewrite !append_assoc. reflexivity.
Qed.

Lemma svg_document_lines (s : Settings) (width height : Q)
    (paths : list string) :
  String.concat newline (svg_lines s width height paths) =
  svg_document_spec (FILL_COLOR s) (fmt4 width) (fmt4 height) paths.
Proof.
  unfold svg_lines, svg_document_spec. cbn [app].
  rewrite !concat_cons_cons, concat_cons_snoc, concat_path_lines.
  unfold attr. rewrite !append_assoc. reflexivity.
Qed.

(** What a successful [main_svg] was built from. *)
Lemma main_svg_inv (s : Settings) (combined : polyset) (svg : string) :
  main_svg s combined = Ok svg →
  ∃ minx0 miny0 maxx0 maxy0 chains,
    polyset_bounds_mm combined = Ok (minx0, miny0, maxx0, maxy0) ∧
    iter_polyset_loops combined = (chains, None) ∧
    svg = svg_document_spec (FILL_COLOR s)
            (fmt4 (fl (fl (maxx0 + MARGIN_MM s) - fl (minx0 - MARGIN_MM s))))
            (fmt4 (fl (fl (maxy0 + MARGIN_MM s) - fl (miny0 - MARGIN_MM s))))
            (svg_paths_spec chains
               (- fl (minx0 - MARGIN_MM s)) (- fl (miny0 - MARGIN_MM s))).
Proof.
  unfold main_svg.
  destruct (polyset_bounds_mm combined) as [[[[a b] c] d]|e] eqn:Hb; [|done].
  unfold polyset_to_svg_paths.
  destruct (iter_polyset_loops combined) as [chains [e|]] eqn:Hiter; [done|].
  rewrite svg_paths_loop_spec, svg_document_lines.
  intros [= <-]. by exists a, b, c, d, chains.
Qed.

(** A run that succeeds wrote the document of the combined set. *)
Lemma main_document (s : Settings) (gb : option (Board polyset))
    (w w' : World) :
  main s gb w = (Ok tt, w') →
  ∃ board lid combined added minx0 miny0 maxx0 maxy0 chains,
    gb = Some board ∧
    main_collect s board lid = ((combined, added), Ok tt) ∧
    polyset_bounds_mm combined = Ok (minx0, miny0, maxx0, maxy0) ∧
    iter_polyset_loops combined = (chains, None) ∧
    files w' =
      <[out_path_of s (GetFileName board) :=
          svg_document_spec (FILL_COLOR s)
            (fmt4 (fl (fl (maxx0 + MARGIN_MM s) - fl (minx0 - MARGIN_MM s))))
            (fmt4 (fl (fl (maxy0 + MARGIN_MM s) - fl (miny0 - MARGIN_MM s))))
            (svg_paths_spec chains
               (- fl (minx0 - MARGIN_MM s)) (- fl (miny0 - MARGIN_MM s)))]>
        (files w).
Proof.
  intros Hrun.
  destruct (main_inv s gb w)
    as [(board & lid & combined & added & svg & -> & Hlid & Hc & Hadded &
         Hsvg & Hfn & Hmain)|[e Hmain]];
    [|by rewrite Hmain in Hrun].
  rewrite Hmain in Hrun. injection Hrun as <-.
  apply main_svg_inv in Hsvg as (a & b & c & d & chains & Hb & Hiter & ->).
  by exists board, lid, combined, added, a, b, c, d, chains.
Qed.

(** The points of the loops lie inside the box of the bounds. *)
Lemma points_in_bounds (ps : polyset) (chains : list Chain)
    (minx miny maxx maxy : Q) :
  polyset_bounds_mm ps = Ok (minx, miny, maxx, maxy) →
  iter_polyset_loops ps = (chains, None) →
  ∀ chain p, chain ∈ chains → p ∈ chain_points chain →
    (minx <= fl (mm_from_iu (vx p) + 0) <= maxx ∧
     miny <= fl (mm_from_iu (vy p) + 0) <= maxy)%Q.
Proof.
  intros Hb Hiter chain p Hch Hp.
  apply (polyset_bounds_contain _ _ _ _ _ Hb chain).
  - by rewrite Hiter.
  - rewrite chain_to_points_mm_map. apply list_elem_of_In, in_map_iff.
    exists p. split; [done|]. by apply list_elem_of_In.
Qed.

(** C4, as corrected.  In every export that succeeds, with a margin that is
    not negative, the bounding box after margin expansion contains every
    point of every loop of the combined set.  The width and the height
    written into the document are [maxx - minx] and [maxy - miny] of that
    box, each a float difference, printed rounded to four decimals: they
    equal the differences only up to that rounding. *)
Theorem bounding_box_contains_points (s : Settings)
    (gb : option (Board polyset)) (w w' : World) :
  float_rounding →
  (0 <= MARGIN_MM s)%Q →
  main s gb w = (Ok tt, w') →
  ∃ board lid combined added minx0 miny0 maxx0 maxy0 chains
    minx miny maxx maxy wtext htext paths,
    gb = Some board ∧
    main_collect s board lid = ((combined, added), Ok tt) ∧
    polyset_bounds_mm combined = Ok (minx0, miny0, maxx0, maxy0) ∧
    iter_polyset_loops combined = (chains, None) ∧
    minx = fl (minx0 - MARGIN_MM s) ∧ miny = fl (miny0 - MARGIN_MM s) ∧
    maxx = fl (maxx0 + MARGIN_MM s) ∧ maxy = fl (maxy0 + MARGIN_MM s) ∧
    (∀ chain x y,
       chain ∈ chains →
       (x, y) ∈ chain_to_points_mm chain 0 0 →
       (minx <= x <= maxx ∧ miny <= y <= maxy)%Q) ∧
    prints_rounded (fl (maxx - minx)) wtext ∧
    prints_rounded (fl (maxy - miny)) htext ∧
    polyset_to_svg_paths combined (- minx) (- miny) = Ok paths ∧
    files w' =
      <[out_path_of s (GetFileName board) :=
          svg_document_spec (FILL_COLOR s) wtext htext paths]> (files w).
Proof.
  intros Hfl Hm Hrun.
  destruct (main_document s gb w w' Hrun)
    as (board & lid & combined & added & a & b & c & d & chains & -> & Hc &
        Hb & Hiter & Hfiles).
  exists board, lid, combined, added, a, b, c, d, chains,
    (fl (a - MARGIN_MM s)), (fl (b - MARGIN_MM s)),
    (fl (c + MARGIN_MM s)), (fl (d + MARGIN_MM s)).
  eexists _, _, _. do 8 (split; [done|]).
  split; [|split; [apply fmt4_prints_rounded|
           split; [apply fmt4_prints_rounded|split; [|exact Hfiles]]]].
  - intros chain x y Hch Hpt. rewrite chain_to_points_mm_map in Hpt.
    apply list_elem_of_In, in_map_iff in Hpt as (p & [= <- <-] & Hp).
    apply list_elem_of_In in Hp.
    destruct (points_in_bounds _ _ _ _ _ _ Hb Hiter chain p Hch Hp)
      as [Hx Hy].
    split; by apply margin_box.
  - unfold polyset_to_svg_paths. rewrite Hiter.
    by rewrite svg_paths_loop_spec.
Qed.

(** C5.  In every export that succeeds, with a margin that is not negative,
    the paths written into the document are those of the loops of the
    combined set shifted by [(dx, dy)], the opposite of the lower corner of
    the expanded box; and this shift makes every coordinate non-negative:
    for every point [(x, y)] of the combined set, [x + dx >= 0] and
    [y + dy >= 0], and so is every coordinate of the shifted loops, which
    are the ones the document holds. *)
Theorem shifted_coordinates_nonnegative (s : Settings)
    (gb : option (Board polyset)) (w w' : World) :
  float_rounding →
  (0 <= MARGIN_MM s)%Q →
  main s gb w = (Ok tt, w') →
  ∃ board lid combined added minx0 miny0 maxx0 maxy0 chains dx dy
    wtext htext,
    gb = Some board ∧
    main_collect s board lid = ((combined, added), Ok tt) ∧
    polyset_bounds_mm combined = Ok (minx0, miny0, maxx0, maxy0) ∧
    iter_polyset_loops combined = (chains, None) ∧
    dx = (- fl (minx0 - MARGIN_MM s))%Q ∧
    dy = (- fl (miny0 - MARGIN_MM s))%Q ∧
    polyset_to_svg_paths combined dx dy = Ok (svg_paths_spec chains dx dy) ∧
    files w' =
      <[out_path_of s (GetFileName board) :=
          svg_document_spec (FILL_COLOR s) wtext htext
            (svg_paths_spec chains dx dy)]> (files w) ∧
    (∀ chain x y,
       chain ∈ chains →
       (x, y) ∈ chain_to_points_mm chain 0 0 →
       (0 <= x + dx ∧ 0 <= y + dy)%Q) ∧
    (∀ chain x y,
       chain ∈ chains →
       (x, y) ∈ chain_to_points_mm chain dx dy →
       (0 <= x ∧ 0 <= y)%Q) ∧
    Forall2
      (fun pts d =>
         ∃ texts,
           Forall2
             (fun (pt : Q * Q) (text : string * string) =>
                (0 <= fst pt ∧ 0 <= snd pt)%Q ∧ point_printed pt text)
             pts texts ∧
           d = path_of_texts texts)
      (List.filter (fun pts => (3 <=? length pts)%nat)
         (map (fun chain => chain_to_points_mm chain dx dy) chains))
      (svg_paths_spec chains dx dy).
Proof.
  intros Hfl Hm Hrun.
  destruct (main_document s gb w w' Hrun)
    as (board & lid & combined & added & a & b & c & d & chains & -> & Hc &
        Hb & Hiter & Hfiles).
  exists board, lid, combined, added, a, b, c, d, chains,
    (- fl (a - MARGIN_MM s))%Q, (- fl (b - MARGIN_MM s))%Q.
  eexists _, _. do 6 (split; [done|]).
  split; [|split; [exact Hfiles|]].
  { unfold polyset_to_svg_paths. rewrite Hiter.
    by rewrite svg_paths_loop_spec. }
  assert (Hshift : ∀ chain x y,
    chain ∈ chains →
    (x, y) ∈ chain_to_points_mm chain
               (- fl (a - MARGIN_MM s)) (- fl (b - MARGIN_MM s)) →
    (0 <= x ∧ 0 <= y)%Q).
  { intros chain x y Hch Hpt. rewrite chain_to_points_mm_map in Hpt.
    apply list_elem_of_In, in_map_iff in Hpt as (p & [= <- <-] & Hp).
    apply list_elem_of_In in Hp.
    destruct (points_in_bounds _ _ _ _ _ _ Hb Hiter chain p Hch Hp)
      as [Hx Hy].
    apply (margin_box (MARGIN_MM s)) in Hx as [Hx _]; [|done..].
    apply (margin_box (MARGIN_MM s)) in Hy as [Hy _]; [|done..].
    rewrite (fl_of_float _ Hfl) in Hx. rewrite (fl_of_float _ Hfl) in Hy.
    destruct Hfl as (Hmono & _ & H0 & _).
    split; rewrite <- H0; apply Hmono; lra. }
  split; [|split; [exact Hshift|]].
  - intros chain x y Hch Hpt. rewrite chain_to_points_mm_map in Hpt.
    apply list_elem_of_In, in_map_iff in Hpt as (p & [= <- <-] & Hp).
    apply list_elem_of_In in Hp.
    destruct (points_in_bounds _ _ _ _ _ _ Hb Hiter chain p Hch Hp)
      as [Hx Hy].
    apply (margin_box (MARGIN_MM s)) in Hx as [Hx _]; [|done..].
    apply (margin_box (MARGIN_MM s)) in Hy as [Hy _]; [|done..].
    split; lra.
  - unfold svg_paths_spec.
    change retained with (fun pts : list (Q * Q) => (3 <=? length pts)%nat).
    assert (Hall : Forall
      (fun pts : list (Q * Q) =>
         ∀ x y, (x, y) ∈ pts → (0 <= x ∧ 0 <= y)%Q)
      (map (fun chain => chain_to_points_mm chain
              (- fl (a - MARGIN_MM s)) (- fl (b - MARGIN_MM s))) chains)).
    { apply Forall_forall. intros pts Hpts.
      apply list_elem_of_In, in_map_iff in Hpts as (chain & <- & Hch).
      apply list_elem_of_In in Hch.
      intros x y. by apply Hshift. }
    revert Hall.
    generalize (map (fun chain => chain_to_points_mm chain
                       (- fl (a - MARGIN_MM s)) (- fl (b - MARGIN_MM s)))
                  chains).
    intros l Hall.
    induction Hall as [|pts l Hpts Hall IH]; cbn [List.filter map];
      [constructor|].
    destruct (3 <=? length pts)%nat; [|done].
    cbn [map]. constructor; [|done].
    exists (map (fun pt => (fmt4 (fst pt), fmt4 (snd pt))) pts). split.
    + clear -Hpts. induction pts as [|[x y] pts IH]; constructor.
      * split; [apply (Hpts x y); constructor|].
        split; apply fmt4_prints_rounded.
      * apply IH. intros x' y' H'. apply Hpts. by constructor.
    + apply svg_path_spec_fmt4.
Qed.

(** *** The layer resolver, read backwards *)

Lemma find_app_first {A} (f : A → bool) (l1 l2 : list A) :
  find f (l1 ++ l2) =
  match find f l1 with Some x => Some x | None => find f l2 end.
Proof.
  induction l1 as [|y l1 IH]; cbn; [done|]. by destruct (f y).
Qed.

Lemma find_range_first (f : Z → bool) (n lid : Z) :
  find f (range n) = Some lid →
  0 <= lid < n ∧ f lid = true ∧ ∀ j, 0 <= j < lid → f j = false.
Proof.
  intros Hf. destruct (find_some _ _ Hf) as [Hin Hlid].
  apply list_elem_of_In, elem_of_range in Hin. split; [done|]. split; [done|].
  intros j Hj. rewrite (range_split n lid Hin), find_app_first in Hf.
  destruct (find f (range lid)) as [y|] eqn:Hy.
  - destruct (find_some _ _ Hy) as [Hyin _].
    apply list_elem_of_In, elem_of_range in Hyin.
    injection Hf as ->. lia.
  - apply (find_none _ _ Hy). apply list_elem_of_In, elem_of_range. lia.
Qed.

(** Whatever [get_layer_id] returns is justified: an identifier is either
    the answer of the direct lookup, or the lookup raised and it is the
    first slot, within the slot count, whose name is the requested one; and
    the only exception is "layer not found", raised when the lookup raised
    and no slot has that name. *)
Theorem get_layer_id_sound (board : Board polyset) (name : string) :
  (∀ lid, get_layer_id board name = Ok lid →
     GetLayerID board name = Ok lid ∨
     ((∃ e, GetLayerID board name = Raise e) ∧
      0 <= lid < PCB_LAYER_ID_COUNT ∧
      GetLayerName board lid = name ∧
      ∀ j, 0 <= j < lid → GetLayerName board j ≠ name)) ∧
  (∀ e, get_layer_id board name = Raise e →
     e = layer_not_found name ∧
     (∃ e', GetLayerID board name = Raise e') ∧
     ∀ lid, 0 <= lid < PCB_LAYER_ID_COUNT → GetLayerName board lid ≠ name).
Proof.
  unfold get_layer_id. split.
  - intros lid. destruct (GetLayerID board name) as [l|e]; [by left|].
    destruct (find _ _) as [l|] eqn:Hf; [|done]. intros [= ->]. right.
    apply find_range_first in Hf as (Hr & Hn & Hfirst).
    split; [by eexists|]. split; [done|]. split; [by apply String.eqb_eq|].
    intros j Hj. apply String.eqb_neq. by apply Hfirst.
  - intros e. destruct (GetLayerID board name) as [l|e']; [done|].
    destruct (find _ _) as [l|] eqn:Hf; [done|]. intros [= <-].
    split; [done|]. split; [by eexists|].
    intros lid Hlid. apply String.eqb_neq.
    apply (find_none _ _ Hf). by apply list_elem_of_In, elem_of_range.
Qed.

(** *** The four loops as one sequence of unions *)

Lemma add_pads_app (lid me : Z) (l1 l2 : list (Item polyset))
    (st : polyset * Z) :
  add_pads lid me (l1 ++ l2) st =
  match add_pads lid me l1 st with
  | (st', Ok _) => add_pads lid me l2 st'
  | (st', Raise e) => (st', Raise e)
  end.
Proof.
  revert st. induction l1 as [|pad l1 IH]; intros st; cbn [app add_pads].
  - reflexivity.
  - destruct (pad_on_layer pad lid); cbn [negb]; [|apply IH].
    destruct (transform_to_polyset pad me) as [ps|]; [|apply IH].
    destruct (poly_boolean_add (fst st) ps) as [c [[]|e]]; [apply IH|done].
Qed.

(** The nested loops over footprints and their pads are one loop over all
    the pads. *)
Lemma main_pads_flat (lid me : Z) (fps : list (Footprint polyset))
    (st : polyset * Z) :
  main_pads lid me fps st = add_pads lid me (flat_map Pads fps) st.
Proof.
  revert st. induction fps as [|fp fps IH]; intros st; [reflexivity|].
  cbn [main_pads flat_map]. rewrite add_pads_app.
  destruct (add_pads lid me (Pads fp) st) as [st' [[]|e]]; [apply IH|done].
Qed.

Lemma omap_cons {A B} (f : A → option B) (x : A) (l : list A) :
  omap f (x :: l) =
  match f x with Some y => y :: omap f l | None => omap f l end.
Proof. reflexivity. Qed.

Lemma union_step (Hunion : union_never_raises) (dst src : polyset) :
  poly_boolean_add dst src = (fst (poly_boolean_add dst src), Ok tt).
Proof.
  specialize (Hunion dst src).
  destruct (poly_boolean_add dst src) as [c r]. cbn in *. by subst.
Qed.

Lemma add_layer_items_fold (Hunion : union_never_raises) (lid me : Z)
    (items : list (Item polyset)) (st : polyset * Z) :
  add_layer_items lid me items st =
  ((union_all (fst st) (omap (track_polyset lid me) items),
    snd st + Z.of_nat (length (omap (track_polyset lid me) items))), Ok tt).
Proof.
  revert st. induction items as [|t items IH]; intros [c n].
  - cbn. by rewrite Z.add_0_r.
  - cbn [add_layer_items]. rewrite !omap_cons.
    change (track_polyset lid me t)
      with (if item_on_layer t lid then transform_to_polyset t me else None).
    destruct (item_on_layer t lid); cbn [negb]; [|apply IH].
    destruct (transform_to_polyset t me) as [ps|]; [|apply IH].
    cbn [fst snd]. rewrite (union_step Hunion c ps), IH.
    cbn [fst snd length union_all fold_left]. do 2 f_equal. lia.
Qed.

Lemma add_pads_fold (Hunion : union_never_raises) (lid me : Z)
    (pads : list (Item polyset)) (st : polyset * Z) :
  add_pads lid me pads st =
  ((union_all (fst st) (omap (pad_polyset lid me) pads),
    snd st + Z.of_nat (length (omap (pad_polyset lid me) pads))), Ok tt).
Proof.
  revert st. induction pads as [|t pads IH]; intros [c n].
  - cbn. by rewrite Z.add_0_r.
  - cbn [add_pads]. rewrite !omap_cons.
    change (pad_polyset lid me t)
      with (if pad_on_layer t lid then transform_to_polyset t me else None).
    destruct (pad_on_layer t lid); cbn [negb]; [|apply IH].
    destruct (transform_to_polyset t me) as [ps|]; [|apply IH].
    cbn [fst snd]. rewrite (union_step Hunion c ps), IH.
    cbn [fst snd length union_all fold_left]. do 2 f_equal. lia.
Qed.

Lemma add_zones_fold (Hunion : union_never_raises) (lid me : Z)
    (zones : list (Item polyset)) (st : polyset * Z) :
  add_zones lid me zones st =
  ((union_all (fst st) (omap (zone_polyset lid me) zones),
    snd st + Z.of_nat (length (omap (zone_polyset lid me) zones))), Ok tt).
Proof.
  revert st. induction zones as [|z zones IH]; intros [c n].
  - cbn. by rewrite Z.add_0_r.
  - cbn [add_zones]. rewrite !omap_cons.
    change (zone_polyset lid me z)
      with (match GetLayer z with
            | Some (Ok l) => if l =? lid then zone_to_polyset z me else None
            | _ => None
            end).
    destruct (GetLayer z) as [[l|e]|]; try apply IH.
    destruct (l =? lid); cbn [negb]; [|apply IH].
    destruct (zone_to_polyset z me) as [ps|]; [|apply IH].
    cbn [fst snd]. rewrite (union_step Hunion c ps), IH.
    cbn [fst snd length union_all fold_left]. do 2 f_equal. lia.
Qed.

Lemma union_all_app (c : polyset) (l1 l2 : list polyset) :
  union_all c (l1 ++ l2) = union_all (union_all c l1) l2.
Proof. apply fold_left_app. Qed.

(** On a host whose union never raises, steps 1 to 4 of [main] amount to
    this: the combined set is the union, in the order tracks, drawings, pads,
    zones, of the polygon sets of the items that pass their layer test and
    convert, and [added] is the number of those items. *)
Theorem main_collect_is_union (s : Settings) (board : Board polyset)
    (lid : Z) :
  union_never_raises →
  main_collect s board lid =
  ((union_all (SHAPE_POLY_SET api) (contributions s board lid),
    Z.of_nat (length (contributions s board lid))), Ok tt).
Proof.
  intros Hunion. unfold main_collect, contributions.
  set (me := iu_from_mm (MAX_ERROR_MM s)).
  assert (Ht : ∀ r st,
    match r with
    | Raise _ => st
    | Ok items => fst (add_layer_items lid me items st)
    end =
    (union_all (fst st) (omap (track_polyset lid me) (items_of r)),
     snd st + Z.of_nat (length (omap (track_polyset lid me) (items_of r))))).
  { intros [items|e] [c n]; cbn [items_of].
    - by rewrite add_layer_items_fold.
    - cbn. by rewrite Z.add_0_r. }
  unfold main_tracks, main_drawings, main_zones.
  rewrite !Ht, main_pads_flat, (add_pads_fold Hunion). cbn [fst snd].
  rewrite !union_all_app, !length_app.
  destruct (INCLUDE_ZONES s).
  - destruct (Zones board) as [zones|e]; cbn [items_of].
    + rewrite (add_zones_fold Hunion). cbn [fst snd]. do 2 f_equal. lia.
    + cbn. do 2 f_equal. lia.
  - cbn. do 2 f_equal. lia.
Qed.

(** *** What the export does not depend on *)

Lemma main_ext_at (s : Settings) (b b' : Board polyset) (w : World) :
  GetLayerID b = GetLayerID b' →
  GetLayerName b = GetLayerName b' →
  GetFileName b = GetFileName b' →
  (∀ lid, get_layer_id b (LAYER_NAME s) = Ok lid →
     main_collect s b lid = main_collect s b' lid) →
  main s (Some b) w = main s (Some b') w.
Proof.
  intros H1 H2 H3 Hc.
  assert (Hl : get_layer_id b' (LAYER_NAME s) = get_layer_id b (LAYER_NAME s)).
  { unfold get_layer_id. by rewrite H1, H2. }
  unfold main. rewrite Hl, <- H3.
  destruct (get_layer_id b (LAYER_NAME s)) as [lid|e]; [|done].
  by rewrite (Hc lid).
Qed.

Lemma add_layer_items_off_layer (lid me : Z) (it : Item polyset)
    (l1 l2 : list (Item polyset)) (st : polyset * Z) :
  item_on_layer it lid = false →
  add_layer_items lid me (l1 ++ it :: l2) st =
  add_layer_items lid me (l1 ++ l2) st.
Proof.
  intros Hit. revert st.
  induction l1 as [|t l1 IH]; intros st; cbn [app add_layer_items].
  - by rewrite Hit.
  - destruct (item_on_layer t lid); cbn [negb]; [|apply IH].
    destruct (transform_to_polyset t me) as [ps|]; [|apply IH].
    destruct (poly_boolean_add (fst st) ps) as [c [[]|e]]; [apply IH|done].
Qed.

Lemma add_pads_off_layer (lid me : Z) (it : Item polyset)
    (l1 l2 : list (Item polyset)) (st : polyset * Z) :
  pad_on_layer it lid = false →
  add_pads lid me (l1 ++ it :: l2) st = add_pads lid me (l1 ++ l2) st.
Proof.
  intros Hit. rewrite !add_pads_app.
  destruct (add_pads lid me l1 st) as [st' [[]|e]]; [|done].
  cbn [add_pads]. by rewrite Hit.
Qed.

Lemma add_zones_off_layer (lid me : Z) (it : Item polyset)
    (l1 l2 : list (Item polyset)) (st : polyset * Z) :
  GetLayer it ≠ Some (Ok lid) →
  add_zones lid me (l1 ++ it :: l2) st = add_zones lid me (l1 ++ l2) st.
Proof.
  intros Hit. revert st.
  induction l1 as [|z l1 IH]; intros st; cbn [app add_zones].
  - destruct (GetLayer it) as [[l|e]|]; try done.
    destruct (Z.eqb_spec l lid) as [->|]; [done|reflexivity].
  - destruct (GetLayer z) as [[l|e]|]; try apply IH.
    destruct (l =? lid); cbn [negb]; [|apply IH].
    destruct (zone_to_polyset z me) as [ps|]; [|apply IH].
    destruct (poly_boolean_add (fst st) ps) as [c [[]|e]]; [apply IH|done].
Qed.

(** An item that does not pass the layer test of its loop has no influence
    on the run: a track or a drawing for which [item_on_layer] is false, a
    pad for which the pad test is false, a zone whose [GetLayer] does not
    answer the target layer.  The run ends exactly as on the board without
    the item. *)
Theorem off_layer_items_are_ignored (s : Settings) (board : Board polyset)
    (w : World) (lid : Z) (it : Item polyset) (l1 l2 : list (Item polyset))
    (fps1 fps2 : list (Footprint polyset)) :
  get_layer_id board (LAYER_NAME s) = Ok lid →
  (item_on_layer it lid = false →
   main s (Some (with_tracks board (Ok (l1 ++ it :: l2)))) w =
     main s (Some (with_tracks board (Ok (l1 ++ l2)))) w ∧
   main s (Some (with_drawings board (Ok (l1 ++ it :: l2)))) w =
     main s (Some (with_drawings board (Ok (l1 ++ l2)))) w) ∧
  (pad_on_layer it lid = false →
   main s (Some (with_footprints board
                   (fps1 ++ {| Pads := l1 ++ it :: l2 |} :: fps2))) w =
     main s (Some (with_footprints board
                     (fps1 ++ {| Pads := l1 ++ l2 |} :: fps2))) w) ∧
  (GetLayer it ≠ Some (Ok lid) →
   main s (Some (with_zones board (Ok (l1 ++ it :: l2)))) w =
     main s (Some (with_zones board (Ok (l1 ++ l2)))) w).
Proof.
  intros Hlid.
  assert (Hsame : ∀ b' lid',
    GetLayerID b' = GetLayerID board → GetLayerName b' = GetLayerName board →
    get_layer_id b' (LAYER_NAME s) = Ok lid' → lid' = lid).
  { intros b' lid' H1 H2. unfold get_layer_id in *. rewrite H1, H2, Hlid.
    by intros [= ->]. }
  split; [|split].
  - intros Hit. split.
    + apply main_ext_at; try done. intros lid' Hl.
      apply Hsame in Hl as ->; [|done..].
      unfold main_collect, main_tracks. cbn [with_tracks GetTracks
        GetDrawings GetFootprints Zones].
      by rewrite add_layer_items_off_layer.
    + apply main_ext_at; try done. intros lid' Hl.
      apply Hsame in Hl as ->; [|done..].
      unfold main_collect, main_drawings. cbn [with_drawings GetTracks
        GetDrawings GetFootprints Zones].
      by rewrite add_layer_items_off_layer.
  - intros Hit. apply main_ext_at; try done. intros lid' Hl.
    apply Hsame in Hl as ->; [|done..].
    unfold main_collect. cbn [with_footprints GetFootprints].
    rewrite !main_pads_flat, !flat_map_app. cbn [flat_map Pads].
    replace (flat_map Pads fps1 ++ (l1 ++ it :: l2) ++ flat_map Pads fps2)
      with ((flat_map Pads fps1 ++ l1) ++ it :: (l2 ++ flat_map Pads fps2))
      by (by rewrite <- !app_assoc).
    replace (flat_map Pads fps1 ++ (l1 ++ l2) ++ flat_map Pads fps2)
      with ((flat_map Pads fps1 ++ l1) ++ (l2 ++ flat_map Pads fps2))
      by (by rewrite <- !app_assoc).
    by rewrite add_pads_off_layer.
  - intros Hit. apply main_ext_at; try done. intros lid' Hl.
    apply Hsame in Hl as ->; [|done..].
    unfold main_collect, main_tracks, main_drawings.
    cbn [with_zones GetFootprints GetTracks GetDrawings].
    destruct (main_pads _ _ _ _) as [st3 [[]|e]]; [|done].
    destruct (INCLUDE_ZONES s); [|done].
    unfold main_zones. cbn [with_zones Zones].
    by rewrite add_zones_off_layer.
Qed.

(** A collection whose accessor raises is treated as an empty one: when
    [GetTracks], [GetDrawings] or [Zones] raises, the run ends exactly as on
    the board where that collection is empty. *)
Theorem failing_accessor_is_empty_collection (s : Settings)
    (board : Board polyset) (w : World) (e : exn) :
  main s (Some (with_tracks board (Raise e))) w =
    main s (Some (with_tracks board (Ok []))) w ∧
  main s (Some (with_drawings board (Raise e))) w =
    main s (Some (with_drawings board (Ok []))) w ∧
  main s (Some (with_zones board (Raise e))) w =
    main s (Some (with_zones board (Ok []))) w.
Proof.
  repeat split; apply main_ext; try done; intros lid; reflexivity.
Qed.

(** With [INCLUDE_ZONES] off, as the script ships, the zones of the board
    play no part: whatever [Zones] holds or raises, the run ends as it does
    on the board itself. *)
Theorem zones_are_excluded_by_default (s : Settings) (board : Board polyset)
    (w : World) (zones : result (list (Item polyset))) :
  INCLUDE_ZONES s = false →
  main s (Some (with_zones board zones)) w = main s (Some board) w.
Proof.
  intros Hz. apply main_ext; try done. intros lid.
  unfold main_collect, main_tracks, main_drawings.
  cbn [with_zones GetFootprints GetTracks GetDrawings]. by rewrite Hz.
Qed.

(** *** Hosts on which no export can succeed *)

Lemma union_step_raises (Hunion : union_always_raises) (dst src : polyset) :
  ∃ c e, poly_boolean_add dst src = (c, Raise e).
Proof.
  destruct (Hunion dst src) as [e He].
  destruct (poly_boolean_add dst src) as [c r]. cbn in He. subst. eauto.
Qed.

Lemma add_layer_items_no_union (Hunion : union_always_raises) (lid me : Z)
    (items : list (Item polyset)) (st : polyset * Z) :
  snd (fst (add_layer_items lid me items st)) = snd st.
Proof.
  induction items as [|t items IH]; [done|]. cbn [add_layer_items].
  destruct (item_on_layer t lid); cbn [negb]; [|apply IH].
  destruct (transform_to_polyset t me) as [ps|]; [|apply IH].
  by destruct (union_step_raises Hunion (fst st) ps) as (c & e & ->).
Qed.

Lemma add_pads_no_union (Hunion : union_always_raises) (lid me : Z)
    (pads : list (Item polyset)) (st : polyset * Z) :
  snd (fst (add_pads lid me pads st)) = snd st.
Proof.
  induction pads as [|t pads IH]; [done|]. cbn [add_pads].
  destruct (pad_on_layer t lid); cbn [negb]; [|apply IH].
  destruct (transform_to_polyset t me) as [ps|]; [|apply IH].
  by destruct (union_step_raises Hunion (fst st) ps) as (c & e & ->).
Qed.

Lemma add_zones_no_union (Hunion : union_always_raises) (lid me : Z)
    (zones : list (Item polyset)) (st : polyset * Z) :
  snd (fst (add_zones lid me zones st)) = snd st.
Proof.
  induction zones as [|z zones IH]; [done|]. cbn [add_zones].
  destruct (GetLayer z) as [[l|e]|]; try apply IH.
  destruct (l =? lid); cbn [negb]; [|apply IH].
  destruct (zone_to_polyset z me) as [ps|]; [|apply IH].
  by destruct (union_step_raises Hunion (fst st) ps) as (c & e & ->).
Qed.

(** On a host whose polygon sets have no working union, and in particular
    on one that has none of the four method names, [added] stays zero, so no
    run ever writes a file: every run ends with an exception and the world
    as it was. *)
Theorem no_union_no_export (s : Settings) (gb : option (Board polyset))
    (w : World) :
  union_always_raises →
  (∀ board lid, snd (fst (main_collect s board lid)) = 0) ∧
  ∃ e, main s gb w = (Raise e, w).
Proof.
  intros Hunion.
  assert (Hadded : ∀ board lid, snd (fst (main_collect s board lid)) = 0).
  { intros board lid. unfold main_collect.
    set (me := iu_from_mm (MAX_ERROR_MM s)).
    set (st1 := main_tracks board lid me (SHAPE_POLY_SET api, 0)).
    assert (snd st1 = 0) as H1.
    { unfold st1, main_tracks. destruct (GetTracks board); [|done].
      by rewrite add_layer_items_no_union. }
    set (st2 := main_drawings board lid me st1).
    assert (snd st2 = 0) as H2.
    { unfold st2, main_drawings. destruct (GetDrawings board); [|done].
      by rewrite add_layer_items_no_union. }
    pose proof (add_pads_no_union Hunion lid me
                  (flat_map Pads (GetFootprints board)) st2) as H3.
    rewrite <- main_pads_flat, H2 in H3.
    destruct (main_pads lid me (GetFootprints board) st2) as [st3 [[]|e]];
      [|exact H3].
    cbn [fst snd] in H3. destruct (INCLUDE_ZONES s); [|exact H3].
    cbn [fst snd]. unfold main_zones. destruct (Zones board); [|done].
    by rewrite add_zones_no_union. }
  split; [exact Hadded|].
  destruct (main_inv s gb w)
    as [(board & lid & combined & added & svg & _ & _ & Hc & Hne & _)|H];
    [|exact H].
  specialize (Hadded board lid). rewrite Hc in Hadded. cbn in Hadded. done.
Qed.

(** On a host whose polygon sets have no [Outline] accessor, neither path
    of the loop iterator can run: iteration raises the API-mismatch error
    before it yields anything, so do the bounds and the serialiser, and
    no run ever writes a file. *)
Theorem no_outline_no_export (s : Settings) (gb : option (Board polyset))
    (w : World) (ps : polyset) (dx dy : Q) :
  Outline api = None →
  iter_polyset_loops ps = ([], Some api_mismatch_iter) ∧
  polyset_bounds_mm ps = Raise api_mismatch_iter ∧
  polyset_to_svg_paths ps dx dy = Raise api_mismatch_iter ∧
  ∃ e, main s gb w = (Raise e, w).
Proof.
  intros Ho.
  assert (Hiter : ∀ ps', iter_polyset_loops ps' = ([], Some api_mismatch_iter)).
  { intros ps'. unfold iter_polyset_loops, iter_primary, iter_fallback.
    rewrite Ho. destruct (PolygonCount api); by destruct (OutlineCount api). }
  split; [apply Hiter|]. split; [|split].
  - unfold polyset_bounds_mm. by rewrite Hiter.
  - unfold polyset_to_svg_paths. by rewrite Hiter.
  - destruct (main_inv s gb w)
      as [(board & lid & combined & added & svg & _ & _ & _ & _ & Hsvg & _)|H];
      [|exact H].
    unfold main_svg, polyset_bounds_mm in Hsvg. by rewrite Hiter in Hsvg.
Qed.

(** *** A primary path that is interrupted *)

Lemma yield_polygons_app (fo : polyset → Z → result Chain) (ps : polyset)
    (l1 l2 : list Z) :
  yield_polygons fo ps (l1 ++ l2) =
  match yield_polygons fo ps l1 with
  | (ys, true) =>
      let '(zs, ok) := yield_polygons fo ps l2 in (ys ++ zs, ok)
  | (ys, false) => (ys, false)
  end.
Proof.
  induction l1 as [|p l1 IH]; cbn [app yield_polygons].
  - by destruct (yield_polygons fo ps l2).
  - destruct (fo ps p) as [outer|e]; [|done].
    destruct (yield_holes ps p) as [hs [|]]; [|done]. rewrite IH.
    destruct (yield_polygons fo ps l1) as [ys [|]]; [|done].
    destruct (yield_polygons fo ps l2) as [zs ok].
    by rewrite app_comm_cons, app_assoc.
Qed.

Lemma yield_outlines_complete (fo : polyset → Z → result Chain)
    (ps : polyset) (outer : Z → Chain) (idx : list Z) :
  (∀ i, i ∈ idx → fo ps i = Ok (outer i)) →
  yield_outlines fo ps idx = (map outer idx, None).
Proof.
  induction idx as [|i idx IH]; intros H; [reflexivity|].
  cbn [yield_outlines map]. rewrite (H i) by constructor.
  rewrite IH; [reflexivity|]. intros j Hj. apply H. by constructor.
Qed.

(** When a hole count raises in the middle of the polygon-aware path, the
    exception is swallowed, the loops yielded so far stay yielded, and the
    outlines-only fallback then yields every outline from the first one on:
    the outlines of the polygons up to the failing one come out twice. *)
Theorem interrupted_primary_path_repeats_outlines (ps : polyset)
    (fpc : polyset → result Z) (fo : polyset → Z → result Chain)
    (fhc : polyset → Z → result Z) (fh : polyset → Z → Z → result Chain)
    (foc : polyset → result Z) (pc oc k : Z) (e : exn)
    (outer : Z → Chain) (holes : Z → list Chain) :
  PolygonCount api = Some fpc → Outline api = Some fo →
  HoleCount api = Some fhc → Hole api = Some fh →
  OutlineCount api = Some foc →
  fpc ps = Ok pc → foc ps = Ok oc → 0 <= k < pc →
  (∀ p, 0 <= p < k → holes_answer ps p (holes p)) →
  (∀ i, 0 <= i < Z.max pc oc → fo ps i = Ok (outer i)) →
  fhc ps k = Raise e →
  iter_polyset_loops ps =
    (flat_map (fun p => outer p :: holes p) (range k) ++
     outer k :: map outer (range oc), None).
Proof.
  intros Hpc Ho Hhc Hh Hoc Hcount Hocount Hk Hholes Houter Hraise.
  unfold iter_polyset_loops, iter_primary, iter_fallback.
  rewrite Hpc, Ho, Hoc, Hcount, Hocount.
  rewrite (range_split pc k Hk), yield_polygons_app.
  rewrite (yield_polygons_complete fo ps outer holes).
  2:{ intros p Hp%elem_of_range. split; [apply Houter; lia|by apply Hholes]. }
  cbn [yield_polygons]. rewrite (Houter k) by lia.
  unfold yield_holes at 1. rewrite Hhc, Hh, Hraise.
  rewrite (yield_outlines_complete fo ps outer).
  2:{ intros i Hi%elem_of_range. apply Houter. lia. }
  by rewrite <- app_assoc.
Qed.

(** *** The bounds are the tight box *)

Lemma bounds_chains_all_points (chains : list Chain) (b : Q * Q * Q * Q) :
  fold_left bounds_chain chains b = fold_left bounds_point (all_points chains) b.
Proof.
  revert b. induction chains as [|c chains IH]; intros b; [reflexivity|].
  unfold all_points. cbn [fold_left flat_map]. rewrite fold_left_app.
  apply IH.
Qed.

Lemma elem_of_all_points (chains : list Chain) (pt : Q * Q) :
  pt ∈ all_points chains ↔
  ∃ chain, chain ∈ chains ∧ pt ∈ chain_to_points_mm chain 0 0.
Proof.
  unfold all_points. rewrite list_elem_of_In, in_flat_map.
  split; intros (c & Hc & Hp); exists c; by rewrite ?list_elem_of_In in *.
Qed.

(** Each bound is the value it started from or a coordinate of a point. *)
Lemma bounds_points_attained (pts : list (Q * Q)) (a b c d a' b' c' d' : Q) :
  fold_left bounds_point pts (a, b, c, d) = (a', b', c', d') →
  (a' = a ∨ ∃ y, (a', y) ∈ pts) ∧ (b' = b ∨ ∃ x, (x, b') ∈ pts) ∧
  (c' = c ∨ ∃ y, (c', y) ∈ pts) ∧ (d' = d ∨ ∃ x, (x, d') ∈ pts).
Proof.
  revert a b c d. induction pts as [|[x y] pts IH]; intros a b c d.
  - cbn. intros [= <- <- <- <-]. by repeat split; left.
  - cbn [fold_left]. unfold bounds_point at 2.
    intros Hf. apply IH in Hf as (Ha & Hb & Hc & Hd).
    assert (Hin : ∀ p, p ∈ pts → p ∈ (x, y) :: pts)
      by (intros p Hp; by constructor).
    repeat split.
    + destruct Ha as [->|[y' Hy']]; [|right; eauto].
      destruct (Qltb x a); [right; exists y; constructor|by left].
    + destruct Hb as [->|[x' Hx']]; [|right; eauto].
      destruct (Qltb y b); [right; exists x; constructor|by left].
    + destruct Hc as [->|[y' Hy']]; [|right; eauto].
      destruct (Qltb c x); [right; exists y; constructor|by left].
    + destruct Hd as [->|[x' Hx']]; [|right; eauto].
      destruct (Qltb d y); [right; exists x; constructor|by left].
Qed.

(** [polyset_bounds_mm] reports an empty polygon set exactly when every
    point it saw has [x] above 1e17 mm; in particular when it saw no point
    at all, and never for a polygon set with a point whose [x] is at most
    1e17 mm. *)
Theorem bounds_empty_exactly (ps : polyset) (chains : list Chain) :
  iter_polyset_loops ps = (chains, None) →
  (polyset_bounds_mm ps = Raise bounds_empty ↔
   ∀ x y, (x, y) ∈ all_points chains → (inject_Z (10 ^ 17) < x)%Q) ∧
  (all_points chains = [] → polyset_bounds_mm ps = Raise bounds_empty) ∧
  (∀ e, polyset_bounds_mm ps = Raise e → e = bounds_empty).
Proof.
  intros Hiter. unfold polyset_bounds_mm. rewrite Hiter.
  rewrite bounds_chains_all_points.
  destruct (fold_left bounds_point (all_points chains) _)
    as [[[a b] c] d] eqn:E.
  pose proof (bounds_points_spec _ _ _ _ _ _ _ _ _ E) as [_ Hin].
  pose proof (bounds_points_attained _ _ _ _ _ _ _ _ _ E) as (Ha & _).
  assert (Hiff : Qltb (inject_Z (10 ^ 17)) a = true ↔
    ∀ x y, (x, y) ∈ all_points chains → (inject_Z (10 ^ 17) < x)%Q).
  { rewrite Qltb_iff. split.
    - intros Hlt x y Hxy. destruct (Hin x y Hxy) as [[? ?] _]. lra.
    - intros Hall. destruct Ha as [->|[y Hy]]; [|by eapply Hall].
      unfold Qlt. cbn. lia. }
  split; [|split].
  - rewrite <- Hiff. by destruct (Qltb (inject_Z (10 ^ 17)) a).
  - intros Hnil. rewrite Hnil in E. cbn in E. by injection E as <- <- <- <-.
  - intros e. by destruct (Qltb (inject_Z (10 ^ 17)) a); intros [= <-].
Qed.

(** When [polyset_bounds_mm] returns, a point of the polygon set has the
    returned [minx] as its [x]; and if the coordinates stay clear of the
    sentinels (1e18 mm in absolute value), each of the four bounds is the
    coordinate of some point, while every point lies within them: the box
    returned is the smallest one. *)
Theorem bounds_are_attained (ps : polyset) (chains : list Chain)
    (minx miny maxx maxy : Q) :
  iter_polyset_loops ps = (chains, None) →
  polyset_bounds_mm ps = Ok (minx, miny, maxx, maxy) →
  (∃ y, (minx, y) ∈ all_points chains) ∧
  ((∀ pt, pt ∈ all_points chains → within_sentinels pt) →
   (∃ x, (x, miny) ∈ all_points chains) ∧
   (∃ y, (maxx, y) ∈ all_points chains) ∧
   (∃ x, (x, maxy) ∈ all_points chains)) ∧
  (∀ x y, (x, y) ∈ all_points chains →
     (minx <= x <= maxx ∧ miny <= y <= maxy)%Q).
Proof.
  intros Hiter. unfold polyset_bounds_mm. rewrite Hiter.
  rewrite bounds_chains_all_points.
  destruct (fold_left bounds_point (all_points chains) _)
    as [[[a b] c] d] eqn:E.
  pose proof (bounds_points_spec _ _ _ _ _ _ _ _ _ E) as [_ Hin].
  pose proof (bounds_points_attained _ _ _ _ _ _ _ _ _ E) as (Ha & Hb & Hc & Hd).
  destruct (Qltb (inject_Z (10 ^ 17)) a) eqn:Hlt; [done|].
  intros [= <- <- <- <-].
  assert (Hpt : ∃ y, (a, y) ∈ all_points chains).
  { destruct Ha as [->|Ha]; [|exact Ha]. by vm_compute in Hlt. }
  split; [exact Hpt|]. split; [|exact Hin].
  intros Hrange. destruct Hpt as [y0 Hy0].
  destruct (Hin a y0 Hy0) as [[_ ?] [? ?]].
  destruct (Hrange _ Hy0) as (? & ? & ? & ?). cbn [fst snd] in *.
  split; [|split].
  - destruct Hb as [->|Hb]; [lra|exact Hb].
  - destruct Hc as [->|Hc]; [lra|exact Hc].
  - destruct Hd as [->|Hd]; [lra|exact Hd].
Qed.

(** A polygon set whose bounds are returned has a point. *)
Lemma bounds_are_attained_point (ps : polyset) (chains : list Chain)
    (minx miny maxx maxy : Q) :
  iter_polyset_loops ps = (chains, None) →
  polyset_bounds_mm ps = Ok (minx, miny, maxx, maxy) →
  ∃ x y, (x, y) ∈ all_points chains.
Proof.
  intros Hiter. unfold polyset_bounds_mm. rewrite Hiter.
  rewrite bounds_chains_all_points.
  destruct (fold_left bounds_point (all_points chains) _)
    as [[[a b] c] d] eqn:E.
  pose proof (bounds_points_attained _ _ _ _ _ _ _ _ _ E) as (Ha & _).
  destruct (Qltb (inject_Z (10 ^ 17)) a) eqn:Hlt; [done|]. intros _.
  destruct Ha as [->|[y H]]; [by vm_compute in Hlt|eauto].
Qed.

(** In every export that succeeds, with a margin that is not negative, the
    width and the height of the document are not negative and every
    coordinate of the paths written lies inside the view box: between 0 and
    the width, and between 0 and the height.  (Rounding can bring a
    coordinate closer to an edge than the margin.) *)
Theorem paths_fit_the_view_box (s : Settings)
    (gb : option (Board polyset)) (w w' : World) :
  float_rounding →
  (0 <= MARGIN_MM s)%Q →
  main s gb w = (Ok tt, w') →
  ∃ board lid combined added minx0 miny0 maxx0 maxy0 chains
    width height dx dy,
    gb = Some board ∧
    main_collect s board lid = ((combined, added), Ok tt) ∧
    polyset_bounds_mm combined = Ok (minx0, miny0, maxx0, maxy0) ∧
    iter_polyset_loops combined = (chains, None) ∧
    width = fl (fl (maxx0 + MARGIN_MM s) - fl (minx0 - MARGIN_MM s)) ∧
    height = fl (fl (maxy0 + MARGIN_MM s) - fl (miny0 - MARGIN_MM s)) ∧
    dx = (- fl (minx0 - MARGIN_MM s))%Q ∧
    dy = (- fl (miny0 - MARGIN_MM s))%Q ∧
    files w' =
      <[out_path_of s (GetFileName board) :=
          svg_document_spec (FILL_COLOR s) (fmt4 width) (fmt4 height)
            (svg_paths_spec chains dx dy)]> (files w) ∧
    (0 <= width ∧ 0 <= height)%Q ∧
    (∀ chain x y,
       chain ∈ chains →
       (x, y) ∈ chain_to_points_mm chain dx dy →
       (0 <= x <= width ∧ 0 <= y <= height)%Q).
Proof.
  intros Hfl Hm Hrun.
  destruct (main_document s gb w w' Hrun)
    as (board & lid & combined & added & a & b & c & d & chains & -> & Hc &
        Hb & Hiter & Hfiles).
  exists board, lid, combined, added, a, b, c, d, chains.
  eexists _, _, _, _. do 8 (split; [done|]). split; [exact Hfiles|].
  assert (Hin : ∀ chain x y,
    chain ∈ chains →
    (x, y) ∈ chain_to_points_mm chain
               (- fl (a - MARGIN_MM s)) (- fl (b - MARGIN_MM s)) →
    (0 <= x <= fl (fl (c + MARGIN_MM s) - fl (a - MARGIN_MM s)) ∧
     0 <= y <= fl (fl (d + MARGIN_MM s) - fl (b - MARGIN_MM s)))%Q).
  { intros chain x y Hch Hpt. rewrite chain_to_points_mm_map in Hpt.
    apply list_elem_of_In, in_map_iff in Hpt as (p & [= <- <-] & Hp).
    apply list_elem_of_In in Hp.
    destruct (points_in_bounds _ _ _ _ _ _ Hb Hiter chain p Hch Hp)
      as [Hx Hy].
    apply (margin_box (MARGIN_MM s)) in Hx as [Hx Hx']; [|done..].
    apply (margin_box (MARGIN_MM s)) in Hy as [Hy Hy']; [|done..].
    rewrite (fl_of_float _ Hfl) in Hx, Hx'.
    rewrite (fl_of_float _ Hfl) in Hy, Hy'.
    destruct Hfl as (Hmono & _ & H0 & _).
    repeat split; try (rewrite <- H0); apply Hmono; lra. }
  split; [|exact Hin].
  destruct (bounds_are_attained_point combined chains a b c d Hiter Hb)
    as (x0 & y0 & H0).
  apply elem_of_all_points in H0 as (ch0 & Hch0 & Hpt0).
  rewrite chain_to_points_mm_map in Hpt0.
  apply list_elem_of_In, in_map_iff in Hpt0 as (p & _ & Hp).
  destruct (Hin ch0
              (fl (mm_from_iu (vx p) + - fl (a - MARGIN_MM s)))
              (fl (mm_from_iu (vy p) + - fl (b - MARGIN_MM s))) Hch0)
    as [[? ?] [? ?]]; [|split; lra].
  rewrite chain_to_points_mm_map. apply list_elem_of_In, in_map_iff.
  by exists p.
Qed.

(** *** Zones and pads *)

Lemma try_solid_areas_some
    (fns : list (option (polyset → Z → Z → polyset * result unit)))
    (me : Z) (ps ps' : polyset) :
  try_solid_areas fns me ps = Some ps' →
  ∃ f ps0, Some f ∈ fns ∧ f ps0 0 me = (ps', Ok tt).
Proof.
  revert ps. induction fns as [|[f|] fns IH]; intros ps; cbn [try_solid_areas].
  - done.
  - destruct (f ps 0 me) as [p1 [[]|e]] eqn:E.
    + intros [= <-]. exists f, ps. split; [constructor|done].
    + intros H. apply IH in H as (g & ps0 & Hin & Hg).
      exists g, ps0. split; [by constructor|done].
  - intros H. apply IH in H as (g & ps0 & Hin & Hg).
    exists g, ps0. split; [by constructor|done].
Qed.

(** The zone converter prefers the solid-area methods: the result of the
    first of them that the zone has and that does not raise is returned.
    When the first method raises, the second one is called on the same
    polygon set, as the first call left it, and its result is returned if
    it succeeds.  Otherwise (a method is missing or raises, for both) the
    zone is converted like any item, into a fresh polygon set, so the
    converter fails only if the generic conversion fails. *)
Theorem zone_conversion_prefers_solid_areas (z : Item polyset) (me : Z) :
  (∀ f ps', TransformSolidAreasToPolygon z = Some f →
     f (SHAPE_POLY_SET api) 0 me = (ps', Ok tt) →
     zone_to_polyset z me = Some ps') ∧
  (TransformSolidAreasToPolygon z = None →
   ∀ f ps', TransformSolidAreasShapesToPolygon z = Some f →
     f (SHAPE_POLY_SET api) 0 me = (ps', Ok tt) →
     zone_to_polyset z me = Some ps') ∧
  (∀ f1 ps1 e f2 ps2,
     TransformSolidAreasToPolygon z = Some f1 →
     f1 (SHAPE_POLY_SET api) 0 me = (ps1, Raise e) →
     TransformSolidAreasShapesToPolygon z = Some f2 →
     f2 ps1 0 me = (ps2, Ok tt) →
     zone_to_polyset z me = Some ps2) ∧
  (∀ f1 ps1 e f2 ps2 e',
     TransformSolidAreasToPolygon z = Some f1 →
     f1 (SHAPE_POLY_SET api) 0 me = (ps1, Raise e) →
     TransformSolidAreasShapesToPolygon z = Some f2 →
     f2 ps1 0 me = (ps2, Raise e') →
     zone_to_polyset z me = transform_to_polyset z me) ∧
  (∀ f1 ps1 e,
     TransformSolidAreasToPolygon z = Some f1 →
     f1 (SHAPE_POLY_SET api) 0 me = (ps1, Raise e) →
     TransformSolidAreasShapesToPolygon z = None →
     zone_to_polyset z me = transform_to_polyset z me) ∧
  (TransformSolidAreasToPolygon z = None →
   ∀ f2 ps2 e,
     TransformSolidAreasShapesToPolygon z = Some f2 →
     f2 (SHAPE_POLY_SET api) 0 me = (ps2, Raise e) →
     zone_to_polyset z me = transform_to_polyset z me) ∧
  (TransformSolidAreasToPolygon z = None →
   TransformSolidAreasShapesToPolygon z = None →
   zone_to_polyset z me = transform_to_polyset z me) ∧
  (zone_to_polyset z me = None → transform_to_polyset z me = None) ∧
  (zone_to_polyset z me = transform_to_polyset z me ∨
   ∃ f ps ps',
     (TransformSolidAreasToPolygon z = Some f ∨
      TransformSolidAreasShapesToPolygon z = Some f) ∧
     f ps 0 me = (ps', Ok tt) ∧ zone_to_polyset z me = Some ps').
Proof.
  split; [|split; [|split; [|split; [|split; [|split; [|split; [|split]]]]]]].
  - intros f ps' H1 E1. unfold zone_to_polyset. cbn [try_solid_areas].
    by rewrite H1, E1.
  - intros H1 f ps' H2 E2. unfold zone_to_polyset. cbn [try_solid_areas].
    by rewrite H1, H2, E2.
  - intros f1 ps1 e f2 ps2 H1 E1 H2 E2. unfold zone_to_polyset.
    cbn [try_solid_areas]. by rewrite H1, E1, H2, E2.
  - intros f1 ps1 e f2 ps2 e' H1 E1 H2 E2. unfold zone_to_polyset.
    cbn [try_solid_areas]. by rewrite H1, E1, H2, E2.
  - intros f1 ps1 e H1 E1 H2. unfold zone_to_polyset.
    cbn [try_solid_areas]. by rewrite H1, E1, H2.
  - intros H1 f2 ps2 e H2 E2. unfold zone_to_polyset.
    cbn [try_solid_areas]. by rewrite H1, H2, E2.
  - intros H1 H2. unfold zone_to_polyset. cbn [try_solid_areas].
    by rewrite H1, H2.
  - unfold zone_to_polyset. by destruct (try_solid_areas _ _ _).
  - unfold zone_to_polyset.
    destruct (try_solid_areas _ _ _) as [ps'|] eqn:E; [right|by left].
    apply try_solid_areas_some in E as (f & ps & Hin & Hf).
    exists f, ps, ps'. split; [|done].
    apply elem_of_cons in Hin as [Hin|Hin]; [by left|].
    apply list_elem_of_singleton in Hin. by right.
Qed.

(** The pad test has tiers of its own: the pad's own answer when
    [IsOnLayer] gives one, on which it agrees with the test used for tracks;
    otherwise the answer of its layer set; and false when that raises too.
    A pad is never accepted for its class name. *)
Theorem pad_on_layer_tiers (pad : Item polyset) (lid : Z) :
  (∀ f b, IsOnLayer pad = Some f → f lid = Ok b →
     pad_on_layer pad lid = b ∧ item_on_layer pad lid = b) ∧
  (no_direct_answer pad lid →
   ∀ b, GetLayerSet_Contains pad lid = Ok b → pad_on_layer pad lid = b) ∧
  (no_direct_answer pad lid →
   (∃ e, GetLayerSet_Contains pad lid = Raise e) →
   pad_on_layer pad lid = false).
Proof.
  unfold pad_on_layer, item_on_layer, no_direct_answer.
  split; [|split].
  - intros f b -> ->. by split.
  - by intros [->|(f & e & -> & ->)] b ->.
  - by intros [->|(f & e & -> & ->)] [e' ->].
Qed.

(** *** How many items were added *)

Lemma add_layer_items_added_bound (lid me : Z) (items : list (Item polyset))
    (st : polyset * Z) :
  snd st <= snd (fst (add_layer_items lid me items st)) <=
  snd st + Z.of_nat (length (omap (track_polyset lid me) items)).
Proof.
  revert st. induction items as [|t items IH]; intros st.
  - cbn. lia.
  - cbn [add_layer_items]. rewrite omap_cons.
    change (track_polyset lid me t)
      with (if item_on_layer t lid then transform_to_polyset t me else None).
    destruct (item_on_layer t lid); cbn [negb]; [|apply IH].
    destruct (transform_to_polyset t me) as [ps|]; [|apply IH].
    destruct (poly_boolean_add (fst st) ps) as [c [[]|e]].
    + specialize (IH (c, snd st + 1)). cbn [fst snd length] in *. lia.
    + cbn [fst snd length]. lia.
Qed.

Lemma add_pads_added_bound (lid me : Z) (pads : list (Item polyset))
    (st : polyset * Z) :
  snd st <= snd (fst (add_pads lid me pads st)) <=
  snd st + Z.of_nat (length (omap (pad_polyset lid me) pads)).
Proof.
  revert st. induction pads as [|t pads IH]; intros st.
  - cbn. lia.
  - cbn [add_pads]. rewrite omap_cons.
    change (pad_polyset lid me t)
      with (if pad_on_layer t lid then transform_to_polyset t me else None).
    destruct (pad_on_layer t lid); cbn [negb]; [|apply IH].
    destruct (transform_to_polyset t me) as [ps|]; [|apply IH].
    destruct (poly_boolean_add (fst st) ps) as [c [[]|e]].
    + specialize (IH (c, snd st + 1)). cbn [fst snd length] in *. lia.
    + cbn [fst snd length]. lia.
Qed.

Lemma add_zones_added_bound (lid me : Z) (zones : list (Item polyset))
    (st : polyset * Z) :
  snd st <= snd (fst (add_zones lid me zones st)) <=
  snd st + Z.of_nat (length (omap (zone_polyset lid me) zones)).
Proof.
  revert st. induction zones as [|z zones IH]; intros st.
  - cbn. lia.
  - cbn [add_zones]. rewrite omap_cons.
    change (zone_polyset lid me z)
      with (match GetLayer z with
            | Some (Ok l) => if l =? lid then zone_to_polyset z me else None
            | _ => None
            end).
    destruct (GetLayer z) as [[l|e]|]; try apply IH.
    destruct (l =? lid); cbn [negb]; [|apply IH].
    destruct (zone_to_polyset z me) as [ps|]; [|apply IH].
    destruct (poly_boolean_add (fst st) ps) as [c [[]|e]].
    + specialize (IH (c, snd st + 1)). cbn [fst snd length] in *. lia.
    + cbn [fst snd length]. lia.
Qed.

Lemma main_collect_added_bound (s : Settings) (board : Board polyset)
    (lid : Z) :
  0 <= snd (fst (main_collect s board lid)) <=
  Z.of_nat (length (contributions s board lid)).
Proof.
  unfold main_collect, contributions.
  set (me := iu_from_mm (MAX_ERROR_MM s)). rewrite !length_app.
  set (st1 := main_tracks board lid me (SHAPE_POLY_SET api, 0)).
  assert (0 <= snd st1 <=
    Z.of_nat (length (omap (track_polyset lid me) (items_of (GetTracks board)))))
    as H1.
  { unfold st1, main_tracks. destruct (GetTracks board) as [items|e].
    - pose proof (add_layer_items_added_bound lid me items
                    (SHAPE_POLY_SET api, 0)) as H. cbn [fst snd items_of] in *.
      lia.
    - cbn. lia. }
  set (st2 := main_drawings board lid me st1).
  assert (snd st1 <= snd st2 <= snd st1 +
    Z.of_nat (length (omap (track_polyset lid me)
                        (items_of (GetDrawings board))))) as H2.
  { unfold st2, main_drawings. destruct (GetDrawings board) as [items|e].
    - apply add_layer_items_added_bound.
    - cbn. lia. }
  pose proof (add_pads_added_bound lid me
                (flat_map Pads (GetFootprints board)) st2) as H3.
  rewrite <- main_pads_flat in H3.
  destruct (main_pads lid me (GetFootprints board) st2) as [st3 [[]|e]];
    cbn [fst snd] in *; [|destruct (INCLUDE_ZONES s); cbn [length]; lia].
  destruct (INCLUDE_ZONES s); cbn [fst snd length]; [|lia].
  unfold main_zones. destruct (Zones board) as [zones|e]; cbn [items_of].
  - pose proof (add_zones_added_bound lid me zones st3). lia.
  - cbn [length]. lia.
Qed.

(** [added] never exceeds the number of items that pass their layer test
    and convert, whatever the unions do; so a file is only ever written for
    a board that has at least one such item. *)
Theorem export_needs_a_contribution (s : Settings)
    (gb : option (Board polyset)) (w w' : World) :
  main s gb w = (Ok tt, w') →
  ∃ board lid,
    gb = Some board ∧
    get_layer_id board (LAYER_NAME s) = Ok lid ∧
    0 < snd (fst (main_collect s board lid)) <=
      Z.of_nat (length (contributions s board lid)) ∧
    contributions s board lid ≠ [].
Proof.
  intros Hrun.
  destruct (main_inv s gb w)
    as [(board & lid & combined & added & svg & -> & Hlid & Hc & Hadded &
         _)|[e Hmain]];
    [|by rewrite Hmain in Hrun].
  exists board, lid. split; [done|]. split; [done|].
  pose proof (main_collect_added_bound s board lid) as Hb.
  rewrite Hc in *. cbn [fst snd] in *. split; [lia|].
  intros Hnil. rewrite Hnil in Hb. cbn in Hb. lia.
Qed.

(** *** What a successful run leaves behind *)

(** A run that succeeds writes the output path and nothing else: the board
    has a file name, the new contents are at the path derived from it, every
    other path holds what it held before, and exactly three lines are added
    to the console, the first naming the path. *)
Theorem successful_run_touches_one_file (s : Settings)
    (gb : option (Board polyset)) (w w' : World) :
  main s gb w = (Ok tt, w') →
  ∃ board svg,
    gb = Some board ∧ GetFileName board ≠ "" ∧
    files w' !! out_path_of s (GetFileName board) = Some svg ∧
    (∀ p, p ≠ out_path_of s (GetFileName board) →
       files w' !! p = files w !! p) ∧
    length (console w') = (length (console w) + 3)%nat ∧
    console w' !! length (console w) =
      Some ("[OK] Wrote: " +:+ out_path_of s (GetFileName board)).
Proof.
  intros Hrun.
  destruct (main_inv s gb w)
    as [(board & lid & combined & added & svg & -> & Hlid & Hc & Hadded &
         Hsvg & Hfn & Hmain)|[e Hmain]];
    [|by rewrite Hmain in Hrun].
  rewrite Hmain in Hrun. injection Hrun as <-.
  exists board, svg. cbn [files console].
  split; [done|]. split; [done|]. split; [by rewrite lookup_insert_eq|].
  split; [intros p Hp; by rewrite lookup_insert_ne|].
  split; [by rewrite length_app|].
  by rewrite lookup_app_r, Nat.sub_diag.
Qed.

Lemma replace_char_length (a b : ascii) (s : string) :
  String.length (replace_char a b s) = String.length s.
Proof. induction s as [|c s IH]; cbn; [done|]. by rewrite IH. Qed.

Lemma replace_char_removes (a b : ascii) (s : string) :
  a ≠ b → ¬ In a (list_ascii_of_string (replace_char a b s)).
Proof.
  intros Hab. induction s as [|c s IH]; cbn; [tauto|].
  intros [H|H]; [|tauto].
  destruct (Ascii.eqb_spec c a); congruence.
Qed.

Lemma replace_char_id (a b : ascii) (s : string) :
  ¬ In a (list_ascii_of_string s) → replace_char a b s = s.
Proof.
  induction s as [|c s IH]; cbn; [done|]. intros H.
  destruct (Ascii.eqb_spec c a) as [->|]; [tauto|]. rewrite IH; tauto.
Qed.

Lemma replace_char_get (a b : ascii) (s : string) (i : nat) (c : ascii) :
  String.get i s = Some c →
  String.get i (replace_char a b s) = Some (if Ascii.eqb c a then b else c).
Proof.
  revert i. induction s as [|c' s IH]; intros i; [done|].
  destruct i as [|i]; cbn [String.get replace_char].
  - by intros [= ->].
  - apply IH.
Qed.

(** The output path is the board's path without its extension, an
    underscore, the layer name and the suffix.  The layer name goes in with
    every dot replaced by an underscore and every other character as it is,
    at its place; so that part has the length of the layer name and no dot,
    and a layer name without dots goes in unchanged. *)
Theorem output_path_shape (s : Settings) (pcb_path : string) :
  ∃ layer,
    out_path_of s pcb_path =
      splitext_root pcb_path +:+ "_" +:+ layer +:+ OUT_SUFFIX s ∧
    String.length layer = String.length (LAYER_NAME s) ∧
    (∀ i c, String.get i (LAYER_NAME s) = Some c →
       String.get i layer = Some (if Ascii.eqb c "." then "_"%char else c)) ∧
    ¬ In "."%char (list_ascii_of_string layer) ∧
    (¬ In "."%char (list_ascii_of_string (LAYER_NAME s)) →
     layer = LAYER_NAME s).
Proof.
  exists (replace_char "." "_" (LAYER_NAME s)).
  split; [|split; [|split; [|split]]].
  - unfold out_path_of. by rewrite append_assoc.
  - apply replace_char_length.
  - intros i c. apply replace_char_get.
  - by apply replace_char_removes.
  - apply replace_char_id.
Qed.

(** *** The test for vias *)

Lemma prefix_spec (p h : string) :
  String.prefix p h = true ↔ ∃ post, h = p +:+ post.
Proof.
  revert h. induction p as [|c p IH]; intros h.
  - split; [intros _; by exists h|]. by destruct h.
  - destruct h as [|c' h]; cbn [String.prefix].
    + split; [done|]. by intros [post [=]].
    + destruct (ascii_dec c c') as [->|Hne].
      * rewrite IH. split; intros [post Hp]; exists post.
        -- by rewrite Hp.
        -- by injection Hp.
      * split; [done|]. intros [post [= ? _]]. congruence.
Qed.

(** [contains] is the substring test of Python's [in]. *)
Lemma contains_spec (needle hay : string) :
  contains needle hay = true ↔ ∃ pre post, hay = pre +:+ needle +:+ post.
Proof.
  induction hay as [|c h IH]; cbn [contains].
  - rewrite orb_false_r, prefix_spec. split.
    + intros [post Hp]. by exists "", post.
    + intros (pre & post & Hp). destruct pre; [by exists post|done].
  - rewrite orb_true_iff, prefix_spec, IH. split.
    + intros [[post Hp]|(pre & post & Hp)].
      * by exists "", post.
      * exists (String c pre), post. by rewrite Hp.
    + intros (pre & post & Hp). destruct pre as [|c' pre].
      * left. by exists post.
      * right. exists pre, post. by injection Hp.
Qed.

Lemma upper_app (s1 s2 : string) : upper (s1 +:+ s2) = upper s1 +:+ upper s2.
Proof.
  induction s1 as [|c s1 IH]; [reflexivity|].
  change (String (upper_ascii c) (upper (s1 +:+ s2)) =
          String (upper_ascii c) (upper s1 +:+ upper s2)).
  by rewrite IH.
Qed.

(** A text whose upper case splits in two splits in two itself. *)
Lemma upper_split (s pre post : string) :
  upper s = pre +:+ post →
  ∃ pre' post', s = pre' +:+ post' ∧ upper pre' = pre ∧ upper post' = post.
Proof.
  revert s. induction pre as [|c pre IH]; intros s H.
  - by exists "", s.
  - destruct s as [|c' s]; [done|].
    change (String (upper_ascii c') (upper s) = String c (pre +:+ post)) in H.
    injection H as Hc Hs.
    destruct (IH s Hs) as (pre' & post' & -> & Hpre & Hpost).
    exists (String c' pre'), post'. split; [done|]. split; [|done].
    change (String (upper_ascii c') (upper pre') = String c pre).
    by rewrite Hc, Hpre.
Qed.

(** The letters whose upper case is a given capital. *)
Lemma upper_ascii_V (c : ascii) :
  upper_ascii c = "V"%char ↔ c = "v"%char ∨ c = "V"%char.
Proof.
  split; [|by intros [->| ->]].
  destruct c as [[] [] [] [] [] [] [] []]; vm_compute; intros [=]; auto.
Qed.

Lemma upper_ascii_I (c : ascii) :
  upper_ascii c = "I"%char ↔ c = "i"%char ∨ c = "I"%char.
Proof.
  split; [|by intros [->| ->]].
  destruct c as [[] [] [] [] [] [] [] []]; vm_compute; intros [=]; auto.
Qed.

Lemma upper_ascii_A (c : ascii) :
  upper_ascii c = "A"%char ↔ c = "a"%char ∨ c = "A"%char.
Proof.
  split; [|by intros [->| ->]].
  destruct c as [[] [] [] [] [] [] [] []]; vm_compute; intros [=]; auto.
Qed.

(** The via test reads the class name: it holds exactly when the name has
    the letters v, i, a next to each other, in this order and in any
    case. *)
Lemma via_test_spec (cls : string) :
  contains "VIA" (upper cls) = true ↔
  ∃ pre c1 c2 c3 post,
    cls = pre +:+ String c1 (String c2 (String c3 post)) ∧
    (c1 = "v"%char ∨ c1 = "V"%char) ∧
    (c2 = "i"%char ∨ c2 = "I"%char) ∧
    (c3 = "a"%char ∨ c3 = "A"%char).
Proof.
  rewrite contains_spec. split.
  - intros (pre & post & H).
    apply upper_split in H as (pre' & rest & -> & _ & H).
    destruct rest as [|c1 [|c2 [|c3 post']]]; try done.
    change (String (upper_ascii c1) (String (upper_ascii c2)
              (String (upper_ascii c3) (upper post'))) =
            String "V" (String "I" (String "A" post))) in H.
    injection H as H1 H2 H3 _.
    exists pre', c1, c2, c3, post'. split; [done|].
    by rewrite <- upper_ascii_V, <- upper_ascii_I, <- upper_ascii_A.
  - intros (pre & c1 & c2 & c3 & post & -> & H1 & H2 & H3).
    apply upper_ascii_V in H1. apply upper_ascii_I in H2.
    apply upper_ascii_A in H3.
    exists (upper pre), (upper post). rewrite upper_app.
    change (upper (String c1 (String c2 (String c3 post)))) with
      (String (upper_ascii c1) (String (upper_ascii c2)
         (String (upper_ascii c3) (upper post)))).
    by rewrite H1, H2, H3.
Qed.

(** An item that answers neither the direct question nor the single-layer
    one is taken to be on the layer exactly when its class name has the
    letters v, i, a next to each other, in this order and in any case; and
    it is not when its class cannot be read. *)
Theorem via_test_is_a_substring_test (item : Item polyset) (lid : Z) :
  no_direct_answer item lid →
  no_layer_attribute item →
  (∀ cls, GetClass item = Ok cls →
     (item_on_layer item lid = true ↔
      ∃ pre c1 c2 c3 post,
        cls = pre +:+ String c1 (String c2 (String c3 post)) ∧
        (c1 = "v"%char ∨ c1 = "V"%char) ∧
        (c2 = "i"%char ∨ c2 = "I"%char) ∧
        (c3 = "a"%char ∨ c3 = "A"%char))) ∧
  (∀ e, GetClass item = Raise e → item_on_layer item lid = false).
Proof.
  intros Hd Hl.
  assert (Hvia : item_on_layer item lid =
    match GetClass item with
    | Ok cls => contains "VIA" (upper cls)
    | Raise _ => false
    end).
  { unfold item_on_layer.
    destruct Hd as [->|(f & e & -> & ->)];
      destruct Hl as [->|(e' & ->)];
      destruct (GetClass item) as [cls|]; try done;
      by destruct (contains "VIA" (upper cls)). }
  rewrite Hvia. split.
  - intros cls ->. apply via_test_spec.
  - by intros e ->.
Qed.

(** *** The three call signatures *)

Lemma try_signatures_some (item : Item polyset) (me : Z)
    (sigs : list (option bool)) (ps ps' : polyset) :
  try_signatures item me sigs ps = Some ps' →
  ∃ flag ps0, flag ∈ sigs ∧
    TransformShapeToPolygon item ps0 0 me flag = (ps', Ok tt).
Proof.
  revert ps. induction sigs as [|flag sigs IH]; intros ps; cbn [try_signatures].
  - done.
  - destruct (TransformShapeToPolygon item ps 0 me flag) as [p1 [[]|e]] eqn:E.
    + intros [= <-]. exists flag, ps. split; [constructor|done].
    + intros H. apply IH in H as (g & ps0 & Hin & Hg).
      exists g, ps0. split; [by constructor|done].
Qed.

(** The item converter takes the first call signature that does not raise:
    a polygon set it returns is what a successful call left, with clearance
    [0] and the given maximum error; success of the first signature ends the
    search; and it returns nothing exactly when the three signatures raise
    one after the other, each on the polygon set the previous one left. *)
Theorem transform_takes_first_success (item : Item polyset) (me : Z) :
  (∀ ps', TransformShapeToPolygon item (SHAPE_POLY_SET api) 0 me None =
            (ps', Ok tt) →
     transform_to_polyset item me = Some ps') ∧
  (∀ ps', transform_to_polyset item me = Some ps' →
     ∃ flag ps0, flag ∈ [None; Some true; Some false] ∧
       TransformShapeToPolygon item ps0 0 me flag = (ps', Ok tt)) ∧
  (transform_to_polyset item me = None ↔
   ∃ p1 e1 p2 e2 p3 e3,
     TransformShapeToPolygon item (SHAPE_POLY_SET api) 0 me None =
       (p1, Raise e1) ∧
     TransformShapeToPolygon item p1 0 me (Some true) = (p2, Raise e2) ∧
     TransformShapeToPolygon item p2 0 me (Some false) = (p3, Raise e3)).
Proof.
  unfold transform_to_polyset. split; [|split].
  - intros ps' H. cbn [try_signatures]. by rewrite H.
  - intros ps'. apply try_signatures_some.
  - cbn [try_signatures].
    destruct (TransformShapeToPolygon item (SHAPE_POLY_SET api) 0 me None)
      as [p1 [[]|e1]] eqn:E1.
    { split; [done|]. by intros (? & ? & ? & ? & ? & ? & [= ] & _). }
    destruct (TransformShapeToPolygon item p1 0 me (Some true))
      as [p2 [[]|e2]] eqn:E2.
    { split; [done|]. intros (? & ? & ? & ? & ? & ? & [= <- <-] & H2 & _).
      rewrite E2 in H2. done. }
    destruct (TransformShapeToPolygon item p2 0 me (Some false))
      as [p3 [[]|e3]] eqn:E3.
    { split; [done|].
      intros (? & ? & ? & ? & ? & ? & [= <- <-] & H2 & H3).
      rewrite E2 in H2. injection H2 as <- <-. rewrite E3 in H3. done. }
    split; [|done]. intros _. by exists p1, e1, p2, e2, p3, e3.
Qed.

(** *** The outlines-only path *)

Lemma yield_outlines_stops (fo : polyset → Z → result Chain)
    (ps : polyset) (outer : Z → Chain) (l1 l2 : list Z) (k : Z) (e : exn) :
  (∀ i, i ∈ l1 → fo ps i = Ok (outer i)) → fo ps k = Raise e →
  yield_outlines fo ps (l1 ++ k :: l2) = (map outer l1, Some e).
Proof.
  intros Hok Hk. induction l1 as [|i l1 IH]; cbn [app yield_outlines map].
  - by rewrite Hk.
  - rewrite (Hok i) by constructor. rewrite IH; [done|].
    intros j Hj. apply Hok. by constructor.
Qed.

(** On a host without [PolygonCount], the iterator yields the outlines in
    increasing index and no hole.  Nothing is swallowed on this path: when
    [Outline] raises at some index, the outlines before it have been
    yielded and the exception leaves the iterator, so the bounds and the
    serialiser raise it. *)
Theorem fallback_path_yields_outlines (ps : polyset)
    (foc : polyset → result Z) (fo : polyset → Z → result Chain) (oc : Z)
    (outer : Z → Chain) :
  PolygonCount api = None →
  OutlineCount api = Some foc → Outline api = Some fo → foc ps = Ok oc →
  ((∀ i, 0 <= i < oc → fo ps i = Ok (outer i)) →
   iter_polyset_loops ps = (map outer (range oc), None)) ∧
  (∀ k e dx dy,
     0 <= k < oc → (∀ i, 0 <= i < k → fo ps i = Ok (outer i)) →
     fo ps k = Raise e →
     iter_polyset_loops ps = (map outer (range k), Some e) ∧
     polyset_bounds_mm ps = Raise e ∧
     polyset_to_svg_paths ps dx dy = Raise e).
Proof.
  intros Hpc Hoc Ho Hcount.
  assert (Hiter : iter_polyset_loops ps = yield_outlines fo ps (range oc)).
  { unfold iter_polyset_loops, iter_primary, iter_fallback.
    by rewrite Hpc, Hoc, Ho, Hcount. }
  split.
  - intros Hall. rewrite Hiter. apply yield_outlines_complete.
    intros i Hi%elem_of_range. by apply Hall.
  - intros k e dx dy Hk Hbefore Hraise.
    assert (iter_polyset_loops ps = (map outer (range k), Some e)) as H.
    { rewrite Hiter, (range_split oc k Hk).
      apply yield_outlines_stops; [|done].
      intros i Hi%elem_of_range. by apply Hbefore. }
    split; [exact H|]. unfold polyset_bounds_mm, polyset_to_svg_paths.
    by rewrite H.
Qed.

(** *** Shifting a loop *)

(** The shift changes no loop's number of points, so the same loops are
    kept whatever the shift; and it moves every point by [(dx, dy)]: the
    [i]-th point of the shifted loop is the [i]-th point of the unshifted
    one plus the shift, the sum being a float sum. *)
Theorem shift_moves_every_point (chain : Chain) (dx dy : Q) :
  length (chain_to_points_mm chain dx dy) = length (chain_points chain) ∧
  retained (chain_to_points_mm chain dx dy) =
    retained (chain_to_points_mm chain 0 0) ∧
  (float_rounding →
   ∀ i x y,
     chain_to_points_mm chain 0 0 !! i = Some (x, y) →
     ∃ x' y',
       chain_to_points_mm chain dx dy !! i = Some (x', y') ∧
       (x' == fl (x + dx) ∧ y' == fl (y + dy))%Q) ∧
  (∀ i p,
     chain_points chain !! i = Some p →
     chain_to_points_mm chain dx dy !! i =
     Some (fl (mm_from_iu (vx p) + dx), fl (mm_from_iu (vy p) + dy))%Q) ∧
  (∀ n cp,
     PointCount chain = Some n → CPoint chain = Some cp →
     length (chain_to_points_mm chain dx dy) = Z.to_nat n ∧
     ∀ i, 0 <= i < n →
       chain_to_points_mm chain dx dy !! Z.to_nat i =
       Some (fl (mm_from_iu (vx (cp i)) + dx),
             fl (mm_from_iu (vy (cp i)) + dy))%Q).
Proof.
  assert (Hlen : ∀ dx' dy',
    length (chain_to_points_mm chain dx' dy') = length (chain_points chain)).
  { intros dx' dy'. by rewrite chain_to_points_mm_map, length_map. }
  split; [apply Hlen|]. split; [|split; [|split]].
  - unfold retained. by rewrite !Hlen.
  - intros Hfl i x y. rewrite !chain_to_points_mm_map, !list_lookup_fmap.
    destruct (chain_points chain !! i) as [p|]; [|done].
    cbn. intros [= <- <-]. eexists _, _. split; [done|].
    split; apply (fl_proper _ _ Hfl); rewrite (fl_of_float _ Hfl); lra.
  - intros i p Hp. rewrite chain_to_points_mm_map, list_lookup_fmap, Hp.
    reflexivity.
  - intros n cp Hn Hcp. split.
    + rewrite Hlen. unfold chain_points, range. rewrite Hn, Hcp.
      by rewrite !length_map, length_seq.
    + intros i Hi. unfold chain_to_points_mm, range. rewrite Hn, Hcp.
      rewrite !list_lookup_fmap, lookup_seq_lt by lia.
      cbn. by rewrite Z2Nat.id by lia.
Qed.

End Script.

(** ** The rounding of the example host *)

Lemma round_half_even_mono (p q : Q) :
  (p <= q)%Q → round_half_even p <= round_half_even q.
Proof.
  intros H. pose proof (Qfloor_resp_le _ _ H) as Hf.
  unfold round_half_even.
  destruct (Z.eq_dec (Qfloor p) (Qfloor q)) as [E|N].
  - rewrite E.
    destruct (Qcompare_spec (p - inject_Z (Qfloor q)) (1 # 2)),
      (Qcompare_spec (q - inject_Z (Qfloor q)) (1 # 2));
      try destruct (Z.even _); try lia; lra.
  - destruct (_ ?= _)%Q, (_ ?= _)%Q; repeat destruct (Z.even _); lia.
Qed.

Lemma round_half_even_inject (x : Q) (n : Z) :
  (x == inject_Z n)%Q → round_half_even x = n.
Proof.
  intros H. unfold round_half_even.
  assert (Qfloor x = n) as -> by (rewrite H; apply Qfloor_Z).
  destruct (Qcompare_spec (x - inject_Z n) (1 # 2)); [lra|done|lra].
Qed.

(** Rounding onto the grid is a float rounding, and the example host's
    [ToMM] answers numbers of the grid. *)
Lemma demo_float_rounding : float_rounding Demo.ToMM Demo.fl.
Proof.
  assert (Hidem : ∀ q, (Demo.fl (Demo.fl q) == Demo.fl q)%Q).
  { intros q. unfold Demo.fl at 1.
    rewrite (round_half_even_inject _
               (round_half_even (q * inject_Z (2 ^ 40)))); [reflexivity|].
    unfold Demo.fl, Qeq. cbn. lia. }
  split; [|split; [|split]].
  - intros p q H. unfold Demo.fl, Qle. cbn [Qnum Qden].
    apply Z.mul_le_mono_nonneg_r; [done|].
    apply round_half_even_mono.
    apply Qmult_le_compat_r; [done|]. by vm_compute.
  - exact Hidem.
  - by vm_compute.
  - intros iu. apply Hidem.
Qed.

(** ** The script on concrete boards *)

Local Abbreviation demo_main api :=
  (main api Demo.PCB_LAYER_ID_COUNT Demo.FromMM Demo.ToMM Demo.fl Demo.splitext_root
     user_settings).

Local Abbreviation demo_error := (iu_from_mm Demo.FromMM (MAX_ERROR_MM user_settings)).

(** A polygon with a hole, and a degenerate two-point loop. *)
Local Abbreviation demo_polys :=
  [(Demo.rect 0 0 4000000 4000000, [Demo.rect 1000000 1000000 3000000 3000000]);
   (Demo.line_chain [Demo.pt 0 0; Demo.pt 5000000 5000000], [])].

Example layer_found_directly :
  get_layer_id Demo.PCB_LAYER_ID_COUNT (Demo.board [] []) "F.Cu" = Ok 0.
Proof. reflexivity. Qed.

Example layer_found_by_scan :
  get_layer_id Demo.PCB_LAYER_ID_COUNT Demo.board_scan_only "B.Cu" = Ok 2.
Proof. reflexivity. Qed.

Example layer_not_found_example :
  get_layer_id Demo.PCB_LAYER_ID_COUNT Demo.board_scan_only "In1.Cu" =
  Raise (RuntimeError "Could not find layer 'In1.Cu'").
Proof. reflexivity. Qed.

Example via_is_accepted :
  item_on_layer (Demo.bare "PCB_VIA") 5 = true ∧
  item_on_layer (Demo.bare "pcb_via") 5 = true ∧
  item_on_layer (Demo.bare "PCB_TEXT") 5 = false ∧
  item_on_layer Demo.track 0 = true ∧
  item_on_layer Demo.track 2 = false.
Proof. repeat split. Qed.

Example demo_paths :
  polyset_to_svg_paths Demo.api Demo.ToMM Demo.fl demo_polys 1 1 =
  Ok ["M 1.0000,1.0000 L 5.0000,1.0000 L 5.0000,5.0000 L 1.0000,5.0000 Z";
      "M 2.0000,2.0000 L 4.0000,2.0000 L 4.0000,4.0000 L 2.0000,4.0000 Z"].
Proof. vm_compute. reflexivity. Qed.

Example demo_run_succeeds :
  fst (demo_main Demo.api (Some (Demo.board [Demo.track] [Demo.pad]))
         Demo.world0) = Ok tt ∧
  dom (files (snd (demo_main Demo.api
                     (Some (Demo.board [Demo.track] [Demo.pad]))
                     Demo.world0))) = {["esp32_F_Cu_laser.svg"]}.
Proof. split; vm_compute; reflexivity. Qed.

Example fmt4_examples :
  fmt4 (- (1 # 3)) = "-0.3333" ∧ fmt4 (12345678 # 1000) = "12345.6780" ∧
  fmt4 (35 # 100000) = "0.0004" ∧ fmt4 0 = "0.0000".
Proof. repeat split. Qed.

Example nothing_on_the_layer :
  demo_main Demo.api (Some (Demo.board [] [])) Demo.world0 =
  (Raise (nothing_exported user_settings), Demo.world0).
Proof. vm_compute. reflexivity. Qed.

(** C1 does not hold for the union step.  On a host whose union refuses an
    empty operand, a pad that is on the layer and converts well ends the
    whole run with the host's exception, although the board without it
    exports; and a track of the same kind ends the tracks loop, so the sound
    track after it is never added and the run reports that nothing was
    exported, although the board without the failing track exports.  On a
    host whose polygon sets have no union method at all, the first pad ends
    the run with the script's own API-mismatch error. *)
Lemma union_failure_is_not_skipped :
  (pad_on_layer Demo.blank 0 = true ∧
   transform_to_polyset Demo.api_picky Demo.blank demo_error = Some [] ∧
   snd (poly_boolean_add Demo.api_picky [] []) =
     Raise (HostError "empty operand") ∧
   demo_main Demo.api_picky (Some (Demo.board [Demo.track] [Demo.blank]))
       Demo.world0 =
     (Raise (HostError "empty operand"), Demo.world0) ∧
   fst (demo_main Demo.api_picky (Some (Demo.board [Demo.track] []))
          Demo.world0) = Ok tt) ∧
  (item_on_layer Demo.blank 0 = true ∧ item_on_layer Demo.track 0 = true ∧
   add_layer_items Demo.api_picky 0 demo_error [Demo.blank; Demo.track] ([], 0) =
     (([], 0), Raise (HostError "empty operand")) ∧
   snd (fst (add_layer_items Demo.api_picky 0 demo_error [Demo.track] ([], 0))) = 1 ∧
   demo_main Demo.api_picky (Some (Demo.board [Demo.blank; Demo.track] []))
       Demo.world0 =
     (Raise (nothing_exported user_settings), Demo.world0) ∧
   fst (demo_main Demo.api_picky (Some (Demo.board [Demo.track] []))
          Demo.world0) = Ok tt) ∧
  (pad_on_layer Demo.pad 0 = true ∧
   demo_main Demo.api_no_union (Some (Demo.board [] [Demo.pad])) Demo.world0 =
     (Raise api_mismatch_add, Demo.world0)).
Proof. repeat split; vm_compute; reflexivity. Qed.

Lemma conversion_failure_is_skipped_witness :
  transform_to_polyset Demo.api Demo.malformed demo_error = None ∧
  demo_main Demo.api
    (Some (with_tracks (Demo.board [] [Demo.pad])
             (Ok ([Demo.track] ++ Demo.malformed :: [Demo.track]))))
    Demo.world0 =
  demo_main Demo.api
    (Some (with_tracks (Demo.board [] [Demo.pad])
             (Ok ([Demo.track] ++ [Demo.track]))))
    Demo.world0.
Proof.
  split; [reflexivity|].
  apply (conversion_failure_is_skipped Demo.api Demo.PCB_LAYER_ID_COUNT
           Demo.FromMM Demo.ToMM Demo.fl Demo.splitext_root user_settings
           (Demo.board [] [Demo.pad]) Demo.world0 0 Demo.malformed
           [Demo.track] [Demo.track] [] [] ([], 0)).
  reflexivity.
Defined.

Lemma bounding_box_contains_points_witness :
  float_rounding Demo.ToMM Demo.fl ∧
  (0 <= MARGIN_MM user_settings)%Q ∧
  ∃ w' combined minx0 miny0 maxx0 maxy0 chains wtext htext paths,
    demo_main Demo.api (Some (Demo.board [Demo.track] [Demo.pad]))
      Demo.world0 = (Ok tt, w') ∧
    polyset_bounds_mm Demo.api Demo.ToMM Demo.fl combined =
      Ok (minx0, miny0, maxx0, maxy0) ∧
    iter_polyset_loops Demo.api combined = (chains, None) ∧
    (∀ chain x y,
       chain ∈ chains →
       (x, y) ∈ chain_to_points_mm Demo.ToMM Demo.fl chain 0 0 →
       (Demo.fl (minx0 - MARGIN_MM user_settings) <= x
          <= Demo.fl (maxx0 + MARGIN_MM user_settings) ∧
        Demo.fl (miny0 - MARGIN_MM user_settings) <= y
          <= Demo.fl (maxy0 + MARGIN_MM user_settings))%Q) ∧
    prints_rounded
      (Demo.fl (Demo.fl (maxx0 + MARGIN_MM user_settings) -
                Demo.fl (minx0 - MARGIN_MM user_settings))) wtext ∧
    prints_rounded
      (Demo.fl (Demo.fl (maxy0 + MARGIN_MM user_settings) -
                Demo.fl (miny0 - MARGIN_MM user_settings))) htext ∧
    files w' =
      <[out_path_of Demo.splitext_root user_settings "esp32.kicad_pcb" :=
          svg_document_spec (FILL_COLOR user_settings) wtext htext paths]>
        (files Demo.world0).
Proof.
  assert ((0 <= MARGIN_MM user_settings)%Q) as Hm by (vm_compute; discriminate).
  split; [exact demo_float_rounding|]. split; [exact Hm|].
  destruct (bounding_box_contains_points Demo.api Demo.PCB_LAYER_ID_COUNT
              Demo.FromMM Demo.ToMM Demo.fl Demo.splitext_root user_settings
              (Some (Demo.board [Demo.track] [Demo.pad])) Demo.world0
              (snd (demo_main Demo.api
                      (Some (Demo.board [Demo.track] [Demo.pad]))
                      Demo.world0)) demo_float_rounding Hm)
    as (board & lid & combined & added & a & b & c & d & chains &
        minx & miny & maxx & maxy & wtext & htext & paths &
        Hgb & _ & Hb & Hiter & -> & -> & -> & -> & Hin & Hw & Hh & _ & Hfiles);
    [vm_compute; reflexivity|].
  injection Hgb as <-.
  exists (snd (demo_main Demo.api (Some (Demo.board [Demo.track] [Demo.pad]))
                 Demo.world0)), combined, a, b, c, d, chains, wtext, htext,
    paths.
  split; [vm_compute; reflexivity|]. split; [exact Hb|].
  split; [exact Hiter|]. split; [exact Hin|]. split; [exact Hw|].
  split; [exact Hh|exact Hfiles].
Defined.

(** The document of a sliver 10 nm wide, with the margin of 1 mm on each
    side: its box is a little more than 2 mm wide, and the width written is
    2.0000. *)
Lemma written_width_is_rounded :
  main_collect Demo.api Demo.FromMM user_settings
    (Demo.board [Demo.sliver] []) 0 =
    (([(Demo.rect 0 0 10 4000000, [])], 1), Ok tt) ∧
  polyset_bounds_mm Demo.api Demo.ToMM Demo.fl
    [(Demo.rect 0 0 10 4000000, [])] =
    Ok (0 # 1099511627776, 0 # 1099511627776,
        10995116 # 1099511627776, 4398046511104 # 1099511627776)%Q ∧
  (2 < Demo.fl ((10995116 # 1099511627776) + MARGIN_MM user_settings) -
       Demo.fl ((0 # 1099511627776) - MARGIN_MM user_settings))%Q ∧
  fst (demo_main Demo.api (Some (Demo.board [Demo.sliver] [])) Demo.world0) =
    Ok tt ∧
  files (snd (demo_main Demo.api (Some (Demo.board [Demo.sliver] []))
                Demo.world0)) =
    {[ "esp32_F_Cu_laser.svg" :=
         svg_document_spec "#000000" "2.0000" "6.0000"
           ["M 1.0000,1.0000 L 1.0000,1.0000 L 1.0000,5.0000 " +:+
            "L 1.0000,5.0000 Z"] ]}.
Proof.
  split; [reflexivity|]. split; [reflexivity|]. split; [reflexivity|].
  split; [reflexivity|]. vm_compute. reflexivity.
Defined.

Lemma shifted_coordinates_nonnegative_witness :
  float_rounding Demo.ToMM Demo.fl ∧
  (0 <= MARGIN_MM user_settings)%Q ∧
  ∃ w' combined minx0 miny0 maxx0 maxy0 chains wtext htext,
    demo_main Demo.api (Some (Demo.board [Demo.track] [Demo.pad]))
      Demo.world0 = (Ok tt, w') ∧
    polyset_bounds_mm Demo.api Demo.ToMM Demo.fl combined =
      Ok (minx0, miny0, maxx0, maxy0) ∧
    iter_polyset_loops Demo.api combined = (chains, None) ∧
    files w' =
      <[out_path_of Demo.splitext_root user_settings "esp32.kicad_pcb" :=
          svg_document_spec (FILL_COLOR user_settings) wtext htext
            (svg_paths_spec Demo.ToMM Demo.fl chains
               (- Demo.fl (minx0 - MARGIN_MM user_settings))
               (- Demo.fl (miny0 - MARGIN_MM user_settings)))]>
        (files Demo.world0) ∧
    ∀ chain x y,
      chain ∈ chains →
      (x, y) ∈ chain_to_points_mm Demo.ToMM Demo.fl chain
                 (- Demo.fl (minx0 - MARGIN_MM user_settings))
                 (- Demo.fl (miny0 - MARGIN_MM user_settings)) →
      (0 <= x ∧ 0 <= y)%Q.
Proof.
  assert ((0 <= MARGIN_MM user_settings)%Q) as Hm by (vm_compute; discriminate).
  split; [exact demo_float_rounding|]. split; [exact Hm|].
  destruct (shifted_coordinates_nonnegative Demo.api Demo.PCB_LAYER_ID_COUNT
              Demo.FromMM Demo.ToMM Demo.fl Demo.splitext_root user_settings
              (Some (Demo.board [Demo.track] [Demo.pad])) Demo.world0
              (snd (demo_main Demo.api
                      (Some (Demo.board [Demo.track] [Demo.pad]))
                      Demo.world0)) demo_float_rounding Hm)
    as (board & lid & combined & added & a & b & c & d & chains & dx & dy &
        wtext & htext & Hgb & _ & Hb & Hiter & -> & -> & _ & Hfiles & _ &
        Hin & _);
    [vm_compute; reflexivity|].
  injection Hgb as <-.
  exists (snd (demo_main Demo.api (Some (Demo.board [Demo.track] [Demo.pad]))
                 Demo.world0)), combined, a, b, c, d, chains, wtext, htext.
  split; [vm_compute; reflexivity|]. split; [exact Hb|].
  split; [exact Hiter|]. split; [exact Hfiles|exact Hin].
Defined.

Lemma svg_paths_one_per_retained_loop_witness :
  iter_polyset_loops Demo.api demo_polys =
    ([Demo.rect 0 0 4000000 4000000;
      Demo.rect 1000000 1000000 3000000 3000000;
      Demo.line_chain [Demo.pt 0 0; Demo.pt 5000000 5000000]], None) ∧
  polyset_to_svg_paths Demo.api Demo.ToMM Demo.fl demo_polys 1 1 =
    Ok ["M 1.0000,1.0000 L 5.0000,1.0000 L 5.0000,5.0000 L 1.0000,5.0000 Z";
        "M 2.0000,2.0000 L 4.0000,2.0000 L 4.0000,4.0000 L 2.0000,4.0000 Z"].
Proof.
  split; [reflexivity|].
  rewrite (proj1 (svg_paths_one_per_retained_loop Demo.api Demo.ToMM Demo.fl
                    demo_polys 1 1 _ eq_refl)).
  reflexivity.
Defined.

Lemma chain_without_points_is_dropped_witness :
  (PointCount Demo.opaque_chain = None ∨ CPoint Demo.opaque_chain = None) ∧
  chain_iter Demo.opaque_chain = None ∧
  chain_to_points_mm Demo.ToMM Demo.fl Demo.opaque_chain 1 1 = [].
Proof.
  split; [by left|]. split; [reflexivity|].
  apply (chain_without_points_is_dropped Demo.api Demo.ToMM Demo.fl
           Demo.opaque_chain 1 1); [by left|reflexivity].
Defined.


(** ** Further runs on concrete boards *)

Local Abbreviation demo_outer :=
  (fun p : Z =>
     match demo_polys !! Z.to_nat p with
     | Some (o, _) => o
     | None => Demo.opaque_chain
     end).

Local Abbreviation demo_chains :=
  [Demo.rect 0 0 4000000 4000000;
   Demo.rect 1000000 1000000 3000000 3000000;
   Demo.line_chain [Demo.pt 0 0; Demo.pt 5000000 5000000]].

Lemma main_collect_is_union_witness :
  (∀ dst src, snd (poly_boolean_add Demo.api dst src) = Ok tt) ∧
  snd (fst (main_collect Demo.api Demo.FromMM user_settings
              (Demo.board [Demo.track; Demo.malformed] [Demo.pad]) 0)) = 2.
Proof.
  assert (union_never_raises Demo.api) as Hunion by (intros dst src; reflexivity).
  split; [exact Hunion|].
  rewrite (main_collect_is_union Demo.api Demo.FromMM user_settings
             (Demo.board [Demo.track; Demo.malformed] [Demo.pad]) 0 Hunion).
  reflexivity.
Defined.

Lemma off_layer_items_are_ignored_witness :
  get_layer_id Demo.PCB_LAYER_ID_COUNT (Demo.board [] [Demo.pad])
    (LAYER_NAME user_settings) = Ok 0 ∧
  item_on_layer (Demo.bare "PCB_TEXT") 0 = false ∧
  demo_main Demo.api
    (Some (with_tracks (Demo.board [] [Demo.pad])
             (Ok ([Demo.track] ++ Demo.bare "PCB_TEXT" :: [Demo.track]))))
    Demo.world0 =
  demo_main Demo.api
    (Some (with_tracks (Demo.board [] [Demo.pad])
             (Ok ([Demo.track] ++ [Demo.track]))))
    Demo.world0.
Proof.
  split; [reflexivity|]. split; [reflexivity|].
  apply (off_layer_items_are_ignored Demo.api Demo.PCB_LAYER_ID_COUNT
           Demo.FromMM Demo.ToMM Demo.fl Demo.splitext_root user_settings
           (Demo.board [] [Demo.pad]) Demo.world0 0 (Demo.bare "PCB_TEXT")
           [Demo.track] [Demo.track] [] []);
    reflexivity.
Defined.

Lemma zones_are_excluded_by_default_witness :
  INCLUDE_ZONES user_settings = false ∧
  demo_main Demo.api
    (Some (with_zones (Demo.board [Demo.track] []) (Ok [Demo.pad])))
    Demo.world0 =
  demo_main Demo.api (Some (Demo.board [Demo.track] [])) Demo.world0.
Proof.
  split; [reflexivity|].
  apply (zones_are_excluded_by_default Demo.api Demo.PCB_LAYER_ID_COUNT
           Demo.FromMM Demo.ToMM Demo.fl Demo.splitext_root user_settings
           (Demo.board [Demo.track] []) Demo.world0 (Ok [Demo.pad])).
  reflexivity.
Defined.

Lemma no_union_no_export_witness :
  ∃ e, demo_main Demo.api_no_union
         (Some (Demo.board [Demo.track] [Demo.pad])) Demo.world0 =
       (Raise e, Demo.world0).
Proof.
  apply (no_union_no_export Demo.api_no_union Demo.PCB_LAYER_ID_COUNT
           Demo.FromMM Demo.ToMM Demo.fl Demo.splitext_root user_settings
           (Some (Demo.board [Demo.track] [Demo.pad])) Demo.world0).
  intros dst src. eexists. reflexivity.
Defined.

Lemma no_outline_no_export_witness :
  Outline Demo.api_no_outline = None ∧
  polyset_bounds_mm Demo.api_no_outline Demo.ToMM Demo.fl demo_polys =
    Raise api_mismatch_iter ∧
  ∃ e, demo_main Demo.api_no_outline
         (Some (Demo.board [Demo.track] [Demo.pad])) Demo.world0 =
       (Raise e, Demo.world0).
Proof.
  split; [reflexivity|].
  destruct (no_outline_no_export Demo.api_no_outline Demo.PCB_LAYER_ID_COUNT
              Demo.FromMM Demo.ToMM Demo.fl Demo.splitext_root user_settings
              (Some (Demo.board [Demo.track] [Demo.pad])) Demo.world0
              demo_polys 0 0) as (_ & Hb & _ & Hm); [reflexivity|].
  split; [exact Hb|exact Hm].
Defined.

Lemma interrupted_primary_path_repeats_outlines_witness :
  iter_polyset_loops Demo.api_broken_holes demo_polys =
  ([Demo.rect 0 0 4000000 4000000;
    Demo.rect 0 0 4000000 4000000;
    Demo.line_chain [Demo.pt 0 0; Demo.pt 5000000 5000000]], None).
Proof.
  rewrite (interrupted_primary_path_repeats_outlines Demo.api_broken_holes
           demo_polys
           (fun ps => Ok (Z.of_nat (length ps)))
           (fun ps p =>
              match ps !! Z.to_nat p with
              | Some (o, _) => Ok o
              | None => Demo.index_error
              end)
           (fun _ _ => Demo.index_error)
           (fun ps p h =>
              match ps !! Z.to_nat p with
              | Some (_, hs) =>
                  match hs !! Z.to_nat h with
                  | Some c => Ok c
                  | None => Demo.index_error
                  end
              | None => Demo.index_error
              end)
           (fun ps => Ok (Z.of_nat (length ps)))
           2 2 0 (HostError "IndexError") demo_outer (fun _ => []));
    try reflexivity; try lia.
  intros i Hi. assert (i = 0 ∨ i = 1) as [-> | ->] by lia; reflexivity.
Defined.

Lemma bounds_empty_exactly_witness :
  iter_polyset_loops Demo.api [(Demo.opaque_chain, [])] =
    ([Demo.opaque_chain], None) ∧
  polyset_bounds_mm Demo.api Demo.ToMM Demo.fl [(Demo.opaque_chain, [])] =
    Raise bounds_empty.
Proof.
  split; [reflexivity|].
  apply (bounds_empty_exactly Demo.api Demo.ToMM Demo.fl [(Demo.opaque_chain, [])]
           [Demo.opaque_chain]); reflexivity.
Defined.

Lemma bounds_are_attained_witness :
  polyset_bounds_mm Demo.api Demo.ToMM Demo.fl demo_polys =
    Ok (0 # 1099511627776, 0 # 1099511627776,
        5497558138880 # 1099511627776, 5497558138880 # 1099511627776)%Q ∧
  (∃ y, (0 # 1099511627776, y)%Q ∈ all_points Demo.ToMM Demo.fl demo_chains) ∧
  (∃ x, (x, 5497558138880 # 1099511627776)%Q ∈
          all_points Demo.ToMM Demo.fl demo_chains).
Proof.
  split; [reflexivity|].
  destruct (bounds_are_attained Demo.api Demo.ToMM Demo.fl demo_polys
              demo_chains
              (0 # 1099511627776) (0 # 1099511627776)
              (5497558138880 # 1099511627776)
              (5497558138880 # 1099511627776))
    as (Hminx & Hrest & _); [reflexivity|reflexivity|].
  split; [exact Hminx|]. apply Hrest.
  intros pt Hpt. apply list_elem_of_In in Hpt. vm_compute in Hpt.
  repeat (destruct Hpt as [<-|Hpt]; [vm_compute; repeat split; reflexivity|]).
  destruct Hpt.
Defined.

Lemma paths_fit_the_view_box_witness :
  float_rounding Demo.ToMM Demo.fl ∧
  (0 <= MARGIN_MM user_settings)%Q ∧
  ∃ w' combined minx0 miny0 maxx0 maxy0 chains,
    demo_main Demo.api (Some (Demo.board [Demo.track] [Demo.pad]))
      Demo.world0 = (Ok tt, w') ∧
    polyset_bounds_mm Demo.api Demo.ToMM Demo.fl combined =
      Ok (minx0, miny0, maxx0, maxy0) ∧
    iter_polyset_loops Demo.api combined = (chains, None) ∧
    ∀ chain x y,
      chain ∈ chains →
      (x, y) ∈ chain_to_points_mm Demo.ToMM Demo.fl chain
                 (- Demo.fl (minx0 - MARGIN_MM user_settings))
                 (- Demo.fl (miny0 - MARGIN_MM user_settings)) →
      (0 <= x <= Demo.fl (Demo.fl (maxx0 + MARGIN_MM user_settings) -
                          Demo.fl (minx0 - MARGIN_MM user_settings)) ∧
       0 <= y <= Demo.fl (Demo.fl (maxy0 + MARGIN_MM user_settings) -
                          Demo.fl (miny0 - MARGIN_MM user_settings)))%Q.
Proof.
  assert ((0 <= MARGIN_MM user_settings)%Q) as Hm by (vm_compute; discriminate).
  split; [exact demo_float_rounding|]. split; [exact Hm|].
  destruct (paths_fit_the_view_box Demo.api Demo.PCB_LAYER_ID_COUNT
              Demo.FromMM Demo.ToMM Demo.fl Demo.splitext_root user_settings
              (Some (Demo.board [Demo.track] [Demo.pad])) Demo.world0
              (snd (demo_main Demo.api
                      (Some (Demo.board [Demo.track] [Demo.pad]))
                      Demo.world0)) demo_float_rounding Hm)
    as (board & lid & combined & added & a & b & c & d & chains & width &
        height & dx & dy & _ & _ & Hb & Hiter & -> & -> & -> & -> & _ & _ &
        Hin);
    [vm_compute; reflexivity|].
  exists (snd (demo_main Demo.api (Some (Demo.board [Demo.track] [Demo.pad]))
                 Demo.world0)), combined, a, b, c, d, chains.
  split; [vm_compute; reflexivity|]. split; [exact Hb|].
  split; [exact Hiter|exact Hin].
Defined.

Lemma export_needs_a_contribution_witness :
  ∃ w',
    demo_main Demo.api (Some (Demo.board [Demo.track] [Demo.pad]))
      Demo.world0 = (Ok tt, w') ∧
    ∃ board lid,
      Some (Demo.board [Demo.track] [Demo.pad]) = Some board ∧
      contributions Demo.api Demo.FromMM user_settings board lid ≠ [].
Proof.
  exists (snd (demo_main Demo.api (Some (Demo.board [Demo.track] [Demo.pad]))
                 Demo.world0)).
  split; [vm_compute; reflexivity|].
  destruct (export_needs_a_contribution Demo.api Demo.PCB_LAYER_ID_COUNT
              Demo.FromMM Demo.ToMM Demo.fl Demo.splitext_root user_settings
              (Some (Demo.board [Demo.track] [Demo.pad])) Demo.world0
              (snd (demo_main Demo.api
                      (Some (Demo.board [Demo.track] [Demo.pad]))
                      Demo.world0)))
    as (board & lid & Hgb & _ & _ & Hne); [vm_compute; reflexivity|].
  exists board, lid. split; [exact Hgb|exact Hne].
Defined.

Lemma successful_run_touches_one_file_witness :
  ∃ w',
    demo_main Demo.api (Some (Demo.board [Demo.track] [Demo.pad]))
      Demo.world0 = (Ok tt, w') ∧
    length (console w') = (length (console Demo.world0) + 3)%nat ∧
    files w' !! "unrelated.txt" = files Demo.world0 !! "unrelated.txt".
Proof.
  exists (snd (demo_main Demo.api (Some (Demo.board [Demo.track] [Demo.pad]))
                 Demo.world0)).
  split; [vm_compute; reflexivity|].
  destruct (successful_run_touches_one_file Demo.api Demo.PCB_LAYER_ID_COUNT
              Demo.FromMM Demo.ToMM Demo.fl Demo.splitext_root user_settings
              (Some (Demo.board [Demo.track] [Demo.pad])) Demo.world0
              (snd (demo_main Demo.api
                      (Some (Demo.board [Demo.track] [Demo.pad]))
                      Demo.world0)))
    as (board & svg & Hgb & _ & _ & Hother & Hlen & _);
    [vm_compute; reflexivity|].
  split; [exact Hlen|]. apply Hother.
  injection Hgb as <-. vm_compute. discriminate.
Defined.

Lemma fallback_path_yields_outlines_witness :
  iter_polyset_loops Demo.api_outlines_only demo_polys =
  ([Demo.rect 0 0 4000000 4000000;
    Demo.line_chain [Demo.pt 0 0; Demo.pt 5000000 5000000]], None).
Proof.
  destruct (fallback_path_yields_outlines Demo.api_outlines_only Demo.ToMM Demo.fl
              demo_polys
              (fun ps => Ok (Z.of_nat (length ps)))
              (fun ps p =>
                 match ps !! Z.to_nat p with
                 | Some (o, _) => Ok o
                 | None => Demo.index_error
                 end)
              2 demo_outer)
    as [Hall _]; [reflexivity..|].
  rewrite Hall; [reflexivity|].
  intros i Hi. assert (i = 0 ∨ i = 1) as [-> | ->] by lia; reflexivity.
Defined.

(** A board whose direct lookup answers -1 for a name it does not know: no
    layer has the name, the resolver returns -1, and the run exports the
    via under that name. *)
Lemma unknown_layer_is_exported :
  find (fun lid => String.eqb (GetLayerName Demo.board_sentinel lid) "X.Cu")
    (range Demo.PCB_LAYER_ID_COUNT) = None ∧
  get_layer_id Demo.PCB_LAYER_ID_COUNT Demo.board_sentinel "X.Cu" = Ok (-1) ∧
  fst (main Demo.api Demo.PCB_LAYER_ID_COUNT Demo.FromMM Demo.ToMM Demo.fl
         Demo.splitext_root (Demo.settings_for "X.Cu")
         (Some Demo.board_sentinel) Demo.world0) = Ok tt ∧
  files (snd (main Demo.api Demo.PCB_LAYER_ID_COUNT Demo.FromMM Demo.ToMM
                Demo.fl Demo.splitext_root (Demo.settings_for "X.Cu")
                (Some Demo.board_sentinel) Demo.world0)) =
    {[ "esp32_X_Cu_laser.svg" :=
         svg_document_spec "#000000" "3.0000" "3.0000"
           ["M 1.0000,1.0000 L 2.0000,1.0000 L 2.0000,2.0000 " +:+
            "L 1.0000,2.0000 Z"] ]}.
Proof.
  split; [reflexivity|]. split; [reflexivity|]. split; [reflexivity|].
  vm_compute. reflexivity.
Defined.

Lemma via_test_is_a_substring_test_witness :
  no_direct_answer (Demo.bare "pcb_Via") 0 ∧
  no_layer_attribute (Demo.bare "pcb_Via") ∧
  item_on_layer (Demo.bare "pcb_Via") 0 = true.
Proof.
  assert (no_direct_answer (Demo.bare "pcb_Via") 0) as Hd by (by left).
  assert (no_layer_attribute (Demo.bare "pcb_Via")) as Hl by (by left).
  split; [exact Hd|]. split; [exact Hl|].
  destruct (via_test_is_a_substring_test (Demo.bare "pcb_Via") 0 Hd Hl)
    as [Hcls _].
  apply (Hcls "pcb_Via" eq_refl).
  exists "pcb_", "V"%char, "i"%char, "a"%char, "". repeat split; auto.
Defined.

(** The second solid-area method works on the polygon set the first one
    left behind. *)
Example zone_second_method_example :
  zone_to_polyset Demo.api Demo.zone_second_method demo_error =
    Some [(Demo.rect 0 0 1000000 1000000, []);
          (Demo.rect 0 0 2000000 2000000, [])].
Proof. reflexivity. Qed.

Example splitext_examples :
  Demo.splitext_root "esp32.kicad_pcb" = "esp32" ∧
  Demo.splitext_root "/home/a.b/board" = "/home/a.b/board" ∧
  Demo.splitext_root "dir/.hidden" = "dir/.hidden" ∧
  Demo.splitext_root "a.b.c" = "a.b".
Proof. repeat split. Qed.
